(** * TwilioSendGrid: a shallow embedding of services/TwilioSendGrid.js

    The service is a thin orchestration layer over the SendGrid HTTP API.
    The embedding follows the source function by function:

    - parameters have the types of the JSDoc annotations;
    - JavaScript values are the inductive [JsVal]; objects are the lists of
      their own enumerable properties in [Object.entries] order, numbers are
      the integers, strings are sequences of 8-bit code units (Latin-1);
    - a property read under a key that the caller chooses (the tag and the
      template key of a send, the names of the custom fields) also finds the
      members inherited from [Object.prototype]; the keys that the template
      registry supplies are taken not to name such members;
    - the regular expression literal of [_isValidEmail] is a value of a small
      regular-expression type, run by a derivative matcher;
    - [async] functions are trees of remote interactions ([IO]): a node is a
      request to the SendGrid client, a timer wait or a clock read, a leaf is
      the outcome (a returned value or a thrown error) together with the
      three static caches of the class;
    - the remote service is any state machine answering the requests. *)

From Stdlib Require Import ZArith String Ascii List Bool Lia.
From stdpp Require Import base strings gmap list pretty.

Import ListNotations.
Local Open Scope string_scope.
Local Open Scope list_scope.

(* ================================================================== *)
(** ** Regular expressions, as far as the source uses them *)
(* ================================================================== *)

Module Regex.

(** The fragment needed for [/^[^\s@]+@[^\s@]+\.[^\s@]+$/]: character
    classes, concatenation and the [+] quantifier (with the pieces that
    derivatives of those produce). *)
Inductive t : Type :=
| Void
| Eps
| Class (p : ascii -> bool)
| Alt (r1 r2 : t)
| Cat (r1 r2 : t)
| Star (r : t).

Definition Plus (r : t) : t := Cat r (Star r).
Definition Lit (c : ascii) : t := Class (Ascii.eqb c).

(** The language of an expression: what an anchored match [^r$] accepts. *)
Inductive Matches : t -> list ascii -> Prop :=
| MEps : Matches Eps []
| MClass p c : p c = true -> Matches (Class p) [c]
| MAltL r1 r2 s : Matches r1 s -> Matches (Alt r1 r2) s
| MAltR r1 r2 s : Matches r2 s -> Matches (Alt r1 r2) s
| MCat r1 r2 s1 s2 :
    Matches r1 s1 -> Matches r2 s2 -> Matches (Cat r1 r2) (s1 ++ s2)
| MStarNil r : Matches (Star r) []
| MStarApp r s1 s2 :
    Matches r s1 -> Matches (Star r) s2 -> Matches (Star r) (s1 ++ s2).

Fixpoint nullable (r : t) : bool :=
  match r with
  | Void => false
  | Eps => true
  | Class _ => false
  | Alt r1 r2 => nullable r1 || nullable r2
  | Cat r1 r2 => nullable r1 && nullable r2
  | Star _ => true
  end.

Fixpoint deriv (c : ascii) (r : t) : t :=
  match r with
  | Void => Void
  | Eps => Void
  | Class p => if p c then Eps else Void
  | Alt r1 r2 => Alt (deriv c r1) (deriv c r2)
  | Cat r1 r2 =>
      if nullable r1
      then Alt (Cat (deriv c r1) r2) (deriv c r2)
      else Cat (deriv c r1) r2
  | Star r1 => Cat (deriv c r1) (Star r1)
  end.

Fixpoint accepts (r : t) (s : list ascii) : bool :=
  match s with
  | [] => nullable r
  | c :: s' => accepts (deriv c r) s'
  end.

(** [RegExp.prototype.test] on an expression anchored at both ends. *)
Definition test (r : t) (s : string) : bool :=
  accepts r (list_ascii_of_string s).

End Regex.

(** [\s] on 8-bit code units: TAB, LF, VT, FF, CR, SPACE and NBSP. *)
Definition is_js_space (c : ascii) : bool :=
  let n := nat_of_ascii c in
  ((9 <=? n)%nat && (n <=? 13)%nat) || (n =? 32)%nat || (n =? 160)%nat.

(** The class [[^\s@]]. *)
Definition not_space_at (c : ascii) : bool :=
  negb (is_js_space c || Ascii.eqb c "@"%char).

(** [const emailRegex = /^[^\s@]+@[^\s@]+\.[^\s@]+$/;] *)
Definition emailRegex : Regex.t :=
  Regex.Cat (Regex.Plus (Regex.Class not_space_at))
    (Regex.Cat (Regex.Lit "@"%char)
       (Regex.Cat (Regex.Plus (Regex.Class not_space_at))
          (Regex.Cat (Regex.Lit "."%char)
             (Regex.Plus (Regex.Class not_space_at))))).

(** [static _isValidEmail(email) { return emailRegex.test(email); }] *)
Definition _isValidEmail (email : string) : bool :=
  Regex.test emailRegex email.

(** The syntactic form in the words of the specification: [local@domain.tld]
    with no whitespace, each of the three parts non-empty and free of
    whitespace and of further [@] signs. *)
Definition clean_part (s : string) : Prop :=
  s <> "" /\ Forall (fun c => not_space_at c = true) (list_ascii_of_string s).

Definition email_form (s : string) : Prop :=
  exists l d tld : string,
    s = l +:+ "@" +:+ d +:+ "." +:+ tld /\
    clean_part l /\ clean_part d /\ clean_part tld.

(* ================================================================== *)
(** ** JavaScript values *)
(* ================================================================== *)

#[local] Unset Elimination Schemes.
Inductive JsVal : Type :=
| JUndefined
| JNull
| JBool (b : bool)
| JNum (n : Z)
| JStr (s : string)
| JArr (elems : list JsVal)
| JObj (props : list (string * JsVal)).
#[local] Set Elimination Schemes.

(** An object, by its own enumerable properties in [Object.entries] order. *)
Abbreviation JsObj := (list (string * JsVal)).

Definition is_nullish (v : JsVal) : bool :=
  match v with JUndefined | JNull => true | _ => false end.

(** [ToBoolean]: what [if (v)], [!v], [v && ..] and [v || ..] test. *)
Definition truthy (v : JsVal) : bool :=
  match v with
  | JUndefined | JNull => false
  | JBool b => b
  | JNum n => negb (n =? 0)%Z
  | JStr s => negb (String.eqb s "")
  | JArr _ | JObj _ => true
  end.

Definition typeof (v : JsVal) : string :=
  match v with
  | JUndefined => "undefined"
  | JNull => "object"
  | JBool _ => "boolean"
  | JNum _ => "number"
  | JStr _ => "string"
  | JArr _ | JObj _ => "object"
  end.

(** [Array.isArray] *)
Definition isArray (v : JsVal) : bool :=
  match v with JArr _ => true | _ => false end.

(** [a === b] between a value held by the caller and a value read from a
    response: primitives compare by value, while an array or an object is
    only ever identical to itself, and the two sides are distinct
    allocations. *)
Definition strict_eq (a b : JsVal) : bool :=
  match a, b with
  | JUndefined, JUndefined => true
  | JNull, JNull => true
  | JBool x, JBool y => Bool.eqb x y
  | JNum x, JNum y => (x =? y)%Z
  | JStr x, JStr y => String.eqb x y
  | _, _ => false
  end.

(** Own-property lookup [o[k]] and the [k in o] test on an object. *)
Fixpoint lookup_prop {V : Type} (k : string) (o : list (string * V)) : option V :=
  match o with
  | [] => None
  | (k', v) :: rest => if String.eqb k k' then Some v else lookup_prop k rest
  end.

Definition has_prop {V : Type} (k : string) (o : list (string * V)) : bool :=
  match lookup_prop k o with Some _ => true | None => false end.

(** The names of the members that every object inherits from
    [Object.prototype].  A read [o[k]] that finds no own property [k] walks
    the prototype chain, and under one of these names it finds a built-in
    member: a function, or under [__proto__] the prototype itself.  Such a
    member is truthy, has none of the properties the service reads, and is
    identical to no value of the data. *)
Definition object_prototype_members : list string :=
  ["constructor"; "hasOwnProperty"; "isPrototypeOf"; "propertyIsEnumerable";
   "toLocaleString"; "toString"; "valueOf"; "__proto__";
   "__defineGetter__"; "__defineSetter__"; "__lookupGetter__"; "__lookupSetter__"].

Definition inherited (k : string) : bool :=
  existsb (String.eqb k) object_prototype_members.

(** A canonical array index written as a property key: ["0"], ["17"]. *)
Definition digit_of (c : ascii) : option nat :=
  let n := nat_of_ascii c in
  if ((48 <=? n) && (n <=? 57))%nat then Some (n - 48)%nat else None.

Fixpoint digits_value (acc : nat) (s : string) : option nat :=
  match s with
  | EmptyString => Some acc
  | String c s' =>
      match digit_of c with
      | Some d => digits_value (10 * acc + d) s'
      | None => None
      end
  end.

Definition index_of_key (k : string) : option nat :=
  match k with
  | EmptyString => None
  | String c rest =>
      if Ascii.eqb c "0"%char
      then (if String.eqb rest "" then Some 0%nat else None)
      else digits_value 0 k
  end.

(** Property read [v[k]] on a value that is neither [null] nor [undefined]:
    own properties of objects, elements and [length] of arrays and strings;
    anything else reads as [undefined]. *)
Definition js_get (v : JsVal) (k : string) : JsVal :=
  match v with
  | JObj props => match lookup_prop k props with Some x => x | None => JUndefined end
  | JArr elems =>
      if String.eqb k "length" then JNum (Z.of_nat (length elems))
      else match index_of_key k with
           | Some i => nth i elems JUndefined
           | None => JUndefined
           end
  | JStr s =>
      if String.eqb k "length" then JNum (Z.of_nat (String.length s))
      else match index_of_key k with
           | Some i => match String.get i s with
                       | Some c => JStr (String c EmptyString)
                       | None => JUndefined
                       end
           | None => JUndefined
           end
  | _ => JUndefined
  end.

(** Optional chaining [v?.k] and [v?.[k]]. *)
Definition js_get_opt (v : JsVal) (k : string) : JsVal :=
  if is_nullish v then JUndefined else js_get v k.

(** What a read [v?.[k]] yields when the caller chooses the key [k]: a value
    of the data, or a built-in member inherited from [Object.prototype].
    ([js_get] and [js_get_opt] serve the reads under the fixed keys of the
    service, none of which names an inherited member.) *)
Inductive Member : Type :=
| Data (v : JsVal)
| Builtin (name : string).

(** Own properties shadow the inherited ones; arrays, strings, numbers and
    booleans inherit the members of [Object.prototype] too (some of them
    overridden by built-ins of their own).  The further members that their
    own prototypes add ([map], [includes], ...) differ between engines and
    are left out: the read is exact on objects for every key, and on the
    other values for indices, [length] and the names above. *)
Definition member_opt (v : JsVal) (k : string) : Member :=
  match v with
  | JUndefined | JNull => Data JUndefined
  | JObj props =>
      match lookup_prop k props with
      | Some x => Data x
      | None => if inherited k then Builtin k else Data JUndefined
      end
  | _ => if inherited k then Builtin k else Data (js_get v k)
  end.

(** [current !== value] is [negb (member_is current value)]. *)
Definition member_is (current : Member) (value : JsVal) : bool :=
  match current with
  | Data x => strict_eq x value
  | Builtin _ => false
  end.

(** [current === null || current === undefined] *)
Definition member_nullish (current : Member) : bool :=
  match current with
  | Data x => is_nullish x
  | Builtin _ => false
  end.

(** [Array.prototype.join] on strings. *)
Fixpoint join (sep : string) (l : list string) : string :=
  match l with
  | [] => ""
  | [x] => x
  | x :: rest => x +:+ sep +:+ join sep rest
  end.

(** [ToString], as template literals and [join] apply it; an object prints
    through the inherited [Object.prototype.toString]. *)
Fixpoint js_toString (v : JsVal) : string :=
  match v with
  | JUndefined => "undefined"
  | JNull => "null"
  | JBool true => "true"
  | JBool false => "false"
  | JNum n => pretty n
  | JStr s => s
  | JArr elems =>
      join "," (List.map (fun x => if is_nullish x then "" else js_toString x) elems)
  | JObj _ => "[object Object]"
  end.

(* ================================================================== *)
(** ** Errors, requests and the remote service *)
(* ================================================================== *)

(** A thrown [Error]: its [message] and, on the rejections of the SendGrid
    client, the [response] it carries ([undefined] on errors the service
    itself constructs). *)
Record JsError : Type := mkJsError {
  message : string;
  response : JsVal
}.

(** [new Error(msg)] *)
Definition Error (msg : string) : JsError :=
  {| message := msg; response := JUndefined |}.

(** A [TypeError] raised by the language itself. *)
Definition TypeError (msg : string) : JsError :=
  {| message := msg; response := JUndefined |}.

(** The result of running a function body: [return v] or [throw e]. *)
Inductive Res (A : Type) : Type :=
| Returned (a : A)
| Threw (e : JsError).
Arguments Returned {A} a.
Arguments Threw {A} e.

(** [options.cc] and [options.bcc] of [sendSimpleEmail]: left out (or any
    falsy value), a truthy value that is not an array, or an array of
    address strings. *)
Inductive Recipients : Type :=
| RcptAbsent
| RcptNotArray
| RcptArray (emails : list string).

(** The message object handed to [sgMail.send]. *)
Record MailMsg : Type := mkMailMsg {
  msg_to : string;
  msg_from : string;
  msg_templateId : string;
  msg_dynamicTemplateData : JsObj;
  msg_cc : Recipients;
  msg_bcc : Recipients
}.

(** The two ways the service reaches SendGrid. *)
Inductive Req : Type :=
| ClientRequest (method url : string) (body : JsVal) (* sgClient.request({..}) *)
| MailSend (msg : MailMsg).                          (* sgMail.send(msg) *)

(** The response object a request resolves to (first component of the
    [[response, body]] pair of the client). *)
Record Response : Type := mkResponse {
  statusCode : Z;
  body : JsVal
}.

Inductive Outcome : Type :=
| Resolved (res : Response)
| Rejected (err : JsError).

(** An [async] computation: the interactions it performs, in order. *)
Inductive IO (A : Type) : Type :=
| Done (a : A)
| Await (r : Req) (k : Outcome -> IO A)   (* await a request *)
| Sleep (ms : Z) (k : IO A)               (* await new Promise(r => setTimeout(r, ms)) *)
| Now (k : Z -> IO A).                    (* Date.now() *)
Arguments Done {A} a.
Arguments Await {A} r k.
Arguments Sleep {A} ms k.
Arguments Now {A} k.

Fixpoint io_bind {A B : Type} (p : IO A) (f : A -> IO B) : IO B :=
  match p with
  | Done a => f a
  | Await r k => Await r (fun o => io_bind (k o) f)
  | Sleep ms k => Sleep ms (io_bind k f)
  | Now k => Now (fun t => io_bind (k t) f)
  end.

(** What an observer of the wire sees. *)
Inductive Event : Type :=
| EvRequest (r : Req) (o : Outcome)
| EvSleep (ms : Z)
| EvNow (t : Z).

(** The remote service and the clock: a state machine that answers each
    request, may change while the client waits, and tells the time. *)
Record Remote : Type := mkRemote {
  World : Type;
  serve : World -> Req -> Outcome * World;
  wait : Z -> World -> World;
  clock : World -> Z
}.

Fixpoint exec {A : Type} (R : Remote) (p : IO A) (w : World R)
  : A * World R * list Event :=
  match p with
  | Done a => (a, w, [])
  | Await r k =>
      let '(o, w1) := serve R w r in
      let '(a, w2, tr) := exec R (k o) w1 in
      (a, w2, EvRequest r o :: tr)
  | Sleep ms k =>
      let '(a, w1, tr) := exec R k (wait R ms w) in
      (a, w1, EvSleep ms :: tr)
  | Now k =>
      let '(a, w1, tr) := exec R (k (clock R w)) w in
      (a, w1, EvNow (clock R w) :: tr)
  end.

(* ================================================================== *)
(** ** The template registry (config/emailTemplatesMap.js) *)
(* ================================================================== *)

(** The fields of a template entry that the service reads.  The source
    guards against an entry without [customFieldTypes], hence the option. *)
Record Template : Type := mkTemplate {
  templateId : string;
  requiredFields : list string;
  customFieldTypes : option (list (string * string))
}.

Abbreviation Registry := (list (string * Template)).

Definition EmailTemplateMap : Registry :=
  [ ("new-order-email",
      {| templateId := "d-1234567890abcdef1234567890abcdef";
         requiredFields := ["order_id"; "user_name"; "items"];
         customFieldTypes :=
           Some [("order_id", "string"); ("user_name", "string"); ("items", "array")] |});
    ("password-reset",
      {| templateId := "d-abcdef1234567890abcdef1234567890";
         requiredFields := ["reset_link"; "user_email"];
         customFieldTypes :=
           Some [("reset_link", "url"); ("user_email", "email")] |});
    ("creator-broadcast",
      {| templateId := "d-broadcast00001234567890abc";
         requiredFields := ["creator_name"; "message_body"];
         customFieldTypes :=
           Some [("creator_name", "string"); ("message_body", "html")] |}) ].

(* ================================================================== *)
(** ** The service monad: static caches, exceptions, remote interactions *)
(* ================================================================== *)

(** [static templateCache], [static fieldMapCache], [static listCache] *)
Record Caches : Type := mkCaches {
  templateCache : option Registry;
  fieldMapCache : option (gmap string string);
  listCache : JsVal
}.

Definition initial_caches : Caches :=
  {| templateCache := None; fieldMapCache := None; listCache := JNull |}.

Definition M (A : Type) : Type := Caches -> IO (Res A * Caches).

Definition ret {A : Type} (a : A) : M A := fun c => Done (Returned a, c).

Definition throw {A : Type} (e : JsError) : M A := fun c => Done (Threw e, c).

Definition bind {A B : Type} (m : M A) (f : A -> M B) : M B :=
  fun c =>
    io_bind (m c) (fun rc =>
      match rc with
      | (Returned a, c') => f a c'
      | (Threw e, c') => Done (Threw e, c')
      end).

(** [try { m } catch (err) { h err }] *)
Definition try_catch {A : Type} (m : M A) (h : JsError -> M A) : M A :=
  fun c =>
    io_bind (m c) (fun rc =>
      match rc with
      | (Returned a, c') => Done (Returned a, c')
      | (Threw e, c') => h e c'
      end).

Definition lift {A : Type} (r : Res A) : M A := fun c => Done (r, c).

Definition get_caches : M Caches := fun c => Done (Returned c, c).

Definition put_caches (c' : Caches) : M unit := fun _ => Done (Returned tt, c').

(** [await sgClient.request(..)] / [await sgMail.send(..)]: a rejection is
    thrown at the [await]. *)
Definition request (r : Req) : M Response :=
  fun c =>
    Await r (fun o =>
      match o with
      | Resolved res => Done (Returned res, c)
      | Rejected err => Done (Threw err, c)
      end).

Definition sleep (ms : Z) : M unit := fun c => Sleep ms (Done (Returned tt, c)).

Definition now : M Z := fun c => Now (fun t => Done (Returned t, c)).

Declare Scope service_scope.
Delimit Scope service_scope with service.
Notation "'let*' x ':=' m 'in' k" := (bind m (fun x => k))
  (at level 10, x pattern, m at level 100, k at level 200) : service_scope.
Local Open Scope service_scope.

(** Running a service call against a remote. *)
Definition run {A : Type} (R : Remote) (m : M A) (c : Caches) (w : World R)
  : (Res A * Caches) * World R * list Event :=
  exec R (m c) w.

(** Member access [v.k] where [v] may be [null] or [undefined]. *)
Definition get_member (v : JsVal) (k : string) : M JsVal :=
  if is_nullish v
  then throw (TypeError ("Cannot read properties of undefined (reading '" +:+ k +:+ "')"))
  else ret (js_get v k).

(** [Array.prototype.join] on values: [null] and [undefined] print empty. *)
Definition join_values (sep : string) (l : list JsVal) : string :=
  join sep (List.map (fun x => if is_nullish x then "" else js_toString x) l).

(** [errs.map((e) => e.message)] *)
Fixpoint messages_of (errs : list JsVal) : Res (list JsVal) :=
  match errs with
  | [] => Returned []
  | e :: rest =>
      if is_nullish e
      then Threw (TypeError "Cannot read properties of undefined (reading 'message')")
      else match messages_of rest with
           | Returned ms => Returned (js_get e "message" :: ms)
           | Threw t => Threw t
           end
  end.

(** [err.response?.body?.errors?.map((e) => e.message).join("; ") || fallback] *)
Definition remote_messages_or (err : JsError) (fallback : string) : Res string :=
  let errors := js_get_opt (js_get_opt (response err) "body") "errors" in
  if is_nullish errors then Returned fallback
  else match errors with
       | JArr errs =>
           match messages_of errs with
           | Returned ms =>
               let joined := join_values "; " ms in
               Returned (if String.eqb joined "" then fallback else joined)
           | Threw t => Threw t
           end
       | _ => Threw (TypeError "err.response?.body?.errors?.map is not a function")
       end.

(* ================================================================== *)
(** ** class TwilioSendGrid *)
(* ================================================================== *)

Section TwilioSendGrid.

(** [require("../config/emailTemplatesMap.js")] and
    [parseInt(process.env.SENDGRID_SENDER_ID)]. *)
Variable EMAIL_TEMPLATE_MAP : Registry.
Variable SENDGRID_SENDER_ID : Z.

(* ---------------------------------------------------------------- *)
(** *** Mapping *)

Definition loadEmailTemplateConfig : M Registry :=
  let* c := get_caches in
  match templateCache c with
  | None =>
      let* _ := put_caches
        {| templateCache := Some EMAIL_TEMPLATE_MAP;
           fieldMapCache := fieldMapCache c;
           listCache := listCache c |} in
      ret EMAIL_TEMPLATE_MAP
  | Some cached => ret cached
  end.

(** The body of the [reduce] callback: one template merged into [acc]. *)
Definition mergeTemplate (acc : gmap string string) (t : Template)
  : Res (gmap string string) :=
  match customFieldTypes t with
  | None =>
      Threw (Error ("Missing customFieldTypes in template config for "
                    +:+ templateId t))
  | Some types =>
      Returned (fold_left (fun a kv => <[kv.1 := kv.2]> a) types acc)
  end.

(** [Object.values(map).reduce(.., {})] *)
Fixpoint mergeTemplates (acc : gmap string string) (ts : list Template)
  : Res (gmap string string) :=
  match ts with
  | [] => Returned acc
  | t :: rest =>
      match mergeTemplate acc t with
      | Returned acc' => mergeTemplates acc' rest
      | Threw e => Threw e
      end
  end.

Definition buildFieldTypeFromEmailTemplateConfig : M (gmap string string) :=
  let* c := get_caches in
  match fieldMapCache c with
  | Some cached => ret cached
  | None =>
      let* map := loadEmailTemplateConfig in
      let* built := lift (mergeTemplates ∅ (List.map snd map)) in
      let* c1 := get_caches in
      let* _ := put_caches
        {| templateCache := templateCache c1;
           fieldMapCache := Some built;
           listCache := listCache c1 |} in
      ret built
  end.

(* ---------------------------------------------------------------- *)
(** *** Utilities *)

Definition _formatListNameForSender (senderId : string) : string :=
  "sender_" +:+ senderId +:+ "_list".

(** [err.response?.statusCode === 429] *)
Definition isRateLimit (err : JsError) : bool :=
  strict_eq (js_get_opt (response err) "statusCode") (JNum 429).

(** The [for] loop of [_withRetry] from a given [attempt] on.  [fuel]
    bounds the iterations left; [_withRetry] supplies as many as the loop
    can make, so the loop always leaves through its own condition. *)
Fixpoint retry_loop {A : Type} (fn : M A) (retries delay maxDelay : Z)
  (fuel : nat) (attempt : Z) : M (option A) :=
  match fuel with
  | O => ret None
  | S fuel' =>
      if (attempt <=? retries)%Z
      then
        try_catch (let* x := fn in ret (Some x))
          (fun err =>
             if negb (isRateLimit err) || (attempt =? retries)%Z
             then throw err
             else
               let waitTime := Z.min (delay * attempt) maxDelay in
               let* _ := sleep waitTime in
               retry_loop fn retries delay maxDelay fuel' (attempt + 1)%Z)
      else ret None
  end.

(** [static async _withRetry(fn, retries = 3, delay = 500, maxDelay = 3000)];
    an argument left out is [None].  Falling out of the loop returns
    [undefined], here [None]. *)
Definition _withRetry {A : Type} (fn : M A)
  (retries delay maxDelay : option Z) : M (option A) :=
  let retries := default 3%Z retries in
  let delay := default 500%Z delay in
  let maxDelay := default 3000%Z maxDelay in
  retry_loop fn retries delay maxDelay (Z.to_nat retries) 1%Z.

(** [const [res] = await ..]: destructuring the awaited value. *)
Definition destructure_first {A : Type} (r : option A) : M A :=
  match r with
  | Some res => ret res
  | None => throw (TypeError "undefined is not iterable")
  end.

Definition GET_lists : Req := ClientRequest "GET" "/v3/marketing/lists" JUndefined.

Definition POST_list (listName : string) : Req :=
  ClientRequest "POST" "/v3/marketing/lists" (JObj [("name", JStr listName)]).

Definition fetchAllSenderLists (force : bool) : M JsVal :=
  let* c := get_caches in
  if truthy (listCache c) && negb force then ret (listCache c)
  else
    let* r := _withRetry (request GET_lists) None None None in
    let* res := destructure_first r in
    let* result := get_member (body res) "result" in
    let* c1 := get_caches in
    let* _ := put_caches
      {| templateCache := templateCache c1;
         fieldMapCache := fieldMapCache c1;
         listCache := result |} in
    ret result.

(** [lists.find((l) => l.name === listName)] *)
Fixpoint find_named (listName : string) (elems : list JsVal) : Res JsVal :=
  match elems with
  | [] => Returned JUndefined
  | l :: rest =>
      if is_nullish l
      then Threw (TypeError "Cannot read properties of undefined (reading 'name')")
      else if strict_eq (js_get l "name") (JStr listName) then Returned l
      else find_named listName rest
  end.

Definition find_by_name (lists : JsVal) (listName : string) : Res JsVal :=
  match lists with
  | JArr elems => find_named listName elems
  | JUndefined | JNull =>
      Threw (TypeError "Cannot read properties of undefined (reading 'find')")
  | _ => Threw (TypeError "lists.find is not a function")
  end.

Definition ensureListExistsByName (listName : string) : M JsVal :=
  let* lists := fetchAllSenderLists true in
  let* list := lift (find_by_name lists listName) in
  if negb (truthy list)
  then
    let* _ := _withRetry (request (POST_list listName)) None None None in
    let* _ := sleep 1000 in
    let* newLists := fetchAllSenderLists true in
    let* list' := lift (find_by_name newLists listName) in
    if negb (truthy list')
    then throw (Error ("List creation failed after retry: " +:+ listName))
    else ret list'
  else ret list.

(** The [poll] closure of [ensureSenderListExists]. *)
Definition poll (listName : string) : M JsVal :=
  let* lists := fetchAllSenderLists true in
  let* verified := lift (find_by_name lists listName) in
  if negb (truthy verified)
  then throw (Error "List not yet verified")
  else ret verified.

Definition ensureSenderListExists (senderId : string) : M JsVal :=
  let listName := _formatListNameForSender senderId in
  let* list := ensureListExistsByName listName in
  try_catch
    (let* r := _withRetry (poll listName) (Some 5%Z) (Some 500%Z) (Some 1000%Z) in
     ret (match r with Some verified => verified | None => JUndefined end))
    (fun _ => throw (Error ("List creation failed: " +:+ listName))).

(* ---------------------------------------------------------------- *)
(** *** Send Emails *)

Record SimpleEmailOptions : Type := mkSimpleEmailOptions {
  to : string;
  from : string;
  templateKey : string;
  dynamicTemplateData : JsObj;
  cc : Recipients;
  bcc : Recipients
}.

(** [list && (!Array.isArray(list)
             || list.some((email) => !this._isValidEmail(email)))] *)
Definition invalid_recipients (list : Recipients) : bool :=
  match list with
  | RcptAbsent => false
  | RcptNotArray => true
  | RcptArray emails => existsb (fun email => negb (_isValidEmail email)) emails
  end.

(** [requiredFields.filter((field) => !(field in dynamicTemplateData))]; the
    field names are those of the registry, which are taken not to name a
    member of [Object.prototype] (the [in] test would find it). *)
Definition missing_fields (requiredFields : list string) (data : JsObj)
  : list string :=
  List.filter (fun field => negb (has_prop field data)) requiredFields.

(** One turn of the loop over [Object.entries(dynamicTemplateData)]:
    [None] when the turn ends or [continue]s, the error when it throws.
    Under a field name that [customFieldTypes] only inherits, [expected] is
    a built-in member, which equals none of the three type names: the turn
    ends as it does without a declaration. *)
Definition check_field_type (types : list (string * string))
  (field : string) (value : JsVal) : option JsError :=
  match lookup_prop field types with
  | None => None                                   (* if (!expected) continue *)
  | Some expected =>
      if String.eqb expected "" then None          (* an empty type is falsy *)
      else match value with
           | JNull => None                         (* if (value === null) continue *)
           | _ =>
               if String.eqb expected "string"
                  && negb (String.eqb (typeof value) "string")
               then Some (Error ("Invalid type for " +:+ field
                                 +:+ ": expected string"))
               else if String.eqb expected "boolean"
                       && negb (String.eqb (typeof value) "boolean")
               then Some (Error ("Invalid type for " +:+ field
                                 +:+ ": expected boolean"))
               else if String.eqb expected "array" && negb (isArray value)
               then Some (Error ("Invalid type for " +:+ field
                                 +:+ ": expected array"))
               else None
           end
  end.

(** [for (const [field, value] of Object.entries(dynamicTemplateData)) { .. }];
    reading a field of a missing [customFieldTypes] is a [TypeError]. *)
Fixpoint check_field_types (types : option (list (string * string)))
  (entries : JsObj) : Res unit :=
  match entries with
  | [] => Returned tt
  | (field, value) :: rest =>
      match types with
      | None =>
          Threw (TypeError ("Cannot read properties of undefined (reading '"
                            +:+ field +:+ "')"))
      | Some ts =>
          match check_field_type ts field value with
          | Some err => Threw err
          | None => check_field_types types rest
          end
      end
  end.

Definition sendSimpleEmail (options : SimpleEmailOptions) : M Response :=
  if negb (_isValidEmail (to options))
  then throw (Error ("Invalid recipient email: " +:+ to options))
  else if negb (_isValidEmail (from options))
  then throw (Error ("Invalid sender email: " +:+ from options))
  else if invalid_recipients (cc options)
  then throw (Error "Invalid CC email list")
  else if invalid_recipients (bcc options)
  then throw (Error "Invalid BCC email list")
  else
    let* config := loadEmailTemplateConfig in
    match lookup_prop (templateKey options) config with
    | None =>
        (* [config[templateKey]] is [undefined], or an inherited member, which
           is truthy and has no [requiredFields] to filter *)
        if inherited (templateKey options)
        then throw (TypeError
                      "Cannot read properties of undefined (reading 'filter')")
        else throw (Error ("Unknown templateKey: " +:+ templateKey options))
    | Some template =>
        let missingFields :=
          missing_fields (requiredFields template) (dynamicTemplateData options) in
        if negb (length missingFields =? 0)%nat
        then throw (Error ("Missing required template fields: "
                           +:+ join ", " missingFields))
        else
          let* _ := lift (check_field_types (customFieldTypes template)
                            (dynamicTemplateData options)) in
          let msg :=
            {| msg_to := to options;
               msg_from := from options;
               msg_templateId := templateId template;
               msg_dynamicTemplateData := dynamicTemplateData options;
               msg_cc := cc options;
               msg_bcc := bcc options |} in
          try_catch (request (MailSend msg))
            (fun err => throw (Error ("Failed to send email: " +:+ message err)))
    end.

Record CampaignOptions : Type := mkCampaignOptions {
  listId : string;
  tag : string;
  campaignTemplateKey : string;
  dynamicData : JsObj;
  sendAt : JsVal
}.

Definition POST_segment (segmentName listId tag : string) : Req :=
  ClientRequest "POST" "/v3/marketing/segments"
    (JObj [("name", JStr segmentName);
           ("list_ids", JArr [JStr listId]);
           ("conditions",
             JArr [JObj [("field", JStr ("custom_fields." +:+ tag));
                         ("operator", JStr "equals");
                         ("value", JBool true)]])]).

(** The single-send request; [template_id] is whatever
    [config[templateKey].templateId] evaluates to. *)
Definition POST_singlesend_with (name : string) (segmentId template_id : JsVal)
  : Req :=
  ClientRequest "POST" "/v3/marketing/singlesends"
    (JObj [("name", JStr name);
           ("send_to", JObj [("segment_ids", JArr [segmentId])]);
           ("email_config",
             JObj [("sender_id", JNum SENDGRID_SENDER_ID);
                   ("template_id", template_id)])]).

(** The single-send request for a template of the registry. *)
Definition POST_singlesend (name : string) (segmentId : JsVal)
  (template_id : string) : Req :=
  POST_singlesend_with name segmentId (JStr template_id).

Definition POST_schedule (campaignId : string) (sendAt : JsVal) : Req :=
  ClientRequest "POST" ("/v3/marketing/singlesends/" +:+ campaignId +:+ "/schedule")
    (JObj [("send_at", if truthy sendAt then sendAt else JStr "now")]).

(** The result object [{ campaignId, segmentId }]. *)
Definition sendCampaignEmail (options : CampaignOptions) : M JsVal :=
  let senderId := js_toString (js_get (JObj (dynamicData options)) "senderId") in
  let segmentName :=
    "segment_" +:+ listId options +:+ "_" +:+ tag options
    +:+ "__sender_" +:+ senderId in
  let* customFieldMapping := buildFieldTypeFromEmailTemplateConfig in
  let tagType := customFieldMapping !! tag options in
  (* [!tagType]: an own type is falsy when empty; without an own property
     the read yields [undefined], or an inherited member, which is truthy *)
  if match tagType with
     | Some ty => String.eqb ty ""
     | None => negb (inherited (tag options))
     end
  then throw (Error ("Invalid tag: " +:+ tag options))
  else
    let* segmentId :=
      try_catch
        (let* segmentRes :=
           request (POST_segment segmentName (listId options) (tag options)) in
         get_member (body segmentRes) "id")
        (fun err =>
           let* detail := lift (remote_messages_or err (message err)) in
           throw (Error ("Failed to create segment: " +:+ detail))) in
    let* t := now in
    let name := "Campaign_" +:+ campaignTemplateKey options +:+ "_" +:+ pretty t in
    let* config := loadEmailTemplateConfig in
    (* [config[templateKey].templateId]: an inherited member has no
       [templateId], so the read yields [undefined] *)
    let* template_id :=
      match lookup_prop (campaignTemplateKey options) config with
      | Some template => ret (JStr (templateId template))
      | None =>
          if inherited (campaignTemplateKey options) then ret JUndefined
          else throw (TypeError
                        "Cannot read properties of undefined (reading 'templateId')")
      end in
    let* campaignRes := request (POST_singlesend_with name segmentId template_id) in
    let* campaignId := get_member (body campaignRes) "id" in
    let* _ := request (POST_schedule (js_toString campaignId) (sendAt options)) in
    ret (JObj [("campaignId", campaignId); ("segmentId", segmentId)]).

(* ---------------------------------------------------------------- *)
(** *** Subscribe, Unsubscribe *)

(** [Object.fromEntries(Object.keys(customFields).map((key) => [key, null]))] *)
Definition cleared (customFields : JsObj) : JsObj :=
  List.map (fun kv => (kv.1, JNull)) customFields.

Definition upsert_payload (email listId : string) (customFields : JsObj)
  (subscribe : bool) : JsVal :=
  JObj [("contacts",
          JArr [JObj [("email", JStr email);
                      ("list_ids",
                        if subscribe then JArr [JStr listId] else JUndefined);
                      ("custom_fields",
                        JObj (if subscribe then customFields
                              else cleared customFields))]])].

Definition PUT_contacts (payload : JsVal) : Req :=
  ClientRequest "PUT" "/v3/marketing/contacts" payload.

Definition POST_contact_search (email : string) : Req :=
  ClientRequest "POST" "/v3/marketing/contacts/search"
    (JObj [("query", JStr ("email = '" +:+ email +:+ "'"))]).

(** The stored value of a field: the data under the contact's own
    [custom_fields], [undefined] when there is none. *)
Definition current_value (contact : JsVal) (field : string) : JsVal :=
  js_get_opt (js_get contact "custom_fields") field.

(** The read [contact.custom_fields?.[field]] of the verification loop, the
    key being the caller's: the stored value, or an inherited member when
    the contact stores nothing under a name of [Object.prototype]. *)
Definition current_member (contact : JsVal) (field : string) : Member :=
  member_opt (js_get contact "custom_fields") field.

(** The verification loop over [Object.entries(customFields)]. *)
Fixpoint verify_fields (contact : JsVal) (subscribe : bool)
  (entries : JsObj) : Res unit :=
  match entries with
  | [] => Returned tt
  | (field, value) :: rest =>
      let current := current_member contact field in
      if subscribe && negb (member_is current value)
      then Threw (Error ("Field '" +:+ field +:+ "' was not set to '"
                         +:+ js_toString value +:+ "'"))
      else if negb subscribe && negb (member_nullish current)
      then Threw (Error ("Field '" +:+ field +:+ "' was not cleared"))
      else verify_fields contact subscribe rest
  end.

(** [customFields = {}] is the default of a parameter left out ([None]). *)
Definition subscribeOrUnsubscribeRecipientFromSenderListByTag
  (email listId : string) (customFields : option JsObj) (subscribe : bool)
  : M JsVal :=
  let customFields := default [] customFields in
  if negb (_isValidEmail email)
  then throw (Error ("Invalid email format: " +:+ email))
  else
    let payload := upsert_payload email listId customFields subscribe in
    try_catch
      (let* res := request (PUT_contacts payload) in
       let* checkRes := request (POST_contact_search email) in
       let* result := get_member (body checkRes) "result" in
       let contact := js_get_opt result "0" in
       if negb (truthy contact)
       then throw (Error "Contact not found after update.")
       else
         let* _ := lift (verify_fields contact subscribe customFields) in
         ret (body res))
      (fun err =>
         let* detail :=
           lift (remote_messages_or err "Failed to update recipient fields") in
         throw (Error detail)).

(** [static resetInternalCache()] *)
Definition resetInternalCache : M unit := put_caches initial_caches.

End TwilioSendGrid.

(* ================================================================== *)
(** ** A scripted remote, for concrete runs *)
(* ================================================================== *)

(** The remote answers the requests with the outcomes of a script, in
    order, whatever the request; once the script is used up every request is
    rejected.  Time stands still. *)
Definition scripted : Remote :=
  {| World := list Outcome;
     serve := fun w _ =>
       match w with
       | o :: rest => (o, rest)
       | [] => (Rejected (Error "socket hang up"), [])
       end;
     wait := fun _ w => w;
     clock := fun _ => 0%Z |}.

Definition ok (b : JsVal) : Outcome := Resolved {| statusCode := 200; body := b |}.

Definition accepted : Outcome := Resolved {| statusCode := 202; body := JStr "" |}.

(** A rejection carrying [response.statusCode = 429]. *)
Definition rate_limited : Outcome :=
  Rejected {| message := "Too Many Requests";
              response := JObj [("statusCode", JNum 429)] |}.

Definition roster (lists : list JsVal) : Outcome :=
  ok (JObj [("result", JArr lists)]).

Definition sender_list (id name : string) : JsVal :=
  JObj [("id", JStr id); ("name", JStr name)].

(** A computation that ends at once, without any interaction. *)
Definition immediate {A : Type} (p : IO (Res A * Caches)) (r : Res A) (c : Caches)
  : Prop := p = Done (r, c).

(* ================================================================== *)
(** ** Vocabulary of the properties *)
(* ================================================================== *)

(** The states of the static caches that the class can be in: a cache is
    either empty or holds what its loader computes from the registry. *)
Definition coherent (REG : Registry) (c : Caches) : Prop :=
  (templateCache c = None \/ templateCache c = Some REG) /\
  (forall m, fieldMapCache c = Some m ->
             mergeTemplates ∅ (List.map snd REG) = Returned m).

(** The address checks at the head of [sendSimpleEmail]. *)
Definition addresses_pass (options : SimpleEmailOptions) : bool :=
  _isValidEmail (to options) && _isValidEmail (from options)
  && negb (invalid_recipients (cc options))
  && negb (invalid_recipients (bcc options)).

(** A property of every outcome a computation can end with, whatever the
    remote answers. *)
Fixpoint leaves {A : Type} (P : A -> Prop) (p : IO A) : Prop :=
  match p with
  | Done a => P a
  | Await _ k => forall o, leaves P (k o)
  | Sleep _ k => leaves P k
  | Now k => forall t, leaves P (k t)
  end.

(** A service call that takes coherent caches to coherent caches. *)
Definition keeps_coherent (REG : Registry) {A : Type} (m : M A) : Prop :=
  forall c, coherent REG c -> leaves (fun rc => coherent REG rc.2) (m c).

(** A property key that an object does not have. *)
Definition absent (field : string) (data : JsObj) : Prop :=
  forall v, ~ In (field, v) data.


(** A runtime value that does not have the declared type. *)
Definition type_mismatch (expected : string) (value : JsVal) : Prop :=
  (expected = "string" /\ typeof value <> "string") \/
  (expected = "boolean" /\ typeof value <> "boolean") \/
  (expected = "array" /\ isArray value = false).


(** A tag that no template of the registry declares in its
    [customFieldTypes]. *)
Definition undeclared_tag (REG : Registry) (tag : string) : Prop :=
  forall key t types,
    In (key, t) REG -> customFieldTypes t = Some types ->
    lookup_prop tag types = None.

(* ================================================================== *)
(** ** Sample inputs *)
(* ================================================================== *)

Definition new_order_template : Template :=
  {| templateId := "d-1234567890abcdef1234567890abcdef";
     requiredFields := ["order_id"; "user_name"; "items"];
     customFieldTypes :=
       Some [("order_id", "string"); ("user_name", "string"); ("items", "array")] |}.

Definition password_reset_template : Template :=
  {| templateId := "d-abcdef1234567890abcdef1234567890";
     requiredFields := ["reset_link"; "user_email"];
     customFieldTypes := Some [("reset_link", "url"); ("user_email", "email")] |}.

(** The call of test/localTest.js with only [user_name] supplied. *)
Definition order_without_items : SimpleEmailOptions :=
  {| to := "recipient@example.com";
     from := "verified_sender@example.com";
     templateKey := "new-order-email";
     dynamicTemplateData := [("user_name", JStr "Ali Bhatti")];
     cc := RcptAbsent;
     bcc := RcptAbsent |}.

(** The same call with a recipient that is no address. *)
Definition order_to_bad_address : SimpleEmailOptions :=
  {| to := "not-an-email";
     from := "verified_sender@example.com";
     templateKey := "new-order-email";
     dynamicTemplateData := [("user_name", JStr "Ali Bhatti")];
     cc := RcptAbsent;
     bcc := RcptAbsent |}.

(** An order whose [user_name] and [items] hold arbitrary values. *)
Definition order_with (user_name items : JsVal) : SimpleEmailOptions :=
  {| to := "recipient@example.com";
     from := "verified_sender@example.com";
     templateKey := "new-order-email";
     dynamicTemplateData :=
       [("order_id", JStr "12345"); ("user_name", user_name); ("items", items)];
     cc := RcptAbsent;
     bcc := RcptAbsent |}.


(** The message [sendSimpleEmail] builds once validation has passed. *)
Definition message_of (options : SimpleEmailOptions) (template : Template) : MailMsg :=
  {| msg_to := to options;
     msg_from := from options;
     msg_templateId := templateId template;
     msg_dynamicTemplateData := dynamicTemplateData options;
     msg_cc := cc options;
     msg_bcc := bcc options |}.

(** C6 as it is stated: a call that lacks a required field of its template
    fails with the message that lists the missing fields. *)
Definition reports_missing_fields (REG : Registry) (options : SimpleEmailOptions)
  (c : Caches) : Prop :=
  forall template,
    lookup_prop (templateKey options) REG = Some template ->
    (exists field, In field (requiredFields template) /\
                   absent field (dynamicTemplateData options)) ->
    exists c',
      sendSimpleEmail REG options c
      = Done (Threw (Error ("Missing required template fields: "
                            +:+ join ", "
                                  (missing_fields (requiredFields template)
                                     (dynamicTemplateData options)))), c').

(** A campaign on a declared tag whose template key is not in the registry. *)
Definition campaign_unknown_template : CampaignOptions :=
  {| listId := "L1";
     tag := "order_id";
     campaignTemplateKey := "no-such-template";
     dynamicData := [("senderId", JStr "123")];
     sendAt := JUndefined |}.

(** A campaign on a tag that no template declares and that names a member
    of [Object.prototype]. *)
Definition campaign_constructor_tag : CampaignOptions :=
  {| listId := "L1";
     tag := "constructor";
     campaignTemplateKey := "creator-broadcast";
     dynamicData := [("senderId", JStr "123")];
     sendAt := JUndefined |}.

(** The campaign of test/twilioSendGrid.test.js. *)
Definition campaign_weekly_newsletter : CampaignOptions :=
  {| listId := "L1";
     tag := "weekly_newsletter";
     campaignTemplateKey := "creator-broadcast";
     dynamicData := [("senderId", JStr "123")];
     sendAt := JStr "now" |}.

(* ================================================================== *)
(** ** The retry policy, in the words of the specification *)
(* ================================================================== *)

(** The failure carries HTTP status 429. *)
Definition carries_429 (err : JsError) : Prop :=
  js_get_opt (response err) "statusCode" = JNum 429.

Section RetryPolicy.

Context {A : Type}.
Variable R : Remote.
Variable fn : M A.
Variables n d m : Z.   (* retry count, initial delay, maximum delay *)

(** [Retries k c w rc w' tr]: from attempt number [k] on, with caches [c]
    and the remote in state [w], the helper ends with [rc], leaves the
    remote in [w'] and has produced the events [tr]. *)
Inductive Retries :
  Z -> Caches -> World R -> Res (option A) * Caches -> World R -> list Event -> Prop :=
| retries_none k c w :
    (* no attempt is left to make *)
    (n < k)%Z ->
    Retries k c w (Returned None, c) w []
| retries_success k c w x c1 w1 t1 :
    (k <= n)%Z ->
    run R fn c w = ((Returned x, c1), w1, t1) ->
    Retries k c w (Returned (Some x), c1) w1 t1
| retries_other_failure k c w e c1 w1 t1 :
    (* a failure that is not a 429 propagates at once *)
    (k <= n)%Z ->
    run R fn c w = ((Threw e, c1), w1, t1) ->
    ~ carries_429 e ->
    Retries k c w (Threw e, c1) w1 t1
| retries_last_attempt k c w e c1 w1 t1 :
    (* a 429 on the final attempt propagates at once *)
    k = n ->
    run R fn c w = ((Threw e, c1), w1, t1) ->
    carries_429 e ->
    Retries k c w (Threw e, c1) w1 t1
| retries_again k c w e c1 w1 t1 rc w2 t2 :
    (* a 429 with attempts left: wait min(d * k, m), then try again *)
    (k < n)%Z ->
    run R fn c w = ((Threw e, c1), w1, t1) ->
    carries_429 e ->
    Retries (k + 1)%Z c1 (wait R (Z.min (d * k) m) w1) rc w2 t2 ->
    Retries k c w rc w2 (t1 ++ EvSleep (Z.min (d * k) m) :: t2).

End RetryPolicy.

(* ================================================================== *)
(** ** Observations on traces *)
(* ================================================================== *)

Definition is_request (ev : Event) : bool :=
  match ev with EvRequest _ _ => true | _ => false end.

Definition is_resolved_request (ev : Event) : bool :=
  match ev with EvRequest _ (Resolved _) => true | _ => false end.

(** A request that creates a list: [POST /v3/marketing/lists]. *)
Definition is_create (r : Req) : bool :=
  match r with
  | ClientRequest method url _ =>
      String.eqb method "POST" && String.eqb url "/v3/marketing/lists"
  | MailSend _ => false
  end.

Definition is_create_request (ev : Event) : bool :=
  match ev with EvRequest r _ => is_create r | _ => false end.

Definition is_accepted_create (ev : Event) : bool :=
  match ev with EvRequest r (Resolved _) => is_create r | _ => false end.

Definition count_events (p : Event -> bool) (tr : list Event) : nat :=
  length (List.filter p tr).

Definition create_requests (tr : list Event) : nat :=
  count_events is_create_request tr.

Definition accepted_creates (tr : list Event) : nat :=
  count_events is_accepted_create tr.

(** A request that the remote rejected with [response.statusCode] 429, the
    rejection after which the retry helper sends the request again. *)
Definition is_throttled (ev : Event) : bool :=
  match ev with
  | EvRequest _ (Rejected err) => isRateLimit err
  | _ => false
  end.

Definition is_throttled_create (ev : Event) : bool :=
  match ev with
  | EvRequest r (Rejected err) => is_create r && isRateLimit err
  | _ => false
  end.

Definition throttled_creates (tr : list Event) : nat :=
  count_events is_throttled_create tr.

(** Every event of the trace is a wait or a request [r]. *)
Definition only_request (r : Req) (tr : list Event) : Prop :=
  Forall (fun ev => match ev with
                    | EvRequest r' _ => r' = r
                    | EvSleep _ => True
                    | EvNow _ => False
                    end) tr.

(** The list of sender "123" and the answers of a remote on which that list
    is created, shows up, and is then missing from the next roster read. *)
Definition list_123 : JsVal := sender_list "L1" "sender_123_list".

Definition flapping_roster : list Outcome :=
  [roster []; ok JNull; roster [list_123]; roster []; roster [list_123]].

(** The answers of a remote whose roster lags behind its writes: the list is
    created and shows up in the read that follows, but the read that opens
    the next call does not show it yet. *)
Definition lagging_roster : list Outcome :=
  [roster []; ok JNull; roster [list_123];
   roster []; ok JNull; roster [list_123]].

(** The answers of a remote on which the list is created and stays visible. *)
Definition created_then_listed : list Outcome :=
  [roster []; ok JNull; roster [list_123]; roster [list_123]].

(** The answers of a remote that rate-limits the first create request. *)
Definition throttled_create : list Outcome :=
  [roster []; rate_limited; ok JNull; roster [list_123]; roster [list_123]].

(** C5 as it is stated: two calls in a row issue at most one create request
    and return the same list. *)
Definition twice_at_most_one_create (R : Remote) (listName : string)
  (c : Caches) (w : World R) : Prop :=
  let '((r1, c1), w1, t1) := run R (ensureListExistsByName listName) c w in
  let '((r2, _), _, t2) := run R (ensureListExistsByName listName) c1 w1 in
  (create_requests (t1 ++ t2) <= 1)%nat /\
  exists l, r1 = Returned l /\ r2 = Returned l.

(* ================================================================== *)
(** ** Vocabulary of the subscription check *)
(* ================================================================== *)

(** The contact a search response shows first, if any. *)
Definition found_contact (checkRes : Response) : JsVal :=
  js_get_opt (js_get_opt (body checkRes) "result") "0".

(** A custom field holds what the call expects: the given value when
    subscribing, nothing when unsubscribing. *)
Definition holds_expected (contact : JsVal) (subscribe : bool)
  (field : string) (value : JsVal) : bool :=
  if subscribe
  then strict_eq (current_value contact field) value
  else is_nullish (current_value contact field).

(** An upsert: [PUT /v3/marketing/contacts]. *)
Definition is_upsert_request (ev : Event) : bool :=
  match ev with
  | EvRequest (ClientRequest method url _) _ =>
      String.eqb method "PUT" && String.eqb url "/v3/marketing/contacts"
  | _ => false
  end.

Definition upsert_requests (tr : list Event) : nat :=
  count_events is_upsert_request tr.

(** What the [catch] block of the subscription call throws for [err]. *)
Definition update_failure (err : JsError) : Res JsVal :=
  match remote_messages_or err "Failed to update recipient fields" with
  | Returned detail => Threw (Error detail)
  | Threw t => Threw t
  end.

(** The verification read of [field] finds no stored value but a member
    that the contact's [custom_fields] inherits from [Object.prototype]. *)
Definition reads_builtin (contact : JsVal) (field : string) : bool :=
  match current_member contact field with
  | Builtin _ => true
  | Data _ => false
  end.

(** The contact's [custom_fields] is an object, or is missing. *)
Definition plain_fields (contact : JsVal) : bool :=
  match js_get contact "custom_fields" with
  | JObj _ | JUndefined | JNull => true
  | _ => false
  end.

(** The outcome of the verification, once both requests have resolved. *)
Definition verification_outcome (res checkRes : Response) (subscribe : bool)
  (customFields : JsObj) : Res JsVal :=
  if truthy (found_contact checkRes)
  then match verify_fields (found_contact checkRes) subscribe customFields with
       | Returned _ => Returned (body res)
       | Threw _ => Threw (Error "Failed to update recipient fields")
       end
  else Threw (Error "Failed to update recipient fields").

(** C4 as it is stated, for one call: exactly one upsert request goes out. *)
Definition issues_one_upsert (R : Remote) (email listId : string)
  (customFields : JsObj) (subscribe : bool) (c : Caches) (w : World R) : Prop :=
  let '(_, _, tr) :=
    run R (subscribeOrUnsubscribeRecipientFromSenderListByTag
             email listId (Some customFields) subscribe) c w in
  upsert_requests tr = 1%nat.

(** The subscription of test/twilioSendGrid.test.js. *)
Definition weekly_newsletter_on : JsObj := [("weekly_newsletter", JBool true)].

Definition contact_with (fields : JsObj) : Outcome :=
  ok (JObj [("result",
             JArr [JObj [("id", JStr "c-1");
                         ("email", JStr "test@example.com");
                         ("custom_fields", JObj fields)]])]).

(* ================================================================== *)
(** ** class TwilioSendGrid: the remaining operations *)
(* ================================================================== *)

(** The operations below use neither the template registry nor the sender
    id of the environment.  [console.error] and [console.warn] write to the
    log of the process, which the interaction trees do not record. *)

(* ------------------------------------------------------------------ *)
(** *** Remove *)

Definition PUT_remove_from_lists (contactId : JsVal) : Req :=
  ClientRequest "PUT" "/v3/marketing/contacts"
    (JObj [("contacts",
            JArr [JObj [("id", contactId); ("list_ids", JArr [])]])]).

(** The result object [{ removed: true }]. *)
Definition removeRecipientFromAllSenderLists (email : string) : M JsVal :=
  if negb (_isValidEmail email)
  then throw (Error ("Invalid email format: " +:+ email))
  else
    let* contactRes := request (POST_contact_search email) in
    let* result := get_member (body contactRes) "result" in
    let contact := js_get_opt result "0" in
    if negb (truthy contact)
    then throw (Error ("Recipient not found for removal: " +:+ email))
    else
      let* _ := request (PUT_remove_from_lists (js_get contact "id")) in
      ret (JObj [("removed", JBool true)]).

(* ------------------------------------------------------------------ *)
(** *** Filtering and querying recipients *)

Definition GET_contacts (listId : string) : Req :=
  ClientRequest "GET" ("/v3/marketing/contacts?list_ids=" +:+ listId) JUndefined.

(** The callback [(recipient) => recipient.custom_fields?.[tag] === true];
    a member inherited under the name [tag] is never [true], so the stored
    value decides. *)
Definition has_tag (tag : string) (recipient : JsVal) : bool :=
  strict_eq (current_value recipient tag) (JBool true).

(** [recipients.filter(..)] over the elements of an array; the callback
    throws on an element that is [null] or [undefined]. *)
Fixpoint filter_tagged (tag : string) (recipients : list JsVal)
  : Res (list JsVal) :=
  match recipients with
  | [] => Returned []
  | recipient :: rest =>
      if is_nullish recipient
      then Threw (TypeError
                    "Cannot read properties of undefined (reading 'custom_fields')")
      else match filter_tagged tag rest with
           | Returned kept =>
               Returned (if has_tag tag recipient then recipient :: kept else kept)
           | Threw e => Threw e
           end
  end.

(** [res.body.result.filter(..)] *)
Definition filter_result (result : JsVal) (tag : string) : Res JsVal :=
  match result with
  | JArr recipients =>
      match filter_tagged tag recipients with
      | Returned kept => Returned (JArr kept)
      | Threw e => Threw e
      end
  | JUndefined | JNull =>
      Threw (TypeError "Cannot read properties of undefined (reading 'filter')")
  | _ => Threw (TypeError "res.body.result.filter is not a function")
  end.

Definition filterRecipientsByTag (listId tag : string) : M JsVal :=
  let* res := request (GET_contacts listId) in
  let* result := get_member (body res) "result" in
  lift (filter_result result tag).

(** The result object [{ list, recipients }]; [fetchAllSenderLists()] is
    called without argument, that is with [force = false]. *)
Definition getSenderListAndRecipientsByTag (senderId tag : string) : M JsVal :=
  let listName := _formatListNameForSender senderId in
  let* lists := fetchAllSenderLists false in
  let* targetList := lift (find_by_name lists listName) in
  if negb (truthy targetList)
  then ret (JObj [("list", JNull); ("recipients", JArr [])])
  else
    let* res := request (GET_contacts (js_toString (js_get targetList "id"))) in
    let* result := get_member (body res) "result" in
    let* matchingRecipients := lift (filter_result result tag) in
    ret (JObj [("list", targetList); ("recipients", matchingRecipients)]).

Definition getRecipientsInSenderList (listId : string) : M Response :=
  let* r := _withRetry (request (GET_contacts listId)) None None None in
  destructure_first r.

(* ------------------------------------------------------------------ *)
(** *** Custom fields *)

Definition GET_field_definitions : Req :=
  ClientRequest "GET" "/v3/marketing/field_definitions" JUndefined.

Definition POST_field_definition (name type : string) : Req :=
  ClientRequest "POST" "/v3/marketing/field_definitions"
    (JObj [("name", JStr name); ("field_type", JStr type)]).

(** [existing.body.custom_fields.find((f) => f.name === name)] *)
Definition find_field (fields : JsVal) (name : string) : Res JsVal :=
  match fields with
  | JArr elems => find_named name elems
  | JUndefined | JNull =>
      Threw (TypeError "Cannot read properties of undefined (reading 'find')")
  | _ => Threw (TypeError "existing.body.custom_fields.find is not a function")
  end.

(** [String.prototype.includes] *)
Fixpoint includes (needle hay : string) : bool :=
  String.prefix needle hay
  || match hay with
     | EmptyString => false
     | String _ rest => includes needle rest
     end.

(** [message?.includes("already exists")] as a condition: on a string the
    substring test, on an array the membership test; a value without an
    [includes] method makes the call a [TypeError]. *)
Definition mentions_already_exists (msg : JsVal) : Res bool :=
  match msg with
  | JUndefined | JNull => Returned false
  | JStr s => Returned (includes "already exists" s)
  | JArr elems =>
      Returned (existsb (fun x => strict_eq x (JStr "already exists")) elems)
  | _ =>
      Threw (TypeError
               "err.response?.body?.errors?.[0]?.message?.includes is not a function")
  end.

(** [err.response?.body?.errors?.[0]?.message] *)
Definition first_error_message (err : JsError) : JsVal :=
  js_get_opt
    (js_get_opt
       (js_get_opt (js_get_opt (response err) "body") "errors") "0")
    "message".

(** [type = "text"] is the default of a parameter left out ([None]). *)
Definition ensureCustomFieldExists (name : string) (type : option string)
  : M JsVal :=
  let type := default "text" type in
  let* existing := request GET_field_definitions in
  let* fields := get_member (body existing) "custom_fields" in
  let* exists_ := lift (find_field fields name) in
  if truthy exists_ then ret exists_
  else
    try_catch
      (let* createRes := request (POST_field_definition name type) in
       ret (body createRes))
      (fun err =>
         let* conflict := lift (mentions_already_exists (first_error_message err)) in
         if conflict
         then lift (find_field fields name)
         else throw err).

(* ================================================================== *)
(** ** More vocabulary *)
(* ================================================================== *)

(** The trace of a request that is sent again and again by the retry
    helper: [outs] are the outcomes of the attempts, numbered from [k], and
    between two attempts lies the wait [min (d * attempt) m]. *)
Fixpoint attempts (req : Req) (d m k : Z) (outs : list Outcome) : list Event :=
  match outs with
  | [] => []
  | o :: rest =>
      EvRequest req o ::
      match rest with
      | [] => []
      | _ :: _ => EvSleep (Z.min (d * k) m) :: attempts req d m (k + 1) rest
      end
  end.

Definition is_rate_limited (o : Outcome) : bool :=
  match o with
  | Rejected err => isRateLimit err
  | Resolved _ => false
  end.

(** Every outcome but the last is a rejection with status 429. *)
Fixpoint all_but_last_throttled (outs : list Outcome) : bool :=
  match outs with
  | [] => true
  | o :: rest =>
      match rest with
      | [] => true
      | _ :: _ => is_rate_limited o && all_but_last_throttled rest
      end
  end.

Definition is_sleep (ev : Event) : bool :=
  match ev with EvSleep _ => true | _ => false end.

(** Every wait of the trace lasts at most [m] milliseconds. *)
Definition waits_at_most (m : Z) (tr : list Event) : Prop :=
  Forall (fun ev => match ev with EvSleep ms => (ms <= m)%Z | _ => True end) tr.

(** A list object of the roster with the given name. *)
Definition named_list (listName : string) (l : JsVal) : Prop :=
  exists props, l = JObj props /\ lookup_prop "name" props = Some (JStr listName).

(** The error a SendGrid rejection carries when its body lists [msgs]. *)
Definition remote_error (status : Z) (msgs : list string) : JsError :=
  {| message := "Bad Request";
     response :=
       JObj [("statusCode", JNum status);
             ("body",
               JObj [("errors",
                       JArr (List.map (fun m => JObj [("message", JStr m)]) msgs))])] |}.

(** The requests of a trace, in order. *)
Fixpoint requests_of (tr : list Event) : list Req :=
  match tr with
  | [] => []
  | EvRequest r _ :: rest => r :: requests_of rest
  | _ :: rest => requests_of rest
  end.

(** A registry whose second template has lost its [customFieldTypes]. *)
Definition registry_with_gap : Registry :=
  [ ("new-order-email", new_order_template);
    ("draft",
      {| templateId := "d-draft0001";
         requiredFields := ["title"];
         customFieldTypes := None |});
    ("password-reset", password_reset_template) ].

(** What the [catch] block of the segment step throws for [err]. *)
Definition segment_failure (err : JsError) : Res JsVal :=
  match remote_messages_or err (message err) with
  | Returned detail => Threw (Error ("Failed to create segment: " +:+ detail))
  | Threw t => Threw t
  end.

(** The outcome of [sgMail.send] as [sendSimpleEmail] hands it on. *)
Definition send_outcome (o : Outcome) : Res Response :=
  match o with
  | Resolved res => Returned res
  | Rejected err => Threw (Error ("Failed to send email: " +:+ message err))
  end.

(** The order of test/localTest.js. *)
Definition laptop_order : SimpleEmailOptions :=
  {| to := "recipient@example.com";
     from := "verified_sender@example.com";
     templateKey := "new-order-email";
     dynamicTemplateData :=
       [("order_id", JStr "12345"); ("user_name", JStr "Ali Bhatti");
        ("items", JArr [JObj [("item_name", JStr "Laptop"); ("price", JStr "$1000")]])];
     cc := RcptAbsent;
     bcc := RcptAbsent |}.

(** A campaign on a declared tag with a template of the registry. *)
Definition campaign_order_id : CampaignOptions :=
  {| listId := "L1";
     tag := "order_id";
     campaignTemplateKey := "creator-broadcast";
     dynamicData := [("senderId", JStr "123")];
     sendAt := JUndefined |}.

Definition creator_broadcast_template : Template :=
  {| templateId := "d-broadcast00001234567890abc";
     requiredFields := ["creator_name"; "message_body"];
     customFieldTypes :=
       Some [("creator_name", "string"); ("message_body", "html")] |}.

(** The name of the segment a campaign creates. *)
Definition segment_name (options : CampaignOptions) : string :=
  "segment_" +:+ listId options +:+ "_" +:+ tag options +:+ "__sender_"
  +:+ js_toString (js_get (JObj (dynamicData options)) "senderId").

(** The single-send request of a campaign, given the answer to the segment
    request and the time read. *)
Definition singlesend_of (sender : Z) (options : CampaignOptions)
  (template : Template) (segmentRes : Response) (t : Z) : Req :=
  POST_singlesend sender
    ("Campaign_" +:+ campaignTemplateKey options +:+ "_" +:+ pretty t)
    (js_get (body segmentRes) "id") (templateId template).

(** What [config[templateKey].templateId] evaluates to in
    [sendCampaignEmail]; [None] when the read throws. *)
Definition template_id_read (REG : Registry) (key : string) : option JsVal :=
  match lookup_prop key REG with
  | Some template => Some (JStr (templateId template))
  | None => if inherited key then Some JUndefined else None
  end.

(** The three ways a campaign that passed the tag check can end: after the
    segment request; after the single-send request; after the schedule
    request. *)
Definition campaign_stopped_at_segment (options : CampaignOptions)
  (r : Res JsVal) (tr : list Event) : Prop :=
  exists o1,
    tr = [EvRequest (POST_segment (segment_name options) (listId options)
                       (tag options)) o1] /\
    (exists e, r = Threw e) /\
    (forall err, o1 = Rejected err -> r = segment_failure err).

Definition campaign_stopped_at_singlesend (sender : Z) (options : CampaignOptions)
  (template : Template) (r : Res JsVal) (tr : list Event) : Prop :=
  exists segmentRes t o2,
    tr = [EvRequest (POST_segment (segment_name options) (listId options)
                       (tag options)) (Resolved segmentRes);
          EvNow t;
          EvRequest (singlesend_of sender options template segmentRes t) o2] /\
    (exists e, r = Threw e) /\
    (forall err, o2 = Rejected err -> r = Threw err).

Definition campaign_reached_schedule (sender : Z) (options : CampaignOptions)
  (template : Template) (r : Res JsVal) (tr : list Event) : Prop :=
  exists segmentRes t campaignRes o3,
    tr = [EvRequest (POST_segment (segment_name options) (listId options)
                       (tag options)) (Resolved segmentRes);
          EvNow t;
          EvRequest (singlesend_of sender options template segmentRes t)
            (Resolved campaignRes);
          EvRequest (POST_schedule (js_toString (js_get (body campaignRes) "id"))
                       (sendAt options)) o3] /\
    r = match o3 with
        | Resolved _ =>
            Returned (JObj [("campaignId", js_get (body campaignRes) "id");
                            ("segmentId", js_get (body segmentRes) "id")])
        | Rejected err => Threw err
        end.


(* ================================================================== *)
(** ** Histories of calls *)
(* ================================================================== *)

(** A call of one static method of the class, with its arguments. *)
Inductive Call : Type :=
| CallLoadEmailTemplateConfig
| CallBuildFieldType
| CallRemoveRecipient (email : string)
| CallSubscribe (email listId : string) (customFields : option JsObj)
    (subscribe : bool)
| CallSendSimpleEmail (options : SimpleEmailOptions)
| CallSendCampaignEmail (options : CampaignOptions)
| CallFilterRecipientsByTag (listId tag : string)
| CallFetchAllSenderLists (force : bool)
| CallGetSenderListAndRecipientsByTag (senderId tag : string)
| CallGetRecipientsInSenderList (listId : string)
| CallEnsureSenderListExists (senderId : string)
| CallEnsureListExistsByName (listName : string)
| CallEnsureCustomFieldExists (name : string) (type : option string)
| CallResetInternalCache.

(** The caches and the world that a computation leaves behind. *)
Definition state_after {A : Type} (R : Remote) (m : M A)
  (s : Caches * World R) : Caches * World R :=
  let r := run R m s.1 s.2 in (r.1.1.2, r.1.2).

(** One call awaited to its end, whether it returns or throws. *)
Definition after_call (R : Remote) (REG : Registry) (sender : Z) (call : Call)
  : Caches * World R -> Caches * World R :=
  match call with
  | CallLoadEmailTemplateConfig => state_after R (loadEmailTemplateConfig REG)
  | CallBuildFieldType =>
      state_after R (buildFieldTypeFromEmailTemplateConfig REG)
  | CallRemoveRecipient email =>
      state_after R (removeRecipientFromAllSenderLists email)
  | CallSubscribe email listId customFields subscribe =>
      state_after R (subscribeOrUnsubscribeRecipientFromSenderListByTag
                       email listId customFields subscribe)
  | CallSendSimpleEmail options => state_after R (sendSimpleEmail REG options)
  | CallSendCampaignEmail options =>
      state_after R (sendCampaignEmail REG sender options)
  | CallFilterRecipientsByTag listId tag =>
      state_after R (filterRecipientsByTag listId tag)
  | CallFetchAllSenderLists force => state_after R (fetchAllSenderLists force)
  | CallGetSenderListAndRecipientsByTag senderId tag =>
      state_after R (getSenderListAndRecipientsByTag senderId tag)
  | CallGetRecipientsInSenderList listId =>
      state_after R (getRecipientsInSenderList listId)
  | CallEnsureSenderListExists senderId =>
      state_after R (ensureSenderListExists senderId)
  | CallEnsureListExistsByName listName =>
      state_after R (ensureListExistsByName listName)
  | CallEnsureCustomFieldExists name type =>
      state_after R (ensureCustomFieldExists name type)
  | CallResetInternalCache => state_after R resetInternalCache
  end.

(** A history: calls made one after the other, each awaited, starting from
    the caches of a freshly loaded class. *)
Definition after_calls (R : Remote) (REG : Registry) (sender : Z)
  (calls : list Call) (w : World R) : Caches * World R :=
  fold_left (fun s call => after_call R REG sender call s) calls
    (initial_caches, w).

(* ================================================================== *)
(** * Properties *)
(* ================================================================== *)

(* ------------------------------------------------------------------ *)
(** *** The derivative matcher decides the language *)

Module RegexFacts.
Import Regex.

Lemma cat_inv r1 r2 s :
  Matches (Cat r1 r2) s ->
  exists s1 s2, s = s1 ++ s2 /\ Matches r1 s1 /\ Matches r2 s2.
Proof. inversion 1; subst; eauto. Qed.

Lemma alt_inv r1 r2 s : Matches (Alt r1 r2) s -> Matches r1 s \/ Matches r2 s.
Proof. inversion 1; subst; auto. Qed.

Lemma class_inv p s : Matches (Class p) s -> exists c, s = [c] /\ p c = true.
Proof. inversion 1; subst; eauto. Qed.

Lemma eps_inv s : Matches Eps s -> s = [].
Proof. inversion 1; reflexivity. Qed.

Lemma void_inv s : ~ Matches Void s.
Proof. inversion 1. Qed.

Lemma nullable_spec r : nullable r = true <-> Matches r [].
Proof.
  induction r; simpl.
  - split; [discriminate | intros H; destruct (void_inv _ H)].
  - split; [constructor | reflexivity].
  - split; [discriminate |].
    intros H. apply class_inv in H as (c & Hc & _). discriminate.
  - rewrite orb_true_iff, IHr1, IHr2. split.
    + intros [H | H]; [apply MAltL | apply MAltR]; exact H.
    + apply alt_inv.
  - rewrite andb_true_iff, IHr1, IHr2. split.
    + intros [H1 H2]. exact (MCat _ _ [] [] H1 H2).
    + intros H. apply cat_inv in H as (s1 & s2 & Heq & H1 & H2).
      symmetry in Heq. apply app_eq_nil in Heq as [-> ->]. auto.
  - split; [constructor | reflexivity].
Qed.

Lemma star_cons_gen r' cs :
  Matches r' cs ->
  forall r c s, r' = Star r -> cs = c :: s ->
  exists s1 s2, s = s1 ++ s2 /\ Matches r (c :: s1) /\ Matches (Star r) s2.
Proof.
  induction 1 as [| | | | | r0 | r0 s1 s2 H1 _ H2 IH2];
    intros rr cc ss Hr Hcs; try discriminate.
  injection Hr as ->.
  destruct s1 as [| c1 s1]; simpl in Hcs.
  - apply IH2; [reflexivity | exact Hcs].
  - injection Hcs as <- <-. exists s1, s2. auto.
Qed.

Lemma star_cons r c s :
  Matches (Star r) (c :: s) ->
  exists s1 s2, s = s1 ++ s2 /\ Matches r (c :: s1) /\ Matches (Star r) s2.
Proof. intros H. exact (star_cons_gen _ _ H r c s eq_refl eq_refl). Qed.

Lemma cat_cons r1 r2 c s :
  Matches (Cat r1 r2) (c :: s) ->
  (exists s1 s2, s = s1 ++ s2 /\ Matches r1 (c :: s1) /\ Matches r2 s2)
  \/ (Matches r1 [] /\ Matches r2 (c :: s)).
Proof.
  intros H. apply cat_inv in H as (s1 & s2 & Heq & H1 & H2).
  destruct s1 as [| c1 s1]; simpl in Heq.
  - right. subst. auto.
  - injection Heq as -> ->. left. eauto.
Qed.

Lemma deriv_spec r : forall c s, Matches (deriv c r) s <-> Matches r (c :: s).
Proof.
  induction r as [| | p | r1 IH1 r2 IH2 | r1 IH1 r2 IH2 | r IH];
    intros c s; simpl.
  - split; intros H; [destruct (void_inv _ H) | inversion H].
  - split; intros H; [destruct (void_inv _ H) | inversion H].
  - destruct (p c) eqn:Hp; split; intros H.
    + apply eps_inv in H as ->. constructor; exact Hp.
    + apply class_inv in H as (c' & Heq & _). injection Heq as _ ->. constructor.
    + destruct (void_inv _ H).
    + apply class_inv in H as (c' & Heq & Hc'). injection Heq as -> _. congruence.
  - split; intros H; apply alt_inv in H as [H | H];
      ((apply MAltL; apply IH1; exact H) || (apply MAltR; apply IH2; exact H)).
  - assert (Hcat : forall s0, Matches (Cat (deriv c r1) r2) s0 ->
                              Matches (Cat r1 r2) (c :: s0)).
    { intros s0 H. apply cat_inv in H as (s1 & s2 & -> & H1 & H2).
      apply IH1 in H1. exact (MCat _ _ (c :: s1) s2 H1 H2). }
    destruct (nullable r1) eqn:Hn; split; intros H.
    + apply alt_inv in H as [H | H]; [auto |].
      apply nullable_spec in Hn. apply IH2 in H.
      exact (MCat _ _ [] (c :: s) Hn H).
    + apply cat_cons in H as [(s1 & s2 & -> & H1 & H2) | [_ H2]].
      * apply MAltL. apply MCat; [apply IH1 |]; assumption.
      * apply MAltR. apply IH2. exact H2.
    + auto.
    + apply cat_cons in H as [(s1 & s2 & -> & H1 & H2) | [H1 _]].
      * apply MCat; [apply IH1 |]; assumption.
      * apply nullable_spec in H1. congruence.
  - split; intros H.
    + apply cat_inv in H as (s1 & s2 & -> & H1 & H2).
      apply IH in H1. exact (MStarApp _ (c :: s1) s2 H1 H2).
    + apply star_cons in H as (s1 & s2 & -> & H1 & H2).
      apply MCat; [apply IH |]; assumption.
Qed.

Lemma accepts_spec s : forall r, accepts r s = true <-> Matches r s.
Proof.
  induction s as [| c s IH]; intros r; simpl.
  - apply nullable_spec.
  - rewrite IH. apply deriv_spec.
Qed.

End RegexFacts.

(* ------------------------------------------------------------------ *)
(** *** The validator accepts exactly the strings of the form [local@domain.tld] *)

Module EmailFacts.
Import Regex RegexFacts.

Lemma star_class_gen r l :
  Matches r l ->
  forall p, r = Star (Class p) -> Forall (fun c => p c = true) l.
Proof.
  induction 1 as [| | | | | r0 | r0 s1 s2 H1 _ H2 IH2]; intros q Hr;
    try discriminate.
  - constructor.
  - injection Hr as ->.
    apply class_inv in H1 as (c & -> & Hc). simpl.
    constructor; [exact Hc | apply IH2; reflexivity].
Qed.

Lemma star_class p l :
  Matches (Star (Class p)) l <-> Forall (fun c => p c = true) l.
Proof.
  split.
  - intros H. exact (star_class_gen _ _ H p eq_refl).
  - induction 1 as [| c l Hc _ IH]; [constructor |].
    exact (MStarApp _ [c] l (MClass p c Hc) IH).
Qed.

Lemma plus_class p l :
  Matches (Plus (Class p)) l <-> l <> [] /\ Forall (fun c => p c = true) l.
Proof.
  unfold Plus. split.
  - intros H. apply cat_inv in H as (s1 & s2 & -> & H1 & H2).
    apply class_inv in H1 as (c & -> & Hc). apply star_class in H2.
    split; [discriminate | constructor; assumption].
  - intros [Hne HF]. destruct l as [| c l]; [congruence |].
    inversion HF as [| ? ? Hc HF']; subst.
    apply (MCat _ _ [c] l); [constructor; exact Hc | apply star_class; exact HF'].
Qed.

Lemma lit_spec c l : Matches (Lit c) l <-> l = [c].
Proof.
  unfold Lit. split.
  - intros H. apply class_inv in H as (c' & -> & Hc).
    apply Ascii.eqb_eq in Hc. congruence.
  - intros ->. constructor. apply Ascii.eqb_refl.
Qed.

Lemma emailRegex_language cs :
  Matches emailRegex cs <->
  exists l d tld,
    cs = l ++ ["@"%char] ++ d ++ ["."%char] ++ tld /\
    (l <> [] /\ Forall (fun c => not_space_at c = true) l) /\
    (d <> [] /\ Forall (fun c => not_space_at c = true) d) /\
    (tld <> [] /\ Forall (fun c => not_space_at c = true) tld).
Proof.
  unfold emailRegex. split.
  - intros H.
    apply cat_inv in H as (l & r1 & -> & Hl & H).
    apply cat_inv in H as (a & r2 & -> & Ha & H).
    apply cat_inv in H as (d & r3 & -> & Hd & H).
    apply cat_inv in H as (o & tld & -> & Ho & Ht).
    apply lit_spec in Ha as ->. apply lit_spec in Ho as ->.
    apply plus_class in Hl, Hd, Ht.
    exists l, d, tld. auto.
  - intros (l & d & tld & -> & Hl & Hd & Ht).
    apply plus_class in Hl, Hd, Ht.
    repeat (apply MCat; try assumption); apply lit_spec; reflexivity.
Qed.

Lemma list_ascii_of_string_app (a b : string) :
  list_ascii_of_string (a +:+ b) = list_ascii_of_string a ++ list_ascii_of_string b.
Proof. induction a as [| c a IH]; simpl; [reflexivity | now rewrite IH]. Qed.

Lemma clean_part_list (l : list ascii) :
  l <> [] /\ Forall (fun c => not_space_at c = true) l <->
  clean_part (string_of_list_ascii l).
Proof.
  unfold clean_part. rewrite list_ascii_of_string_of_list_ascii.
  destruct l; simpl; split; intros [H1 H2]; split; congruence || assumption.
Qed.

(** The validator and the form of the specification agree on every string. *)
Lemma isValidEmail_iff (s : string) :
  _isValidEmail s = true <-> email_form s.
Proof.
  unfold _isValidEmail, test. rewrite accepts_spec, emailRegex_language.
  unfold email_form. split.
  - intros (l & d & tld & Heq & Hl & Hd & Ht).
    exists (string_of_list_ascii l), (string_of_list_ascii d),
      (string_of_list_ascii tld).
    rewrite <- !clean_part_list. repeat split; try tauto.
    rewrite <- (string_of_list_ascii_of_string s), Heq.
    rewrite <- (list_ascii_of_string_of_list_ascii l) at 1.
    rewrite <- (list_ascii_of_string_of_list_ascii d) at 1.
    rewrite <- (list_ascii_of_string_of_list_ascii tld) at 1.
    change ["@"%char] with (list_ascii_of_string "@").
    change ["."%char] with (list_ascii_of_string ".").
    rewrite <- !list_ascii_of_string_app.
    now rewrite string_of_list_ascii_of_string.
  - intros (l & d & tld & -> & Hl & Hd & Ht).
    exists (list_ascii_of_string l), (list_ascii_of_string d),
      (list_ascii_of_string tld).
    rewrite !list_ascii_of_string_app.
    unfold clean_part in *. repeat split; try tauto.
    + intros E. destruct Hl as [Hl _]. apply Hl. now destruct l.
    + intros E. destruct Hd as [Hd _]. apply Hd. now destruct d.
    + intros E. destruct Ht as [Ht _]. apply Ht. now destruct tld.
Qed.

Lemma isValidEmail_rejects (s : string) :
  ~ email_form s -> _isValidEmail s = false.
Proof.
  intros H. destruct (_isValidEmail s) eqn:E; [| reflexivity].
  apply isValidEmail_iff in E. contradiction.
Qed.

(** The two defects named by the specification: a string of the form has
    an [@], and a dot somewhere after it. *)
Lemma email_form_at_and_dot (s : string) :
  email_form s ->
  exists l rest,
    s = l +:+ "@" +:+ rest /\ In "."%char (list_ascii_of_string rest).
Proof.
  intros (l & d & tld & -> & _). exists l, (d +:+ "." +:+ tld).
  split; [reflexivity |].
  rewrite !list_ascii_of_string_app. apply in_or_app. right. left. reflexivity.
Qed.

Lemma no_at_not_email_form (s : string) :
  ~ In "@"%char (list_ascii_of_string s) -> ~ email_form s.
Proof.
  intros Hno Hform.
  apply email_form_at_and_dot in Hform as (l & rest & -> & _).
  apply Hno. rewrite !list_ascii_of_string_app.
  apply in_or_app. right. left. reflexivity.
Qed.

Example valid_address : _isValidEmail "test@example.com" = true.
Proof. reflexivity. Qed.

Example missing_at : _isValidEmail "test.example.com" = false.
Proof. reflexivity. Qed.

Example missing_domain_dot : _isValidEmail "test@examplecom" = false.
Proof. reflexivity. Qed.

Example inner_space : _isValidEmail "te st@example.com" = false.
Proof. reflexivity. Qed.

End EmailFacts.

(* ------------------------------------------------------------------ *)
(** *** JavaScript values, on examples *)

Example toString_array :
  js_toString (JArr [JNum 1; JNull; JStr "a"; JArr [JBool true; JNum (-2)]])
  = "1,,a,true,-2".
Proof. vm_compute. reflexivity. Qed.

Example get_index : js_get (JArr [JStr "x"; JStr "y"]) "1" = JStr "y".
Proof. reflexivity. Qed.

(* ------------------------------------------------------------------ *)
(** *** Running a computation *)

Lemma exec_bind {A B : Type} (R : Remote) (p : IO A) (f : A -> IO B) :
  forall w,
    exec R (io_bind p f) w =
    let '(a, w1, t1) := exec R p w in
    let '(b, w2, t2) := exec R (f a) w1 in
    (b, w2, t1 ++ t2).
Proof.
  induction p as [a | r k IH | ms k IH | k IH]; intros w; simpl.
  - destruct (exec R (f a) w) as [[b w2] t2]. reflexivity.
  - destruct (serve R w r) as [o w1]. rewrite IH.
    destruct (exec R (k o) w1) as [[a w2] t1].
    destruct (exec R (f a) w2) as [[b w3] t2]. reflexivity.
  - rewrite IH. destruct (exec R k (wait R ms w)) as [[a w2] t1].
    destruct (exec R (f a) w2) as [[b w3] t2]. reflexivity.
  - rewrite IH. destruct (exec R (k (clock R w)) w) as [[a w2] t1].
    destruct (exec R (f a) w2) as [[b w3] t2]. reflexivity.
Qed.

(* ================================================================== *)
(** ** Laws of the service monad *)
(* ================================================================== *)

Lemma bind_returned {A B : Type} (m : M A) (f : A -> M B) c a c' :
  m c = Done (Returned a, c') -> bind m f c = f a c'.
Proof. intros H. unfold bind. rewrite H. reflexivity. Qed.

Lemma bind_threw {A B : Type} (m : M A) (f : A -> M B) c e c' :
  m c = Done (Threw e, c') -> bind m f c = Done (Threw e, c').
Proof. intros H. unfold bind. rewrite H. reflexivity. Qed.

Lemma bind_lift {A B : Type} (r : Res A) (f : A -> M B) c :
  bind (lift r) f c =
  match r with Returned a => f a c | Threw e => Done (Threw e, c) end.
Proof. destruct r; reflexivity. Qed.

Lemma run_bind {A B : Type} (R : Remote) (m : M A) (f : A -> M B) c w :
  run R (bind m f) c w =
  let '((r, c1), w1, t1) := run R m c w in
  match r with
  | Returned a =>
      let '(rc, w2, t2) := run R (f a) c1 w1 in (rc, w2, t1 ++ t2)
  | Threw e => ((Threw e, c1), w1, t1)
  end.
Proof.
  unfold run, bind. rewrite exec_bind.
  destruct (exec R (m c) w) as [[[r c1] w1] t1].
  destruct r as [a | e]; simpl.
  - destruct (exec R (f a c1) w1) as [[rc w2] t2]. reflexivity.
  - rewrite app_nil_r. reflexivity.
Qed.

Lemma run_try_catch {A : Type} (R : Remote) (m : M A) (h : JsError -> M A) c w :
  run R (try_catch m h) c w =
  let '((r, c1), w1, t1) := run R m c w in
  match r with
  | Returned a => ((Returned a, c1), w1, t1)
  | Threw e =>
      let '(rc, w2, t2) := run R (h e) c1 w1 in (rc, w2, t1 ++ t2)
  end.
Proof.
  unfold run, try_catch. rewrite exec_bind.
  destruct (exec R (m c) w) as [[[r c1] w1] t1].
  destruct r as [a | e]; simpl.
  - rewrite app_nil_r. reflexivity.
  - destruct (exec R (h e c1) w1) as [[rc w2] t2]. reflexivity.
Qed.

Lemma run_ret {A : Type} (R : Remote) (a : A) c w :
  run R (ret a) c w = ((Returned a, c), w, []).
Proof. reflexivity. Qed.

Lemma run_throw {A : Type} (R : Remote) (e : JsError) c w :
  run R (@throw A e) c w = ((Threw e, c), w, []).
Proof. reflexivity. Qed.

Lemma run_lift {A : Type} (R : Remote) (r : Res A) c w :
  run R (lift r) c w = ((r, c), w, []).
Proof. reflexivity. Qed.

Lemma run_request (R : Remote) (r : Req) c w :
  run R (request r) c w =
  let '(o, w1) := serve R w r in
  (match o with
   | Resolved res => (Returned res, c)
   | Rejected err => (Threw err, c)
   end, w1, [EvRequest r o]).
Proof.
  unfold run, request. simpl. destruct (serve R w r) as [o w1].
  destruct o; reflexivity.
Qed.

Lemma run_sleep (R : Remote) (ms : Z) c w :
  run R (sleep ms) c w = ((Returned tt, c), wait R ms w, [EvSleep ms]).
Proof. reflexivity. Qed.

Lemma immediate_run {A : Type} (R : Remote) (m : M A) c r c' :
  immediate (m c) r c' -> forall w, run R m c w = ((r, c'), w, []).
Proof. unfold immediate, run. intros -> w. reflexivity. Qed.

(* ================================================================== *)
(** * The service: validation *)
(* ================================================================== *)

Lemma lookup_prop_None_iff {V : Type} (k : string) (o : list (string * V)) :
  lookup_prop k o = None <-> forall v, ~ In (k, v) o.
Proof.
  induction o as [| [k' v'] o IH]; simpl.
  - split; [intros _ v [] | reflexivity].
  - destruct (String.eqb k k') eqn:E.
    + apply String.eqb_eq in E as ->. split; [discriminate |].
      intros H. exfalso. apply (H v'). left. reflexivity.
    + apply String.eqb_neq in E. rewrite IH. split.
      * intros H v [Heq | Hin]; [congruence | exact (H v Hin)].
      * intros H v Hin. apply (H v). right. exact Hin.
Qed.

Lemma has_prop_false_iff (k : string) (data : JsObj) :
  has_prop k data = false <-> absent k data.
Proof.
  unfold has_prop, absent. rewrite <- lookup_prop_None_iff.
  destruct (lookup_prop k data); split; congruence.
Qed.

Lemma missing_fields_spec required data field :
  In field (missing_fields required data) <->
  In field required /\ absent field data.
Proof.
  unfold missing_fields. rewrite filter_In, negb_true_iff, has_prop_false_iff.
  reflexivity.
Qed.

Lemma invalid_recipients_elem s l :
  In s l -> _isValidEmail s = false -> invalid_recipients (RcptArray l) = true.
Proof.
  intros Hin Hs. simpl. apply existsb_exists. exists s.
  split; [exact Hin | now rewrite Hs].
Qed.

Lemma loadEmailTemplateConfig_coherent REG c :
  coherent REG c ->
  exists c',
    loadEmailTemplateConfig REG c = Done (Returned REG, c') /\
    coherent REG c' /\
    fieldMapCache c' = fieldMapCache c /\ listCache c' = listCache c.
Proof.
  intros [[Ht | Ht] Hf]; unfold loadEmailTemplateConfig, bind, get_caches;
    simpl; rewrite Ht; simpl.
  - eexists. split; [reflexivity |]. split; [| split; reflexivity].
    split; [right; reflexivity | exact Hf].
  - exists c. split; [reflexivity |]. split; [| split; reflexivity].
    split; [right; exact Ht | exact Hf].
Qed.

Lemma sendSimpleEmail_bad_address REG options c :
  addresses_pass options = false ->
  exists e, sendSimpleEmail REG options c = Done (Threw e, c).
Proof.
  unfold addresses_pass, sendSimpleEmail. intros H.
  destruct (_isValidEmail (to options)); simpl in *; [| eexists; reflexivity].
  destruct (_isValidEmail (from options)); simpl in *; [| eexists; reflexivity].
  destruct (invalid_recipients (cc options)); simpl in *; [eexists; reflexivity |].
  destruct (invalid_recipients (bcc options)); simpl in *; [eexists; reflexivity |].
  discriminate.
Qed.

(** Past the address checks, [sendSimpleEmail] is the template part. *)
Lemma sendSimpleEmail_good_address REG options c c' :
  addresses_pass options = true ->
  loadEmailTemplateConfig REG c = Done (Returned REG, c') ->
  sendSimpleEmail REG options c =
  match lookup_prop (templateKey options) REG with
  | None =>
      Done (Threw (if inherited (templateKey options)
                   then TypeError
                          "Cannot read properties of undefined (reading 'filter')"
                   else Error ("Unknown templateKey: " +:+ templateKey options)),
            c')
  | Some template =>
      let missingFields :=
        missing_fields (requiredFields template) (dynamicTemplateData options) in
      if negb (length missingFields =? 0)%nat
      then Done (Threw (Error ("Missing required template fields: "
                               +:+ join ", " missingFields)), c')
      else
        match check_field_types (customFieldTypes template)
                (dynamicTemplateData options) with
        | Threw e => Done (Threw e, c')
        | Returned _ =>
            try_catch
              (request (MailSend
                 {| msg_to := to options;
                    msg_from := from options;
                    msg_templateId := templateId template;
                    msg_dynamicTemplateData := dynamicTemplateData options;
                    msg_cc := cc options;
                    msg_bcc := bcc options |}))
              (fun err => throw (Error ("Failed to send email: " +:+ message err)))
              c'
        end
  end.
Proof.
  unfold addresses_pass. intros H Hload.
  apply andb_true_iff in H as [H Hbcc]. apply andb_true_iff in H as [H Hcc].
  apply andb_true_iff in H as [Hto Hfrom].
  apply negb_true_iff in Hcc, Hbcc.
  unfold sendSimpleEmail. rewrite Hto, Hfrom, Hcc, Hbcc. simpl.
  rewrite (bind_returned _ _ _ _ _ Hload).
  destruct (lookup_prop (templateKey options) REG) as [template |];
    [| destruct (inherited (templateKey options)); reflexivity].
  simpl.
  destruct (negb (length (missing_fields (requiredFields template)
                            (dynamicTemplateData options)) =? 0)%nat);
    [reflexivity |].
  rewrite bind_lift.
  destruct (check_field_types (customFieldTypes template)
              (dynamicTemplateData options)); reflexivity.
Qed.

(** ** C7 *)

(** C7.  A string that is not of the form local@domain.tld (no whitespace,
    exactly one [@], a dot inside the domain) is rejected by [_isValidEmail],
    and [sendSimpleEmail] fails, before any request, when such a string is
    the recipient, the sender, or an element of the CC or BCC array. *)
Theorem C7_invalid_address_rejected (s : string) :
  ~ email_form s ->
  _isValidEmail s = false /\
  forall (REG : Registry) (options : SimpleEmailOptions) (c : Caches),
    (to options = s \/ from options = s \/
     (exists l, cc options = RcptArray l /\ In s l) \/
     (exists l, bcc options = RcptArray l /\ In s l)) ->
    exists e, sendSimpleEmail REG options c = Done (Threw e, c).
Proof.
  intros Hform.
  pose proof (EmailFacts.isValidEmail_rejects s Hform) as Hs.
  split; [exact Hs |].
  intros REG options c Hwhere.
  apply sendSimpleEmail_bad_address. unfold addresses_pass.
  destruct Hwhere as [Hto | [Hfrom | [(l & Hcc & Hin) | (l & Hbcc & Hin)]]].
  - rewrite Hto, Hs. reflexivity.
  - rewrite Hfrom, Hs. apply andb_false_iff. left. apply andb_false_iff. left.
    apply andb_false_r.
  - rewrite Hcc, (invalid_recipients_elem s l Hin Hs).
    apply andb_false_iff. left. apply andb_false_r.
  - rewrite Hbcc, (invalid_recipients_elem s l Hin Hs). apply andb_false_r.
Qed.

Lemma C7_witness :
  ~ email_form "user.example.com" /\
  (_isValidEmail "user.example.com" = false /\
   forall (REG : Registry) (options : SimpleEmailOptions) (c : Caches),
     (to options = "user.example.com" \/ from options = "user.example.com" \/
      (exists l, cc options = RcptArray l /\ In "user.example.com" l) \/
      (exists l, bcc options = RcptArray l /\ In "user.example.com" l)) ->
     exists e, sendSimpleEmail REG options c = Done (Threw e, c)).
Proof.
  assert (H : ~ email_form "user.example.com").
  { intros H. apply EmailFacts.isValidEmail_iff in H. vm_compute in H.
    discriminate H. }
  split; [exact H | exact (C7_invalid_address_rejected "user.example.com" H)].
Defined.

(** ** C6 *)

Lemma missing_fields_sublist required data :
  sublist (missing_fields required data) required.
Proof.
  unfold missing_fields. induction required as [| f required IH]; simpl.
  - constructor.
  - destruct (negb (has_prop f data)); [apply sublist_skip | apply sublist_cons];
      exact IH.
Qed.

Lemma length_eqb_zero {X : Type} (l : list X) :
  negb (length l =? 0)%nat = true <-> l <> [].
Proof. destruct l; simpl; split; congruence. Qed.

(** C6 as stated fails for a call whose recipient is no address: the
    address checks come first, and the error names the address, not the
    missing fields. *)
Lemma C6_counterexample :
  ~ reports_missing_fields EmailTemplateMap order_to_bad_address initial_caches.
Proof.
  intros H.
  destruct (H new_order_template eq_refl) as [c' Hsend].
  - exists "items". split; [simpl; auto |].
    intros v [Hin | []]. discriminate Hin.
  - vm_compute in Hsend. discriminate Hsend.
Qed.

Example order_to_bad_address_message :
  sendSimpleEmail EmailTemplateMap order_to_bad_address initial_caches
  = Done (Threw (Error "Invalid recipient email: not-an-email"), initial_caches).
Proof. vm_compute. reflexivity. Qed.

(** C6 (amended).  For a template of the registry and a
    [dynamicTemplateData] object that lacks at least one of its
    [requiredFields], [sendSimpleEmail] fails before any request; when the
    address checks, which come first, pass, the error message is
    "Missing required template fields: " followed by exactly the missing
    field names, in the order of [requiredFields], joined with ", ". *)
Theorem C6_missing_required_fields
  (REG : Registry) (options : SimpleEmailOptions) (c : Caches) (template : Template) :
  coherent REG c ->
  lookup_prop (templateKey options) REG = Some template ->
  (exists field, In field (requiredFields template) /\
                 absent field (dynamicTemplateData options)) ->
  (exists e c', sendSimpleEmail REG options c = Done (Threw e, c')) /\
  (addresses_pass options = true ->
   exists missing c',
     sendSimpleEmail REG options c =
       Done (Threw (Error ("Missing required template fields: "
                           +:+ join ", " missing)), c') /\
     (forall field,
        In field missing <->
        In field (requiredFields template) /\
        absent field (dynamicTemplateData options)) /\
     sublist missing (requiredFields template)).
Proof.
  intros Hc Htemplate (field & Hreq & Habs).
  destruct (loadEmailTemplateConfig_coherent REG c Hc) as (c' & Hload & _).
  assert (Hmiss : negb (length (missing_fields (requiredFields template)
                                  (dynamicTemplateData options)) =? 0)%nat = true).
  { apply length_eqb_zero. intros Hnil.
    assert (Hin : In field (missing_fields (requiredFields template)
                              (dynamicTemplateData options)))
      by (apply missing_fields_spec; auto).
    rewrite Hnil in Hin. destruct Hin. }
  assert (Hgood : addresses_pass options = true ->
            sendSimpleEmail REG options c =
            Done (Threw (Error ("Missing required template fields: "
                   +:+ join ", " (missing_fields (requiredFields template)
                                    (dynamicTemplateData options)))), c')).
  { intros Hpass.
    rewrite (sendSimpleEmail_good_address REG options c c' Hpass Hload).
    rewrite Htemplate. simpl. rewrite Hmiss. reflexivity. }
  split.
  - destruct (addresses_pass options) eqn:Hpass.
    + eexists. eexists. apply Hgood. reflexivity.
    + destruct (sendSimpleEmail_bad_address REG options c Hpass) as [e He].
      eauto.
  - intros Hpass. eexists. exists c'. split; [apply Hgood; exact Hpass |].
    split; [intros f; apply missing_fields_spec | apply missing_fields_sublist].
Qed.

Lemma C6_witness :
  coherent EmailTemplateMap initial_caches /\
  lookup_prop (templateKey order_without_items) EmailTemplateMap
    = Some new_order_template /\
  (exists field, In field (requiredFields new_order_template) /\
                 absent field (dynamicTemplateData order_without_items)) /\
  ((exists e c', sendSimpleEmail EmailTemplateMap order_without_items initial_caches
                 = Done (Threw e, c')) /\
   (addresses_pass order_without_items = true ->
    exists missing c',
      sendSimpleEmail EmailTemplateMap order_without_items initial_caches =
        Done (Threw (Error ("Missing required template fields: "
                            +:+ join ", " missing)), c') /\
      (forall field,
         In field missing <->
         In field (requiredFields new_order_template) /\
         absent field (dynamicTemplateData order_without_items)) /\
      sublist missing (requiredFields new_order_template))).
Proof.
  assert (Hc : coherent EmailTemplateMap initial_caches).
  { split; [left; reflexivity | intros m Hm; discriminate Hm]. }
  assert (Ht : lookup_prop (templateKey order_without_items) EmailTemplateMap
               = Some new_order_template) by reflexivity.
  assert (Hm : exists field,
             In field (requiredFields new_order_template) /\
             absent field (dynamicTemplateData order_without_items)).
  { exists "items". split; [simpl; auto |].
    intros v [H | []]. discriminate H. }
  split; [exact Hc |]. split; [exact Ht |]. split; [exact Hm |].
  exact (C6_missing_required_fields EmailTemplateMap order_without_items
           initial_caches new_order_template Hc Ht Hm).
Defined.

Example C6_message :
  sendSimpleEmail EmailTemplateMap order_without_items initial_caches =
  Done (Threw (Error "Missing required template fields: order_id, items"),
        {| templateCache := Some EmailTemplateMap;
           fieldMapCache := None; listCache := JNull |}).
Proof. vm_compute. reflexivity. Qed.

(** ** C9 *)

Lemma check_field_type_null types field :
  check_field_type types field JNull = None.
Proof.
  unfold check_field_type. destruct (lookup_prop field types) as [expected |];
    [| reflexivity].
  destruct (String.eqb expected ""); reflexivity.
Qed.

Lemma check_field_type_mismatch types field value expected :
  lookup_prop field types = Some expected ->
  value <> JNull ->
  type_mismatch expected value ->
  exists e, check_field_type types field value = Some e.
Proof.
  intros Hl Hnull Hmis. unfold check_field_type. rewrite Hl.
  destruct Hmis as [[-> Hty] | [[-> Hty] | [-> Hty]]]; simpl.
  - apply String.eqb_neq in Hty. rewrite Hty. simpl.
    destruct value; try (eexists; reflexivity). congruence.
  - apply String.eqb_neq in Hty. rewrite Hty. simpl.
    destruct value; try (eexists; reflexivity). congruence.
  - rewrite Hty. simpl.
    destruct value; try (eexists; reflexivity). congruence.
Qed.

Lemma check_field_types_fails types data field value e :
  In (field, value) data ->
  check_field_type types field value = Some e ->
  exists e', check_field_types (Some types) data = Threw e'.
Proof.
  induction data as [| [f v] data IH]; intros Hin He; [destruct Hin |].
  simpl. destruct (check_field_type types f v) as [e1 |] eqn:E1;
    [eexists; reflexivity |].
  destruct Hin as [Heq | Hin]; [| exact (IH Hin He)].
  injection Heq as -> ->. congruence.
Qed.

Lemma check_field_types_skip_null types field before after :
  check_field_types (Some types) (before ++ (field, JNull) :: after) =
  check_field_types (Some types) (before ++ after).
Proof.
  induction before as [| [f v] before IH]; simpl.
  - rewrite check_field_type_null. reflexivity.
  - destruct (check_field_type types f v); [reflexivity | exact IH].
Qed.

Lemma check_field_types_pass types data :
  (forall field value,
     In (field, value) data -> check_field_type types field value = None) ->
  check_field_types (Some types) data = Returned tt.
Proof.
  induction data as [| [f v] data IH]; intros H; simpl; [reflexivity |].
  rewrite (H f v) by (left; reflexivity).
  apply IH. intros field value Hin. apply H. right. exact Hin.
Qed.

Lemma missing_fields_nil required data :
  (forall field, In field required -> has_prop field data = true) ->
  missing_fields required data = [].
Proof.
  unfold missing_fields. induction required as [| f required IH]; intros H;
    simpl; [reflexivity |].
  rewrite (H f) by (left; reflexivity). simpl.
  apply IH. intros field Hin. apply H. right. exact Hin.
Qed.

Lemma check_field_type_match types field value expected :
  lookup_prop field types = Some expected ->
  ~ type_mismatch expected value ->
  check_field_type types field value = None.
Proof.
  unfold type_mismatch, check_field_type. intros Hl Hno. rewrite Hl.
  destruct (String.eqb expected ""); [reflexivity |].
  assert (Hs : String.eqb expected "string"
               && negb (String.eqb (typeof value) "string") = false).
  { apply not_true_is_false. intros E. apply andb_true_iff in E as [Ea Eb].
    apply String.eqb_eq in Ea. apply negb_true_iff, String.eqb_neq in Eb.
    apply Hno. left. split; assumption. }
  assert (Hb : String.eqb expected "boolean"
               && negb (String.eqb (typeof value) "boolean") = false).
  { apply not_true_is_false. intros E. apply andb_true_iff in E as [Ea Eb].
    apply String.eqb_eq in Ea. apply negb_true_iff, String.eqb_neq in Eb.
    apply Hno. right. left. split; assumption. }
  assert (Ha : String.eqb expected "array" && negb (isArray value) = false).
  { apply not_true_is_false. intros E. apply andb_true_iff in E as [Ea Eb].
    apply String.eqb_eq in Ea. apply negb_true_iff in Eb.
    apply Hno. right. right. split; assumption. }
  rewrite Hs, Hb, Ha. destruct value; reflexivity.
Qed.

(** C9.  For a template of the registry with declared [customFieldTypes]:
    (1) whenever an entry of [dynamicTemplateData] has a declared type among
    string, boolean and array and a non-null value of another type,
    [sendSimpleEmail] fails before any request; (2) a null value is accepted
    under any declaration: a call that passes the address checks, has its
    required fields, and in which every entry with a declared type is either
    null or of that type, goes on to [sgMail.send]; (3) the type check
    skips a null entry altogether, its outcome being the same as if the
    entry were not there. *)
Theorem C9_declared_types_enforced
  (REG : Registry) (options : SimpleEmailOptions) (c : Caches)
  (template : Template) (types : list (string * string)) :
  coherent REG c ->
  lookup_prop (templateKey options) REG = Some template ->
  customFieldTypes template = Some types ->
  (forall field value expected,
     In (field, value) (dynamicTemplateData options) ->
     lookup_prop field types = Some expected ->
     value <> JNull ->
     type_mismatch expected value ->
     exists e c', sendSimpleEmail REG options c = Done (Threw e, c')) /\
  (addresses_pass options = true ->
   (forall field, In field (requiredFields template) ->
                  has_prop field (dynamicTemplateData options) = true) ->
   (forall field value expected,
      In (field, value) (dynamicTemplateData options) ->
      lookup_prop field types = Some expected ->
      value = JNull \/ ~ type_mismatch expected value) ->
   exists k, sendSimpleEmail REG options c
             = Await (MailSend (message_of options template)) k) /\
  (forall field before after,
     check_field_types (Some types) (before ++ (field, JNull) :: after) =
     check_field_types (Some types) (before ++ after)).
Proof.
  intros Hc Htemplate Htypes.
  destruct (loadEmailTemplateConfig_coherent REG c Hc) as (c' & Hload & _).
  split; [| split].
  - intros field value expected Hin Hl Hnull Hmis.
    destruct (check_field_type_mismatch types field value expected Hl Hnull Hmis)
      as [e He].
    destruct (check_field_types_fails types _ field value e Hin He) as [e' He'].
    destruct (addresses_pass options) eqn:Hpass.
    + rewrite (sendSimpleEmail_good_address REG options c c' Hpass Hload).
      rewrite Htemplate. simpl.
      destruct (negb (length _ =? 0)%nat); [eexists; eexists; reflexivity |].
      rewrite Htypes, He'. eexists; eexists; reflexivity.
    + destruct (sendSimpleEmail_bad_address REG options c Hpass) as [e0 He0].
      eauto.
  - intros Hpass Hreq Hok.
    rewrite (sendSimpleEmail_good_address REG options c c' Hpass Hload).
    rewrite Htemplate. simpl.
    rewrite (missing_fields_nil _ _ Hreq). simpl.
    rewrite Htypes, check_field_types_pass.
    + unfold try_catch, request, message_of. simpl. eexists. reflexivity.
    + intros field value Hin.
      destruct (lookup_prop field types) as [expected |] eqn:Hl.
      * destruct (Hok field value expected Hin Hl) as [-> | Hno].
        -- apply check_field_type_null.
        -- exact (check_field_type_match types field value expected Hl Hno).
      * unfold check_field_type. rewrite Hl. reflexivity.
  - intros field before after. apply check_field_types_skip_null.
Qed.

(** The order of test/localTest.js with a string where the array goes. *)
Example C9_array_declared_string_given :
  sendSimpleEmail EmailTemplateMap (order_with JNull (JStr "Laptop")) initial_caches =
  Done (Threw (Error "Invalid type for items: expected array"),
        {| templateCache := Some EmailTemplateMap;
           fieldMapCache := None; listCache := JNull |}).
Proof. vm_compute. reflexivity. Qed.

Lemma coherent_initial REG : coherent REG initial_caches.
Proof. split; [left; reflexivity | intros m Hm; discriminate Hm]. Qed.

(** Two orders whose [user_name] is null: with a string for the items the
    call fails, with an array it goes out. *)
Lemma C9_witness :
  coherent EmailTemplateMap initial_caches /\
  lookup_prop (templateKey (order_with JNull (JStr "Laptop"))) EmailTemplateMap
    = Some new_order_template /\
  customFieldTypes new_order_template
    = Some [("order_id", "string"); ("user_name", "string"); ("items", "array")] /\
  (In ("items", JStr "Laptop")
      (dynamicTemplateData (order_with JNull (JStr "Laptop"))) /\
   JStr "Laptop" <> JNull /\
   type_mismatch "array" (JStr "Laptop")) /\
  (exists e c',
     sendSimpleEmail EmailTemplateMap (order_with JNull (JStr "Laptop"))
       initial_caches = Done (Threw e, c')) /\
  addresses_pass (order_with JNull (JArr [JStr "Laptop"])) = true /\
  (exists k,
     sendSimpleEmail EmailTemplateMap (order_with JNull (JArr [JStr "Laptop"]))
       initial_caches
     = Await (MailSend (message_of (order_with JNull (JArr [JStr "Laptop"]))
                          new_order_template)) k).
Proof.
  assert (Hmis : type_mismatch "array" (JStr "Laptop")).
  { right. right. split; reflexivity. }
  split; [apply coherent_initial |]. split; [reflexivity |].
  split; [reflexivity |].
  split; [split; [simpl; tauto | split; [discriminate | exact Hmis]] |].
  split.
  - apply (proj1 (C9_declared_types_enforced EmailTemplateMap
                    (order_with JNull (JStr "Laptop")) initial_caches
                    new_order_template _ (coherent_initial _) eq_refl eq_refl)
             "items" (JStr "Laptop") "array").
    + simpl. tauto.
    + reflexivity.
    + discriminate.
    + exact Hmis.
  - split; [reflexivity |].
    apply (proj1 (proj2 (C9_declared_types_enforced EmailTemplateMap
                           (order_with JNull (JArr [JStr "Laptop"])) initial_caches
                           new_order_template _
                           (coherent_initial _) eq_refl eq_refl))).
    + reflexivity.
    + intros field [<- | [<- | [<- | []]]]; reflexivity.
    + intros field value expected [H | [H | [H | []]]] Hl;
        injection H as <- <-; simpl in Hl; injection Hl as <-.
      * right. unfold type_mismatch. simpl. intuition congruence.
      * left. reflexivity.
      * right. unfold type_mismatch. simpl. intuition congruence.
Defined.

(** ** C10 *)




(** ** C8 *)

Lemma fold_insert_lookup_other (tag : string) (types : list (string * string)) :
  lookup_prop tag types = None ->
  forall acc : gmap string string,
    fold_left (fun a kv => <[kv.1 := kv.2]> a) types acc !! tag = acc !! tag.
Proof.
  induction types as [| [k v] types IH]; intros Hl acc; simpl; [reflexivity |].
  simpl in Hl. destruct (String.eqb tag k) eqn:E; [discriminate Hl |].
  apply String.eqb_neq in E.
  rewrite (IH Hl). simpl. apply lookup_insert_ne. congruence.
Qed.

Lemma mergeTemplates_undeclared (tag : string) (ts : list Template) :
  (forall t, In t ts ->
             exists types, customFieldTypes t = Some types /\
                           lookup_prop tag types = None) ->
  forall acc : gmap string string,
    exists m, mergeTemplates acc ts = Returned m /\ m !! tag = acc !! tag.
Proof.
  induction ts as [| t ts IH]; intros H acc; simpl.
  - exists acc. split; reflexivity.
  - destruct (H t (or_introl eq_refl)) as (types & Ht & Hl).
    unfold mergeTemplate. rewrite Ht.
    destruct (IH (fun t' Hin => H t' (or_intror Hin))
                (fold_left (fun a kv => <[kv.1 := kv.2]> a) types acc))
      as (m & Hm & Hlook).
    exists m. split; [exact Hm |].
    rewrite Hlook. apply fold_insert_lookup_other. exact Hl.
Qed.

Lemma registry_undeclared REG tag :
  (forall key t, In (key, t) REG -> customFieldTypes t <> None) ->
  undeclared_tag REG tag ->
  exists m : gmap string string,
    mergeTemplates ∅ (List.map snd REG) = Returned m /\ m !! tag = None.
Proof.
  intros Hall Hun.
  destruct (mergeTemplates_undeclared tag (List.map snd REG)) with (acc := (∅ : gmap string string))
    as (m & Hm & Hl).
  - intros t Hin. apply in_map_iff in Hin as ([key t'] & <- & Hin). simpl.
    destruct (customFieldTypes t') as [types |] eqn:Ht.
    + exists types. split; [reflexivity |]. exact (Hun key t' types Hin Ht).
    + exfalso. exact (Hall key t' Hin Ht).
  - exists m. split; [exact Hm |]. rewrite Hl. apply lookup_empty.
Qed.

Lemma buildFieldType_coherent REG c (m : gmap string string) :
  coherent REG c ->
  mergeTemplates ∅ (List.map snd REG) = Returned m ->
  exists c',
    buildFieldTypeFromEmailTemplateConfig REG c = Done (Returned m, c') /\
    coherent REG c'.
Proof.
  intros Hc Hm. unfold buildFieldTypeFromEmailTemplateConfig.
  unfold bind at 1. unfold get_caches. simpl.
  destruct (fieldMapCache c) as [cached |] eqn:Hf.
  - exists c. split; [| exact Hc].
    destruct Hc as [_ Hc]. specialize (Hc cached Hf).
    rewrite Hc in Hm. injection Hm as ->. reflexivity.
  - destruct (loadEmailTemplateConfig_coherent REG c Hc)
      as (c1 & Hload & [Ht1 _] & Hf1 & Hl1).
    rewrite (bind_returned _ _ _ _ _ Hload), bind_lift, Hm.
    unfold bind, get_caches, put_caches, ret. simpl.
    eexists. split; [reflexivity |].
    split; simpl; [exact Ht1 |].
    intros m' Hm'. injection Hm' as <-. exact Hm.
Qed.

(** The tag check of [sendCampaignEmail] on a tag that no template declares:
    the call ends at once with "Invalid tag: <tag>", unless the tag names a
    member of [Object.prototype], which the check takes for a type. *)
Lemma undeclared_tag_check
  (REG : Registry) (sender : Z) (options : CampaignOptions) (c : Caches) :
  coherent REG c ->
  (forall key t, In (key, t) REG -> customFieldTypes t <> None) ->
  undeclared_tag REG (tag options) ->
  if inherited (tag options)
  then exists k,
         sendCampaignEmail REG sender options c
         = Await (POST_segment
                    ("segment_" +:+ listId options +:+ "_" +:+ tag options
                     +:+ "__sender_"
                     +:+ js_toString (js_get (JObj (dynamicData options)) "senderId"))
                    (listId options) (tag options)) k
  else exists c',
         sendCampaignEmail REG sender options c
         = Done (Threw (Error ("Invalid tag: " +:+ tag options)), c').
Proof.
  intros Hc Hall Hun.
  destruct (registry_undeclared REG (tag options) Hall Hun) as (m & Hm & Hl).
  destruct (buildFieldType_coherent REG c m Hc Hm) as (c' & Hbuild & _).
  unfold sendCampaignEmail. cbn zeta.
  rewrite (bind_returned _ _ _ _ _ Hbuild), Hl.
  destruct (inherited (tag options)); cbn [negb].
  - unfold bind, try_catch, request. simpl. eexists. reflexivity.
  - exists c'. reflexivity.
Qed.

Lemma shipped_templates_typed :
  forall key t, In (key, t) EmailTemplateMap -> customFieldTypes t <> None.
Proof.
  intros key t [H | [H | [H | []]]]; injection H as _ <-; discriminate.
Qed.

Lemma weekly_newsletter_undeclared :
  undeclared_tag EmailTemplateMap "weekly_newsletter".
Proof.
  intros key t types [H | [H | [H | []]]] Ht; injection H as _ <-;
    injection Ht as <-; reflexivity.
Qed.

Lemma constructor_undeclared :
  undeclared_tag EmailTemplateMap "constructor".
Proof.
  intros key t types [H | [H | [H | []]]] Ht; injection H as _ <-;
    injection Ht as <-; reflexivity.
Qed.

(** C8 (not met for the names of [Object.prototype]).  No template of the
    shipped registry declares a field [constructor], yet a campaign on the
    tag [constructor] is not refused: the tag check reads
    [customFieldMapping[tag]], finds the member every object inherits, and
    lets the call go on.  The segment, the single send and the schedule are
    requested, and the call returns their ids. *)
Theorem C8_inherited_name_passes_the_tag_check :
  undeclared_tag EmailTemplateMap (tag campaign_constructor_tag) /\
  (exists k,
     sendCampaignEmail EmailTemplateMap 42 campaign_constructor_tag initial_caches
     = Await (POST_segment "segment_L1_constructor__sender_123" "L1" "constructor") k) /\
  (let '((r, _), _, tr) :=
     run scripted (sendCampaignEmail EmailTemplateMap 42 campaign_constructor_tag)
       initial_caches
       [ok (JObj [("id", JStr "S1")]); ok (JObj [("id", JStr "K1")]); ok JUndefined] in
   r = Returned (JObj [("campaignId", JStr "K1"); ("segmentId", JStr "S1")]) /\
   tr = [EvRequest (POST_segment "segment_L1_constructor__sender_123" "L1" "constructor")
           (ok (JObj [("id", JStr "S1")]));
         EvNow 0;
         EvRequest (POST_singlesend 42 "Campaign_creator-broadcast_0" (JStr "S1")
                      "d-broadcast00001234567890abc")
           (ok (JObj [("id", JStr "K1")]));
         EvRequest (POST_schedule "K1" JUndefined) (ok JUndefined)]).
Proof.
  split; [exact constructor_undeclared |]. split.
  - eexists. vm_compute. reflexivity.
  - vm_compute. split; reflexivity.
Qed.

(** The tag of the test suite, which no template declares either, is
    refused. *)
Example weekly_newsletter_is_refused :
  exists c',
    sendCampaignEmail EmailTemplateMap 42 campaign_weekly_newsletter initial_caches
    = Done (Threw (Error "Invalid tag: weekly_newsletter"), c').
Proof.
  exact (undeclared_tag_check EmailTemplateMap 42 campaign_weekly_newsletter
           initial_caches (coherent_initial _) shipped_templates_typed
           weekly_newsletter_undeclared).
Qed.

(** ** C1 *)

(** Every validation of [sendSimpleEmail] is over before its only request:
    the call either fails at once or starts with the mail request, and then
    all checks have passed. *)
Lemma sendSimpleEmail_validates_first REG options c :
  coherent REG c ->
  (exists e c', sendSimpleEmail REG options c = Done (Threw e, c')) \/
  (exists template k,
     addresses_pass options = true /\
     lookup_prop (templateKey options) REG = Some template /\
     missing_fields (requiredFields template) (dynamicTemplateData options) = [] /\
     check_field_types (customFieldTypes template) (dynamicTemplateData options)
       = Returned tt /\
     sendSimpleEmail REG options c
       = Await (MailSend (message_of options template)) k).
Proof.
  intros Hc. destruct (addresses_pass options) eqn:Hpass.
  - destruct (loadEmailTemplateConfig_coherent REG c Hc) as (c' & Hload & _).
    rewrite (sendSimpleEmail_good_address REG options c c' Hpass Hload).
    destruct (lookup_prop (templateKey options) REG) as [template |];
      [| left; eauto].
    simpl.
    destruct (missing_fields (requiredFields template) (dynamicTemplateData options))
      as [| f fs] eqn:Hmiss; simpl; [| left; eauto].
    destruct (check_field_types (customFieldTypes template)
                (dynamicTemplateData options)) as [[] | e] eqn:Hcheck;
      [| left; eauto].
    right. exists template. eexists.
    repeat (split; [reflexivity || assumption |]).
    unfold try_catch, request, message_of. simpl. reflexivity.
  - left. destruct (sendSimpleEmail_bad_address REG options c Hpass) as [e He].
    eauto.
Qed.

(** [sendCampaignEmail] looks at the tag only: with a declared tag its first
    step is the segment request, whatever the template key is. *)
Lemma sendCampaignEmail_segment_first
  (REG : Registry) (sender : Z) (options : CampaignOptions) (c : Caches)
  (m : gmap string string) (ty : string) :
  coherent REG c ->
  mergeTemplates ∅ (List.map snd REG) = Returned m ->
  m !! tag options = Some ty ->
  ty <> "" ->
  exists k,
    sendCampaignEmail REG sender options c =
    Await (POST_segment
             ("segment_" +:+ listId options +:+ "_" +:+ tag options
              +:+ "__sender_"
              +:+ js_toString (js_get (JObj (dynamicData options)) "senderId"))
             (listId options) (tag options)) k.
Proof.
  intros Hc Hm Hl Hty.
  destruct (buildFieldType_coherent REG c m Hc Hm) as (c' & Hbuild & _).
  unfold sendCampaignEmail. cbn zeta.
  rewrite (bind_returned _ _ _ _ _ Hbuild), Hl.
  apply String.eqb_neq in Hty. rewrite Hty.
  unfold bind, try_catch, request. simpl. eexists. reflexivity.
Qed.

(** C1 (not met by [sendCampaignEmail]).  With a declared tag and a
    template key that the registry does not have, the campaign call does not
    fail up front: its first step is the segment request, and only after the
    remote has answered does the missing template surface, as a TypeError. *)
Theorem C1_campaign_unknown_template_reaches_remote :
  lookup_prop (campaignTemplateKey campaign_unknown_template) EmailTemplateMap
    = None /\
  (exists k,
     sendCampaignEmail EmailTemplateMap 42 campaign_unknown_template initial_caches
     = Await (POST_segment "segment_L1_order_id__sender_123" "L1" "order_id") k) /\
  (let '((r, _), _, tr) :=
     run scripted (sendCampaignEmail EmailTemplateMap 42 campaign_unknown_template)
       initial_caches [ok (JObj [("id", JStr "S1")])] in
   r = Threw (TypeError "Cannot read properties of undefined (reading 'templateId')")
   /\ tr = [EvRequest (POST_segment "segment_L1_order_id__sender_123" "L1" "order_id")
              (ok (JObj [("id", JStr "S1")]));
            EvNow 0]).
Proof.
  split; [reflexivity |]. split.
  - eexists. vm_compute. reflexivity.
  - vm_compute. split; reflexivity.
Qed.

(* ================================================================== *)
(** * The service: retries *)
(* ================================================================== *)

Lemma isRateLimit_iff (err : JsError) : isRateLimit err = true <-> carries_429 err.
Proof.
  unfold isRateLimit, carries_429.
  destruct (js_get_opt (response err) "statusCode") as [| | b | x | s | l | o];
    simpl; split; try discriminate.
  - intros H. apply Z.eqb_eq in H. congruence.
  - intros H. injection H as ->. reflexivity.
Qed.

Lemma isRateLimit_false_iff (err : JsError) :
  isRateLimit err = false <-> ~ carries_429 err.
Proof.
  rewrite <- isRateLimit_iff. destruct (isRateLimit err); split; congruence.
Qed.

Section RetryLoop.

Context {A : Type}.
Variable R : Remote.
Variable fn : M A.
Variables n d m : Z.

(** The loop of the source follows the policy from any attempt number on,
    provided the iterations it is given cover the attempts that are left. *)
Lemma retry_loop_policy (fuel : nat) :
  forall (k : Z) (c : Caches) (w : World R),
    (n - k + 1 <= Z.of_nat fuel)%Z ->
    let '(rc, w', tr) := run R (retry_loop fn n d m fuel k) c w in
    Retries R fn n d m k c w rc w' tr.
Proof.
  induction fuel as [| fuel IH]; intros k c w Hfuel.
  - cbn [retry_loop]. rewrite run_ret. apply retries_none. lia.
  - cbn [retry_loop]. destruct (k <=? n)%Z eqn:Hle.
    + apply Z.leb_le in Hle.
      rewrite run_try_catch, run_bind.
      destruct (run R fn c w) as [[[r c1] w1] t1] eqn:Hfn.
      destruct r as [x | e]; cbn beta iota.
      * rewrite run_ret, app_nil_r. apply retries_success; assumption.
      * destruct (isRateLimit e) eqn:Hrate; cbn [negb orb].
        -- apply isRateLimit_iff in Hrate.
           destruct (k =? n)%Z eqn:Hlast.
           ++ apply Z.eqb_eq in Hlast.
              rewrite run_throw, app_nil_r.
              apply retries_last_attempt; assumption.
           ++ apply Z.eqb_neq in Hlast.
              rewrite run_bind, run_sleep. cbn beta iota.
              specialize (IH (k + 1)%Z c1 (wait R (Z.min (d * k) m) w1)).
              destruct (run R (retry_loop fn n d m fuel (k + 1)) c1
                          (wait R (Z.min (d * k) m) w1)) as [[rc w2] t2].
              cbn [app]. apply retries_again with (e := e) (c1 := c1) (w1 := w1);
                try assumption; [lia |].
              apply IH. lia.
        -- apply isRateLimit_false_iff in Hrate.
           rewrite run_throw, app_nil_r.
           apply retries_other_failure; assumption.
    + apply Z.leb_gt in Hle. rewrite run_ret. apply retries_none. exact Hle.
Qed.

End RetryLoop.

(** ** C3 *)

(** C3.  For every operation [fn], retry count [n], initial delay [d] and
    maximum delay [m], a run of [_withRetry] follows the retry policy from
    attempt 1: a result is returned as it is; a failure without status 429,
    and a 429 failure on attempt [n], is rethrown at once; a 429 failure on
    attempt [k < n] is followed by a wait of min(d * k, m), linear in the
    attempt number, and by attempt [k + 1].  A retry count left out is 3
    (and the delays left out are 500 and 3000). *)
Theorem C3_withRetry_policy {A : Type} (R : Remote) (fn : M A) (n d m : Z)
  (c : Caches) (w : World R) :
  (let '(rc, w', tr) := run R (_withRetry fn (Some n) (Some d) (Some m)) c w in
   Retries R fn n d m 1 c w rc w' tr) /\
  (let '(rc, w', tr) := run R (_withRetry fn None (Some d) (Some m)) c w in
   Retries R fn 3 d m 1 c w rc w' tr) /\
  (let '(rc, w', tr) := run R (_withRetry fn None None None) c w in
   Retries R fn 3 500 3000 1 c w rc w' tr).
Proof.
  unfold _withRetry. cbn [default].
  split; [| split]; apply retry_loop_policy; unfold id; lia.
Qed.

(** Three rate-limited answers in a row: three attempts, waits of 500 and
    1000 in between, and the last error is rethrown. *)
Example withRetry_default_gives_up_after_three :
  let '((r, _), w, tr) :=
    run scripted (_withRetry (request GET_lists) None None None) initial_caches
      [rate_limited; rate_limited; rate_limited; roster []] in
  r = Threw {| message := "Too Many Requests";
               response := JObj [("statusCode", JNum 429)] |} /\
  w = [roster []] /\
  tr = [EvRequest GET_lists rate_limited; EvSleep 500;
        EvRequest GET_lists rate_limited; EvSleep 1000;
        EvRequest GET_lists rate_limited].
Proof. vm_compute. repeat split; reflexivity. Qed.

(** With a small maximum the wait is capped. *)
Example withRetry_wait_is_capped :
  let '((r, _), _, tr) :=
    run scripted
      (_withRetry (request GET_lists) (Some 5%Z) (Some 500%Z) (Some 1000%Z))
      initial_caches
      [rate_limited; rate_limited; rate_limited; roster []] in
  r = Returned (Some {| statusCode := 200; body := JObj [("result", JArr [])] |}) /\
  tr = [EvRequest GET_lists rate_limited; EvSleep 500;
        EvRequest GET_lists rate_limited; EvSleep 1000;
        EvRequest GET_lists rate_limited; EvSleep 1000;
        EvRequest GET_lists (roster [])].
Proof. vm_compute. repeat split; reflexivity. Qed.

(* ================================================================== *)
(** * The service: sender lists *)
(* ================================================================== *)

(** ** C2 *)

(** A roster read that does not show the list ends the verification: the
    error of [poll] carries no status 429, so the retry helper rethrows it
    on the first attempt. *)
Lemma poll_miss_is_final (R : Remote) (listName : string) c w c1 w1 t1 :
  run R (poll listName) c w = ((Threw (Error "List not yet verified"), c1), w1, t1) ->
  run R (_withRetry (poll listName) (Some 5%Z) (Some 500%Z) (Some 1000%Z)) c w
  = ((Threw (Error "List not yet verified"), c1), w1, t1).
Proof.
  intros H. unfold _withRetry. cbn [default from_option id].
  change (Z.to_nat 5) with 5%nat. cbn [retry_loop].
  change (1 <=? 5)%Z with true. cbn beta iota.
  rewrite run_try_catch, run_bind, H. cbn beta iota.
  change (isRateLimit (Error "List not yet verified")) with false.
  cbn [negb orb]. rewrite run_throw, app_nil_r. reflexivity.
Qed.

(** Whatever the remote: once the list has been found or created, a first
    verification read without the list ends the call with the hard failure,
    after that single read. *)
Lemma ensureSenderListExists_first_miss (R : Remote) (senderId : string)
  c w l c1 w1 t1 lists c2 w2 t2 :
  run R (ensureListExistsByName (_formatListNameForSender senderId)) c w
    = ((Returned l, c1), w1, t1) ->
  run R (fetchAllSenderLists true) c1 w1 = ((Returned lists, c2), w2, t2) ->
  find_by_name lists (_formatListNameForSender senderId) = Returned JUndefined ->
  run R (ensureSenderListExists senderId) c w
  = ((Threw (Error ("List creation failed: "
                    +:+ _formatListNameForSender senderId)), c2),
     w2, t1 ++ t2).
Proof.
  intros Hensure Hfetch Hfind.
  assert (Hpoll : run R (poll (_formatListNameForSender senderId)) c1 w1
                  = ((Threw (Error "List not yet verified"), c2), w2, t2)).
  { unfold poll. rewrite run_bind, Hfetch. cbn beta iota.
    rewrite run_bind, run_lift, Hfind. cbn beta iota. cbn [truthy negb].
    rewrite run_throw, !app_nil_r. reflexivity. }
  unfold ensureSenderListExists. cbn zeta.
  rewrite run_bind, Hensure. cbn beta iota.
  rewrite run_try_catch, run_bind, (poll_miss_is_final R _ _ _ _ _ _ Hpoll).
  cbn beta iota. rewrite run_throw, app_nil_r. reflexivity.
Qed.

(** C2 (not met by the code).  Sender "123": the list is created and shows
    in the settle re-query, the first verification read misses it.  The
    call fails with "List creation failed: sender_123_list" on that first
    miss, without any wait and without a second read, although four
    attempts are left and the next answer of the remote would show the
    list. *)
Theorem C2_first_miss_is_fatal :
  let '((r, _), w, tr) :=
    run scripted (ensureSenderListExists "123") initial_caches flapping_roster in
  r = Threw (Error "List creation failed: sender_123_list") /\
  w = [roster [list_123]] /\
  tr = [EvRequest GET_lists (roster []);
        EvRequest (POST_list "sender_123_list") (ok JNull);
        EvSleep 1000;
        EvRequest GET_lists (roster [list_123]);
        EvRequest GET_lists (roster [])].
Proof. vm_compute. repeat split; reflexivity. Qed.

(** What the verification loop does retry: a rate-limited roster read. *)
Example verification_retries_rate_limits :
  let '((r, _), _, tr) :=
    run scripted (ensureSenderListExists "123") initial_caches
      [roster [list_123];
       rate_limited; rate_limited; rate_limited;
       roster [list_123]] in
  r = Returned list_123 /\
  tr = [EvRequest GET_lists (roster [list_123]);
        EvRequest GET_lists rate_limited; EvSleep 500;
        EvRequest GET_lists rate_limited; EvSleep 1000;
        EvRequest GET_lists rate_limited;
        EvSleep 500;
        EvRequest GET_lists (roster [list_123])].
Proof. vm_compute. repeat split; reflexivity. Qed.

(** ** Traces of a retried request *)

Lemma count_events_app p (a b : list Event) :
  count_events p (a ++ b) = (count_events p a + count_events p b)%nat.
Proof. unfold count_events. rewrite List.filter_app, length_app. reflexivity. Qed.

Lemma count_events_le p q (tr : list Event) :
  (forall ev, p ev = true -> q ev = true) ->
  (count_events p tr <= count_events q tr)%nat.
Proof.
  intros H. unfold count_events. induction tr as [| ev tr IH]; simpl; [lia |].
  destruct (p ev) eqn:Hp.
  - rewrite (H ev Hp). simpl. lia.
  - destruct (q ev); simpl; lia.
Qed.

Lemma only_request_app r (a b : list Event) :
  only_request r a -> only_request r b -> only_request r (a ++ b).
Proof. unfold only_request. intros Ha Hb. apply Forall_app. split; assumption. Qed.

Lemma only_request_no_create r tr :
  only_request r tr -> is_create r = false -> create_requests tr = 0%nat.
Proof.
  unfold only_request, create_requests, count_events. intros H Hr.
  induction H as [| ev tr Hev _ IH]; simpl; [reflexivity |].
  destruct ev as [r' o | ms | t]; simpl; try exact IH.
  subst r'. rewrite Hr. exact IH.
Qed.

Lemma only_request_all_create r tr :
  only_request r tr -> is_create r = true ->
  create_requests tr = count_events is_request tr /\
  accepted_creates tr = count_events is_resolved_request tr.
Proof.
  unfold only_request, create_requests, accepted_creates, count_events.
  intros H Hr.
  induction H as [| ev tr Hev _ [IH1 IH2]]; simpl; [split; reflexivity |].
  destruct ev as [r' o | ms | t]; simpl; try (split; assumption).
  subst r'. rewrite Hr. destruct o; simpl; split; lia.
Qed.

Section RetriedRequest.

Variable R : Remote.
Variable req : Req.
Variables n d m : Z.

(** Retrying a single request: the caches are untouched, the trace holds
    only that request and waits, at most one request per iteration, and no
    request follows one that the remote has resolved. *)
Lemma retry_request_trace (fuel : nat) :
  forall k c w r c' w' tr,
    run R (retry_loop (request req) n d m fuel k) c w = ((r, c'), w', tr) ->
    c' = c /\
    only_request req tr /\
    (count_events is_request tr <= fuel)%nat /\
    (count_events is_resolved_request tr <= 1)%nat /\
    (fuel <> 0%nat -> (k <= n)%Z -> (1 <= count_events is_request tr)%nat).
Proof.
  assert (Hnil : forall (c : Caches) (f : nat) (k : Z),
             (f = 0%nat \/ (n < k)%Z) ->
             c = c /\ only_request req [] /\
             (count_events is_request [] <= f)%nat /\
             (count_events is_resolved_request [] <= 1)%nat /\
             (f <> 0%nat -> (k <= n)%Z -> (1 <= count_events is_request [])%nat)).
  { intros c f k Hf. split; [reflexivity |]. split; [constructor |].
    unfold count_events. simpl. repeat split; lia. }
  assert (Hone : forall (c : Caches) (f : nat) (k : Z) (o : Outcome),
             c = c /\ only_request req [EvRequest req o] /\
             (count_events is_request [EvRequest req o] <= S f)%nat /\
             (count_events is_resolved_request [EvRequest req o] <= 1)%nat /\
             (S f <> 0%nat -> (k <= n)%Z ->
              (1 <= count_events is_request [EvRequest req o])%nat)).
  { intros c f k o. split; [reflexivity |].
    split; [repeat constructor |].
    unfold count_events. destruct o; simpl; repeat split; lia. }
  induction fuel as [| fuel IH]; intros k c w r c' w' tr Hrun.
  - cbn [retry_loop] in Hrun. rewrite run_ret in Hrun.
    injection Hrun as <- <- <- <-. apply Hnil. left. reflexivity.
  - cbn [retry_loop] in Hrun. destruct (k <=? n)%Z eqn:Hle.
    + rewrite run_try_catch, run_bind, run_request in Hrun.
      destruct (serve R w req) as [o w1]. destruct o as [res | err];
        cbn beta iota in Hrun.
      * rewrite run_ret in Hrun. injection Hrun as <- <- <- <-.
        apply (Hone c fuel k).
      * destruct (negb (isRateLimit err) || (k =? n)%Z) eqn:Hstop.
        -- rewrite run_throw in Hrun. injection Hrun as <- <- <- <-.
           apply (Hone c fuel k).
        -- rewrite run_bind, run_sleep in Hrun. cbn beta iota in Hrun.
           destruct (run R (retry_loop (request req) n d m fuel (k + 1)) c
                       (wait R (Z.min (d * k) m) w1))
             as [[[r2 c2] w2] t2] eqn:Hrest.
           injection Hrun as <- <- <- <-.
           destruct (IH _ _ _ _ _ _ _ Hrest) as (Hc & Hon & Hcnt & Hres & _).
           split; [exact Hc |].
           split; [repeat constructor; exact Hon |].
           unfold count_events in *. cbn. repeat split; lia.
    + rewrite run_ret in Hrun. injection Hrun as <- <- <- <-.
      apply Z.leb_gt in Hle. apply Hnil. right. exact Hle.
Qed.

(** Each request of the loop but the last was rejected with status 429. *)
Lemma retry_request_throttled (fuel : nat) :
  forall k c w r c' w' tr,
    run R (retry_loop (request req) n d m fuel k) c w = ((r, c'), w', tr) ->
    (count_events is_request tr <= 1 + count_events is_throttled tr)%nat.
Proof.
  induction fuel as [| fuel IH]; intros k c w r c' w' tr Hrun.
  - cbn [retry_loop] in Hrun. rewrite run_ret in Hrun.
    injection Hrun as <- <- <- <-. unfold count_events. simpl. lia.
  - cbn [retry_loop] in Hrun. destruct (k <=? n)%Z.
    + rewrite run_try_catch, run_bind, run_request in Hrun.
      destruct (serve R w req) as [o w1]. destruct o as [res | err];
        cbn beta iota in Hrun.
      * rewrite run_ret in Hrun. injection Hrun as <- <- <- <-.
        unfold count_events. simpl. lia.
      * destruct (negb (isRateLimit err) || (k =? n)%Z) eqn:Hstop.
        -- rewrite run_throw in Hrun. injection Hrun as <- <- <- <-.
           unfold count_events. simpl. destruct (isRateLimit err); simpl; lia.
        -- apply orb_false_iff in Hstop as [Hlim _].
           apply negb_false_iff in Hlim.
           rewrite run_bind, run_sleep in Hrun. cbn beta iota in Hrun.
           destruct (run R (retry_loop (request req) n d m fuel (k + 1)) c
                       (wait R (Z.min (d * k) m) w1))
             as [[[r2 c2] w2] t2] eqn:Hrest.
           injection Hrun as <- <- <- <-.
           specialize (IH _ _ _ _ _ _ _ Hrest).
           unfold count_events in *. cbn. rewrite Hlim. cbn. lia.
    + rewrite run_ret in Hrun. injection Hrun as <- <- <- <-.
      unfold count_events. simpl. lia.
Qed.

End RetriedRequest.

Lemma withRetry_request_trace (R : Remote) (req : Req) c w r c' w' tr :
  run R (_withRetry (request req) None None None) c w = ((r, c'), w', tr) ->
  c' = c /\
  only_request req tr /\
  (1 <= count_events is_request tr <= 3)%nat /\
  (count_events is_resolved_request tr <= 1)%nat.
Proof.
  unfold _withRetry. cbn [default from_option id].
  change (Z.to_nat 3) with 3%nat. intros H.
  destruct (retry_request_trace R req 3 500 3000 3 _ _ _ _ _ _ _ H)
    as (Hc & Hon & Hcnt & Hres & Hone).
  repeat split; try assumption. apply Hone; [congruence | lia].
Qed.

(** ** The roster read and the find-or-create step, as runs *)

Lemma run_get_caches (R : Remote) c w :
  run R get_caches c w = ((Returned c, c), w, []).
Proof. reflexivity. Qed.

Lemma run_put_caches (R : Remote) c' c w :
  run R (put_caches c') c w = ((Returned tt, c'), w, []).
Proof. reflexivity. Qed.

Lemma run_fetch_force (R : Remote) c w :
  run R (fetchAllSenderLists true) c w =
  let '((r, c1), w1, t1) :=
    run R (_withRetry (request GET_lists) None None None) c w in
  (match r with
   | Threw e => (Threw e, c1)
   | Returned None => (Threw (TypeError "undefined is not iterable"), c1)
   | Returned (Some res) =>
       if is_nullish (body res)
       then (Threw (TypeError
                      "Cannot read properties of undefined (reading 'result')"), c1)
       else (Returned (js_get (body res) "result"),
             {| templateCache := templateCache c1;
                fieldMapCache := fieldMapCache c1;
                listCache := js_get (body res) "result" |})
   end, w1, t1).
Proof.
  unfold fetchAllSenderLists.
  rewrite run_bind, run_get_caches. cbn beta iota.
  rewrite andb_false_r. rewrite run_bind.
  destruct (run R (_withRetry (request GET_lists) None None None) c w)
    as [[[r c1] w1] t1].
  destruct r as [[res |] | e]; cbn beta iota; cbn [app].
  - rewrite run_bind. unfold destructure_first. rewrite run_ret. cbn beta iota.
    rewrite run_bind. unfold get_member.
    destruct (is_nullish (body res)).
    + rewrite run_throw. cbn beta iota. rewrite !app_nil_r. reflexivity.
    + rewrite run_ret. cbn beta iota.
      rewrite run_bind, run_get_caches. cbn beta iota.
      rewrite run_bind, run_put_caches. cbn beta iota.
      rewrite run_ret. rewrite !app_nil_r. reflexivity.
  - rewrite run_bind. unfold destructure_first. rewrite run_throw.
    cbn beta iota. rewrite !app_nil_r. reflexivity.
  - reflexivity.
Qed.

(** A forced roster read issues roster requests only. *)
Lemma fetch_force_trace (R : Remote) c w r c' w' tr :
  run R (fetchAllSenderLists true) c w = ((r, c'), w', tr) ->
  only_request GET_lists tr.
Proof.
  rewrite run_fetch_force.
  destruct (run R (_withRetry (request GET_lists) None None None) c w)
    as [[[r0 c1] w1] t1] eqn:Hretry.
  intros H. injection H as _ _ <-.
  exact (proj1 (proj2 (withRetry_request_trace R GET_lists _ _ _ _ _ _ Hretry))).
Qed.

Lemma run_ensureListExistsByName (R : Remote) (listName : string) c w :
  run R (ensureListExistsByName listName) c w =
  let '((r, c1), w1, t1) := run R (fetchAllSenderLists true) c w in
  match r with
  | Threw e => ((Threw e, c1), w1, t1)
  | Returned lists =>
      match find_by_name lists listName with
      | Threw e => ((Threw e, c1), w1, t1)
      | Returned list =>
          if truthy list then ((Returned list, c1), w1, t1)
          else
            let '((rc, c2), w2, t2) :=
              run R (_withRetry (request (POST_list listName)) None None None)
                c1 w1 in
            match rc with
            | Threw e => ((Threw e, c2), w2, t1 ++ t2)
            | Returned _ =>
                let '((rf, c3), w3, t3) :=
                  run R (fetchAllSenderLists true) c2 (wait R 1000 w2) in
                (match rf with
                 | Threw e => (Threw e, c3)
                 | Returned newLists =>
                     match find_by_name newLists listName with
                     | Threw e => (Threw e, c3)
                     | Returned list' =>
                         if truthy list' then (Returned list', c3)
                         else (Threw (Error ("List creation failed after retry: "
                                             +:+ listName)), c3)
                     end
                 end, w3, t1 ++ t2 ++ EvSleep 1000 :: t3)
            end
      end
  end.
Proof.
  unfold ensureListExistsByName. rewrite run_bind.
  destruct (run R (fetchAllSenderLists true) c w) as [[[r c1] w1] t1].
  destruct r as [lists | e]; [| reflexivity].
  rewrite run_bind, run_lift.
  destruct (find_by_name lists listName) as [list | e]; cbn beta iota;
    [| rewrite app_nil_r; reflexivity].
  destruct (truthy list); cbn [negb].
  - rewrite run_ret. rewrite !app_nil_r. reflexivity.
  - rewrite run_bind.
    destruct (run R (_withRetry (request (POST_list listName)) None None None)
                c1 w1) as [[[rc c2] w2] t2].
    destruct rc as [x | e]; cbn beta iota; cbn [app]; [| reflexivity].
    rewrite run_bind, run_sleep. cbn beta iota. rewrite run_bind.
    destruct (run R (fetchAllSenderLists true) c2 (wait R 1000 w2))
      as [[[rf c3] w3] t3].
    destruct rf as [newLists | e]; cbn beta iota; cbn [app]; [| reflexivity].
    rewrite run_bind, run_lift.
    destruct (find_by_name newLists listName) as [list' | e]; cbn beta iota;
      [| rewrite !app_nil_r; reflexivity].
    destruct (truthy list'); cbn [negb];
      [rewrite run_ret | rewrite run_throw]; rewrite !app_nil_r; reflexivity.
Qed.

(** ** C5 *)

Lemma strict_eq_string (v : JsVal) (s : string) :
  strict_eq v (JStr s) = true -> v = JStr s.
Proof.
  destruct v; simpl; try discriminate.
  intros H. apply String.eqb_eq in H. congruence.
Qed.

(** What [find] gives back is [undefined] or an object of that name. *)
Lemma find_by_name_result (lists : JsVal) (listName : string) (l : JsVal) :
  find_by_name lists listName = Returned l ->
  l = JUndefined \/
  exists props, l = JObj props /\ lookup_prop "name" props = Some (JStr listName).
Proof.
  destruct lists as [| | b | x | s | elems | o]; simpl; try discriminate.
  induction elems as [| l0 elems IH]; simpl.
  - intros H. injection H as <-. left. reflexivity.
  - destruct (is_nullish l0); [discriminate |].
    destruct (strict_eq (js_get l0 "name") (JStr listName)) eqn:Heq; [| exact IH].
    intros H. injection H as <-. right.
    apply strict_eq_string in Heq.
    destruct l0 as [| | b | x | s | es | props]; simpl in Heq; try discriminate.
    exists props. split; [reflexivity |].
    destruct (lookup_prop "name" props); congruence.
Qed.

Lemma find_by_name_truthy (lists : JsVal) (listName : string) (l : JsVal) :
  find_by_name lists listName = Returned l ->
  truthy l = false -> l = JUndefined.
Proof.
  intros H Ht. destruct (find_by_name_result _ _ _ H) as [-> | (props & -> & _)];
    [reflexivity | discriminate Ht].
Qed.

Lemma create_requests_app (a b : list Event) :
  create_requests (a ++ b) = (create_requests a + create_requests b)%nat.
Proof. apply count_events_app. Qed.

Lemma accepted_creates_app (a b : list Event) :
  accepted_creates (a ++ b) = (accepted_creates a + accepted_creates b)%nat.
Proof. apply count_events_app. Qed.

Lemma only_request_no_accepted r tr :
  only_request r tr -> is_create r = false -> accepted_creates tr = 0%nat.
Proof.
  intros H Hr.
  pose proof (only_request_no_create r tr H Hr) as H0.
  assert (Hle : (accepted_creates tr <= create_requests tr)%nat).
  { apply count_events_le.
    intros [r' [res | err] | ms | t]; simpl; auto; discriminate. }
  unfold accepted_creates, create_requests in *. lia.
Qed.

Lemma fetch_force_no_create (R : Remote) c w r c' w' tr :
  run R (fetchAllSenderLists true) c w = ((r, c'), w', tr) ->
  create_requests tr = 0%nat /\ accepted_creates tr = 0%nat.
Proof.
  intros H. apply fetch_force_trace in H.
  split; [apply (only_request_no_create GET_lists) |
          apply (only_request_no_accepted GET_lists)]; auto.
Qed.

Lemma create_step_trace (R : Remote) (listName : string) c w r c' w' tr :
  run R (_withRetry (request (POST_list listName)) None None None) c w
    = ((r, c'), w', tr) ->
  (1 <= create_requests tr <= 3)%nat /\ (accepted_creates tr <= 1)%nat.
Proof.
  intros H.
  destruct (withRetry_request_trace R _ _ _ _ _ _ _ H) as (_ & Hon & Hcnt & Hres).
  destruct (only_request_all_create _ _ Hon eq_refl) as [-> ->].
  split; assumption.
Qed.

(** One call: the create request goes out at most three times, and the
    remote accepts it at most once; a list that is returned is an object. *)
Lemma ensure_trace_creates (R : Remote) (listName : string) c w r1 c1 w1 t1 :
  run R (ensureListExistsByName listName) c w = ((r1, c1), w1, t1) ->
  (create_requests t1 <= 3)%nat /\ (accepted_creates t1 <= 1)%nat /\
  (forall l, r1 = Returned l -> truthy l = true).
Proof.
  rewrite run_ensureListExistsByName.
  destruct (run R (fetchAllSenderLists true) c w) as [[[r c0] w0] t0] eqn:Hf.
  destruct (fetch_force_no_create R _ _ _ _ _ _ Hf) as [Hc0 Ha0].
  destruct r as [lists | e].
  2:{ intros H. injection H as <- _ _ <-. rewrite Hc0, Ha0.
      repeat split; try lia. discriminate. }
  destruct (find_by_name lists listName) as [list | e].
  2:{ intros H. injection H as <- _ _ <-. rewrite Hc0, Ha0.
      repeat split; try lia. discriminate. }
  destruct (truthy list) eqn:Htruthy.
  { intros H. injection H as <- _ _ <-. rewrite Hc0, Ha0.
    repeat split; try lia. intros l Hl. injection Hl as <-. exact Htruthy. }
  destruct (run R (_withRetry (request (POST_list listName)) None None None) c0 w0)
    as [[[rc c2] w2] t2] eqn:Hcreate.
  destruct (create_step_trace R _ _ _ _ _ _ _ Hcreate) as [Hc2 Ha2].
  destruct rc as [x | e].
  2:{ intros H. injection H as <- _ _ <-.
      rewrite create_requests_app, accepted_creates_app, Hc0, Ha0.
      repeat split; try lia. discriminate. }
  destruct (run R (fetchAllSenderLists true) c2 (wait R 1000 w2))
    as [[[rf c3] w3] t3] eqn:Hf3.
  destruct (fetch_force_no_create R _ _ _ _ _ _ Hf3) as [Hc3 Ha3].
  intros H. injection H as Hr _ <-.
  rewrite !create_requests_app, !accepted_creates_app.
  change (EvSleep 1000 :: t3) with ([EvSleep 1000] ++ t3).
  rewrite create_requests_app, accepted_creates_app, Hc0, Ha0, Hc3, Ha3.
  change (create_requests [EvSleep 1000]) with 0%nat.
  change (accepted_creates [EvSleep 1000]) with 0%nat.
  repeat split; try lia.
  intros l Hl. subst r1.
  destruct rf as [newLists | e]; [| discriminate Hr].
  destruct (find_by_name newLists listName) as [list' | e]; [| discriminate Hr].
  destruct (truthy list') eqn:Ht'; [| discriminate Hr].
  injection Hr as <- _. exact Ht'.
Qed.

(** A call on a remote whose roster shows the list returns it from the
    roster read alone. *)
Lemma ensure_when_listed (R : Remote) (listName : string) c w lists l c' w' t' :
  run R (fetchAllSenderLists true) c w = ((Returned lists, c'), w', t') ->
  find_by_name lists listName = Returned l ->
  truthy l = true ->
  run R (ensureListExistsByName listName) c w = ((Returned l, c'), w', t').
Proof.
  intros Hf Hfind Ht. rewrite run_ensureListExistsByName, Hf.
  cbn beta iota. rewrite Hfind, Ht. reflexivity.
Qed.

Lemma throttled_creates_app (a b : list Event) :
  throttled_creates (a ++ b) = (throttled_creates a + throttled_creates b)%nat.
Proof. apply count_events_app. Qed.

Lemma only_request_throttled_create r tr :
  only_request r tr -> is_create r = true ->
  throttled_creates tr = count_events is_throttled tr.
Proof.
  unfold only_request, throttled_creates, count_events. intros H Hr.
  induction H as [| ev tr Hev _ IH]; simpl; [reflexivity |].
  destruct ev as [r' o | ms | t]; simpl; try exact IH.
  subst r'. rewrite Hr. destruct o as [res | err]; simpl; [exact IH |].
  destruct (isRateLimit err); simpl; [f_equal |]; exact IH.
Qed.

(** The create step sends the request once more only after a rejection
    with status 429. *)
Lemma create_step_throttled (R : Remote) (listName : string) c w r c' w' tr :
  run R (_withRetry (request (POST_list listName)) None None None) c w
    = ((r, c'), w', tr) ->
  (create_requests tr <= 1 + throttled_creates tr)%nat.
Proof.
  intros H.
  destruct (withRetry_request_trace R _ _ _ _ _ _ _ H) as (_ & Hon & _ & _).
  destruct (only_request_all_create _ _ Hon eq_refl) as [-> _].
  rewrite (only_request_throttled_create _ _ Hon eq_refl).
  unfold _withRetry in H.
  exact (retry_request_throttled R _ _ _ _ _ _ _ _ _ _ _ _ H).
Qed.

(** One call sends at most one create request beyond those that the remote
    rejected with status 429. *)
Lemma ensure_trace_throttled (R : Remote) (listName : string) c w r1 c1 w1 t1 :
  run R (ensureListExistsByName listName) c w = ((r1, c1), w1, t1) ->
  (create_requests t1 <= 1 + throttled_creates t1)%nat.
Proof.
  rewrite run_ensureListExistsByName.
  destruct (run R (fetchAllSenderLists true) c w) as [[[r c0] w0] t0] eqn:Hf.
  destruct (fetch_force_no_create R _ _ _ _ _ _ Hf) as [Hc0 _].
  destruct r as [lists | e].
  2:{ intros H. injection H as _ _ _ <-. lia. }
  destruct (find_by_name lists listName) as [list | e].
  2:{ intros H. injection H as _ _ _ <-. lia. }
  destruct (truthy list).
  { intros H. injection H as _ _ _ <-. lia. }
  destruct (run R (_withRetry (request (POST_list listName)) None None None) c0 w0)
    as [[[rc c2] w2] t2] eqn:Hcreate.
  pose proof (create_step_throttled R _ _ _ _ _ _ _ Hcreate) as Hc2.
  destruct rc as [x | e].
  2:{ intros H. injection H as _ _ _ <-.
      rewrite create_requests_app, throttled_creates_app. lia. }
  destruct (run R (fetchAllSenderLists true) c2 (wait R 1000 w2))
    as [[[rf c3] w3] t3] eqn:Hf3.
  destruct (fetch_force_no_create R _ _ _ _ _ _ Hf3) as [Hc3 _].
  intros H. injection H as _ _ <-.
  rewrite !create_requests_app, !throttled_creates_app.
  change (EvSleep 1000 :: t3) with ([EvSleep 1000] ++ t3).
  rewrite create_requests_app, throttled_creates_app.
  change (create_requests [EvSleep 1000]) with 0%nat.
  lia.
Qed.

(** C5 as stated fails on a remote whose roster lags behind its writes: the
    read that opens the second call does not show the list that the first
    call created, so the second call sends a create request of its own.  No
    request is rejected in this run. *)
Lemma C5_counterexample :
  ~ twice_at_most_one_create scripted "sender_123_list" initial_caches
      lagging_roster.
Proof.
  unfold twice_at_most_one_create. vm_compute. intros [H _]. lia.
Qed.

(** The same run, event by event. *)
Example ensure_list_twice_on_lagging_roster :
  let '((r1, c1), w1, t1) :=
    run scripted (ensureListExistsByName "sender_123_list") initial_caches
      lagging_roster in
  let '((r2, _), _, t2) :=
    run scripted (ensureListExistsByName "sender_123_list") c1 w1 in
  r1 = Returned list_123 /\ r2 = Returned list_123 /\
  t1 = [EvRequest GET_lists (roster []);
        EvRequest (POST_list "sender_123_list") (ok JNull);
        EvSleep 1000;
        EvRequest GET_lists (roster [list_123])] /\
  t2 = [EvRequest GET_lists (roster []);
        EvRequest (POST_list "sender_123_list") (ok JNull);
        EvSleep 1000;
        EvRequest GET_lists (roster [list_123])].
Proof. vm_compute. repeat split; reflexivity. Qed.

(** A remote that answers the first create with status 429 receives it a
    second time from the retry helper. *)
Example ensure_list_throttled :
  let '((r, _), _, tr) :=
    run scripted (ensureListExistsByName "sender_123_list") initial_caches
      throttled_create in
  r = Returned list_123 /\
  tr = [EvRequest GET_lists (roster []);
        EvRequest (POST_list "sender_123_list") rate_limited;
        EvSleep 500;
        EvRequest (POST_list "sender_123_list") (ok JNull);
        EvSleep 1000;
        EvRequest GET_lists (roster [list_123])].
Proof. vm_compute. split; reflexivity. Qed.

(** C5 (amended).  For every list name and every remote, take two calls of
    [ensureListExistsByName] in a row.  (1) If the first call returns a list
    and the roster read that opens the second call shows that list under the
    name, the second call returns the same list and sends no create request,
    and the two calls send at most one create request in total, a create
    that the remote rejected with status 429, and that the retry helper
    therefore sent again, not being counted.  (2) If the roster read of the
    first call has no list of that name, the call sends the create request;
    when that succeeds it waits 1000 ms and reads the roster again, and it
    fails with "List creation failed after retry: <listName>" if the list
    is still not there. *)
Theorem C5_ensure_list_idempotent (R : Remote) (listName : string)
  (c : Caches) (w : World R) :
  let '((r1, c1), w1, t1) := run R (ensureListExistsByName listName) c w in
  let '((r2, _), _, t2) := run R (ensureListExistsByName listName) c1 w1 in
  (forall l lists c' w' t',
     r1 = Returned l ->
     run R (fetchAllSenderLists true) c1 w1 = ((Returned lists, c'), w', t') ->
     find_by_name lists listName = Returned l ->
     r2 = Returned l /\ create_requests t2 = 0%nat /\
     (create_requests (t1 ++ t2) <= 1 + throttled_creates (t1 ++ t2))%nat) /\
  (forall lists c' w' t',
     run R (fetchAllSenderLists true) c w = ((Returned lists, c'), w', t') ->
     find_by_name lists listName = Returned JUndefined ->
     let '((rc, c3), w3, tc) :=
       run R (_withRetry (request (POST_list listName)) None None None) c' w' in
     (1 <= create_requests tc)%nat /\
     match rc with
     | Threw e => r1 = Threw e /\ t1 = t' ++ tc
     | Returned _ =>
         let '((rf, _), _, tf) :=
           run R (fetchAllSenderLists true) c3 (wait R 1000 w3) in
         t1 = t' ++ tc ++ EvSleep 1000 :: tf /\
         match rf with
         | Threw e => r1 = Threw e
         | Returned newLists =>
             match find_by_name newLists listName with
             | Threw e => r1 = Threw e
             | Returned l =>
                 r1 = if truthy l then Returned l
                      else Threw (Error ("List creation failed after retry: "
                                         +:+ listName))
             end
         end
     end).
Proof.
  destruct (run R (ensureListExistsByName listName) c w)
    as [[[r1 c1] w1] t1] eqn:H1.
  destruct (run R (ensureListExistsByName listName) c1 w1)
    as [[[r2 c2] w2] t2] eqn:H2.
  destruct (ensure_trace_creates R _ _ _ _ _ _ _ H1) as (_ & _ & Htruthy).
  pose proof (ensure_trace_throttled R _ _ _ _ _ _ _ H1) as Hthr.
  split.
  - intros l lists c' w' t' Hr1 Hfetch Hfind.
    rewrite (ensure_when_listed R _ _ _ _ _ _ _ _ Hfetch Hfind (Htruthy l Hr1))
      in H2.
    injection H2 as <- _ _ <-.
    destruct (fetch_force_no_create R _ _ _ _ _ _ Hfetch) as [Hc _].
    rewrite create_requests_app, throttled_creates_app, Hc.
    repeat split; lia.
  - intros lists c' w' t' Hfetch Hfind.
    rewrite run_ensureListExistsByName, Hfetch in H1. cbn beta iota in H1.
    rewrite Hfind in H1. cbn [truthy] in H1.
    destruct (run R (_withRetry (request (POST_list listName)) None None None)
                c' w') as [[[rc c3] w3] tc] eqn:Hcreate.
    destruct (create_step_trace R _ _ _ _ _ _ _ Hcreate) as [[Hone _] _].
    split; [exact Hone |].
    destruct rc as [x | e].
    + destruct (run R (fetchAllSenderLists true) c3 (wait R 1000 w3))
        as [[[rf c4] w4] tf].
      injection H1 as Hr _ <-. split; [reflexivity |].
      destruct rf as [newLists | e]; [| injection Hr as <- _; reflexivity].
      destruct (find_by_name newLists listName) as [l | e];
        [| injection Hr as <- _; reflexivity].
      destruct (truthy l); injection Hr as <- _; reflexivity.
    + injection H1 as <- _ _ <-. split; reflexivity.
Qed.

(** On a remote where the created list stays visible: the first call
    creates and returns the list, the roster read of the second call shows
    it, and the second call returns the same list without a create request;
    one create request in all. *)
Lemma C5_witness :
  let '((r1, c1), w1, t1) :=
    run scripted (ensureListExistsByName "sender_123_list") initial_caches
      created_then_listed in
  let '((r2, _), _, t2) :=
    run scripted (ensureListExistsByName "sender_123_list") c1 w1 in
  r1 = Returned list_123 /\
  (exists c' w' t',
     run scripted (fetchAllSenderLists true) c1 w1
       = ((Returned (JArr [list_123]), c'), w', t')) /\
  find_by_name (JArr [list_123]) "sender_123_list" = Returned list_123 /\
  (r2 = Returned list_123 /\ create_requests t2 = 0%nat /\
   (create_requests (t1 ++ t2) <= 1 + throttled_creates (t1 ++ t2))%nat).
Proof.
  pose proof (C5_ensure_list_idempotent scripted "sender_123_list"
                initial_caches created_then_listed) as H.
  destruct (run scripted (ensureListExistsByName "sender_123_list")
              initial_caches created_then_listed) as [[[r1 c1] w1] t1] eqn:H1.
  destruct (run scripted (ensureListExistsByName "sender_123_list") c1 w1)
    as [[[r2 c2] w2] t2] eqn:H2.
  vm_compute in H1. injection H1 as <- <- <- <-.
  destruct H as (Hsame & _).
  assert (Hr : @Returned JsVal list_123 = Returned list_123) by reflexivity.
  assert (Hfetch : run scripted (fetchAllSenderLists true)
                     {| templateCache := None; fieldMapCache := None;
                        listCache := JArr [list_123] |} [roster [list_123]]
                   = ((Returned (JArr [list_123]),
                       {| templateCache := None; fieldMapCache := None;
                          listCache := JArr [list_123] |}), [],
                      [EvRequest GET_lists (roster [list_123])]))
    by (vm_compute; reflexivity).
  assert (Hfind : find_by_name (JArr [list_123]) "sender_123_list"
                  = Returned list_123) by reflexivity.
  split; [reflexivity |].
  split; [eexists; eexists; eexists; exact Hfetch |].
  split; [exact Hfind |].
  exact (Hsame list_123 (JArr [list_123]) _ _ _ Hr Hfetch Hfind).
Defined.

(* ================================================================== *)
(** * The service: subscribe and unsubscribe *)
(* ================================================================== *)

Lemma update_failure_local (e : JsError) :
  response e = JUndefined ->
  update_failure e = Threw (Error "Failed to update recipient fields").
Proof.
  intros H. unfold update_failure, remote_messages_or. rewrite H. reflexivity.
Qed.

Lemma verify_fields_error_local contact subscribe entries e :
  verify_fields contact subscribe entries = Threw e -> response e = JUndefined.
Proof.
  induction entries as [| [field value] entries IH]; simpl; [discriminate |].
  destruct (subscribe && negb (member_is (current_member contact field) value)).
  - intros H. injection H as <-. reflexivity.
  - destruct (negb subscribe
              && negb (member_nullish (current_member contact field))).
    + intros H. injection H as <-. reflexivity.
    + exact IH.
Qed.

(** A verification read that yields data yields the stored value. *)
Lemma current_member_data contact field x :
  current_member contact field = Data x -> current_value contact field = x.
Proof.
  unfold current_member, current_value, member_opt, js_get_opt.
  destruct (js_get contact "custom_fields") as [| | b | n | s | l | props];
    cbn [is_nullish]; try (intros H; injection H as <-; reflexivity);
    try (destruct (inherited field); [discriminate |];
         intros H; injection H as <-; reflexivity).
  cbn [js_get]. destruct (lookup_prop field props) as [y |].
  - intros H. injection H as <-. reflexivity.
  - destruct (inherited field); [discriminate |].
    intros H. injection H as <-. reflexivity.
Qed.

(** One turn of the verification loop passes exactly if the field holds the
    expected value and the read did not end at an inherited member. *)
Lemma verify_turn contact (subscribe : bool) field value :
  (if subscribe then member_is (current_member contact field) value
   else member_nullish (current_member contact field))
  = holds_expected contact subscribe field value
    && negb (reads_builtin contact field).
Proof.
  unfold holds_expected, reads_builtin.
  destruct (current_member contact field) as [x | name] eqn:Hm.
  - rewrite (current_member_data _ _ _ Hm), andb_true_r. reflexivity.
  - rewrite andb_false_r. destruct subscribe; reflexivity.
Qed.

Lemma verify_fields_cons contact (subscribe : bool) field value entries :
  verify_fields contact subscribe ((field, value) :: entries) =
  if holds_expected contact subscribe field value
     && negb (reads_builtin contact field)
  then verify_fields contact subscribe entries
  else Threw (Error (if subscribe
                     then "Field '" +:+ field +:+ "' was not set to '"
                          +:+ js_toString value +:+ "'"
                     else "Field '" +:+ field +:+ "' was not cleared")).
Proof.
  rewrite <- verify_turn. cbn [verify_fields].
  destruct subscribe; cbn [andb negb].
  - destruct (member_is (current_member contact field) value); reflexivity.
  - destruct (member_nullish (current_member contact field)); reflexivity.
Qed.

Lemma verify_fields_ok contact subscribe entries :
  verify_fields contact subscribe entries = Returned tt <->
  forall field value,
    In (field, value) entries ->
    holds_expected contact subscribe field value = true /\
    reads_builtin contact field = false.
Proof.
  induction entries as [| [f v] entries IH].
  - split; [intros _ field value [] | reflexivity].
  - rewrite verify_fields_cons.
    destruct (holds_expected contact subscribe f v
              && negb (reads_builtin contact f)) eqn:E.
    + rewrite IH. apply andb_true_iff in E as [E1 E2].
      apply negb_true_iff in E2. split.
      * intros H field value [Hin | Hin]; [| exact (H field value Hin)].
        injection Hin as <- <-. split; assumption.
      * intros H field value Hin. apply (H field value). right. exact Hin.
    + split; [discriminate |].
      intros H. destruct (H f v (or_introl eq_refl)) as [E1 E2].
      rewrite E1, E2 in E. discriminate E.
Qed.

(** A field that does not hold the expected value stops the loop. *)
Lemma verify_fields_fails contact subscribe entries field value :
  In (field, value) entries ->
  holds_expected contact subscribe field value = false ->
  exists e, verify_fields contact subscribe entries = Threw e.
Proof.
  intros Hin Hno.
  destruct (verify_fields contact subscribe entries) as [[] | e] eqn:Hv;
    [| eauto].
  destruct (proj1 (verify_fields_ok _ _ _) Hv field value Hin) as [Hyes _].
  congruence.
Qed.

Lemma found_contact_no_body (checkRes : Response) :
  is_nullish (body checkRes) = true -> truthy (found_contact checkRes) = false.
Proof.
  intros H. unfold found_contact. unfold js_get_opt at 2. rewrite H. reflexivity.
Qed.

Lemma found_contact_body (checkRes : Response) :
  is_nullish (body checkRes) = false ->
  found_contact checkRes = js_get_opt (js_get (body checkRes) "result") "0".
Proof.
  intros H. unfold found_contact. unfold js_get_opt at 2. rewrite H. reflexivity.
Qed.

Lemma run_subscribe (R : Remote) (email listId : string) (customFields : JsObj)
  (subscribe : bool) c w :
  _isValidEmail email = true ->
  run R (subscribeOrUnsubscribeRecipientFromSenderListByTag
           email listId (Some customFields) subscribe) c w =
  let put := PUT_contacts (upsert_payload email listId customFields subscribe) in
  let '(o1, w1) := serve R w put in
  match o1 with
  | Rejected err => ((update_failure err, c), w1, [EvRequest put o1])
  | Resolved res =>
      let '(o2, w2) := serve R w1 (POST_contact_search email) in
      ((match o2 with
        | Rejected err => update_failure err
        | Resolved checkRes =>
            verification_outcome res checkRes subscribe customFields
        end, c), w2,
       [EvRequest put o1; EvRequest (POST_contact_search email) o2])
  end.
Proof.
  intros Hvalid. unfold subscribeOrUnsubscribeRecipientFromSenderListByTag.
  cbn [default from_option id]. unfold id. rewrite Hvalid. cbn [negb].
  cbn zeta.
  assert (Hcatch : forall err c0 w0,
            run R (let* detail :=
                     lift (remote_messages_or err "Failed to update recipient fields") in
                   @throw JsVal (Error detail)) c0 w0
            = ((update_failure err, c0), w0, [])).
  { intros err c0 w0. rewrite run_bind, run_lift. unfold update_failure.
    destruct (remote_messages_or err "Failed to update recipient fields");
      reflexivity. }
  rewrite run_try_catch, run_bind, run_request.
  destruct (serve R w (PUT_contacts (upsert_payload email listId customFields subscribe)))
    as [o1 w1].
  destruct o1 as [res | err]; cbn beta iota.
  2:{ rewrite Hcatch. reflexivity. }
  rewrite run_bind, run_request.
  destruct (serve R w1 (POST_contact_search email)) as [o2 w2].
  destruct o2 as [checkRes | err]; cbn beta iota.
  2:{ rewrite Hcatch. reflexivity. }
  unfold verification_outcome.
  rewrite run_bind. unfold get_member.
  destruct (is_nullish (body checkRes)) eqn:Hbody.
  { rewrite run_throw. cbn beta iota. rewrite Hcatch.
    rewrite (found_contact_no_body _ Hbody).
    rewrite update_failure_local by reflexivity. reflexivity. }
  rewrite run_ret. cbn beta iota.
  rewrite (found_contact_body _ Hbody).
  destruct (truthy (js_get_opt (js_get (body checkRes) "result") "0")) eqn:Hc;
    cbn [negb].
  2:{ rewrite run_throw. cbn beta iota. rewrite Hcatch.
      rewrite update_failure_local by reflexivity. reflexivity. }
  rewrite run_bind, run_lift.
  destruct (verify_fields _ subscribe customFields) as [[] | e] eqn:Hv;
    cbn beta iota.
  - rewrite run_ret. reflexivity.
  - rewrite Hcatch.
    rewrite (update_failure_local e (verify_fields_error_local _ _ _ _ Hv)).
    reflexivity.
Qed.

(** ** C4 *)

(** C4 as stated fails for an address that the validator rejects: the call
    throws before a payload is built, and no upsert request goes out. *)
Lemma C4_counterexample :
  ~ issues_one_upsert scripted "not-an-email" "L1" weekly_newsletter_on true
      initial_caches [ok JNull; contact_with weekly_newsletter_on].
Proof. unfold issues_one_upsert. vm_compute. discriminate. Qed.

Example subscribe_invalid_email :
  run scripted
    (subscribeOrUnsubscribeRecipientFromSenderListByTag
       "not-an-email" "L1" (Some weekly_newsletter_on) true)
    initial_caches [ok JNull; contact_with weekly_newsletter_on]
  = ((Threw (Error "Invalid email format: not-an-email"), initial_caches),
     [ok JNull; contact_with weekly_newsletter_on], []).
Proof. vm_compute. reflexivity. Qed.

Lemma cleared_keys (customFields : JsObj) :
  List.map fst (cleared customFields) = List.map fst customFields /\
  Forall (fun kv => snd kv = JNull) (cleared customFields).
Proof.
  unfold cleared. induction customFields as [| [k v] rest [IH1 IH2]]; simpl.
  - split; [reflexivity | constructor].
  - split; [f_equal; exact IH1 | constructor; [reflexivity | exact IH2]].
Qed.

(** C4 (amended).  For every email that passes the address check, every
    listId and customFields map: the call sends exactly one upsert request,
    first of all; its single contact carries the email, the list
    [[listId]] and the custom fields as given when subscribing, no [list_ids]
    and every key of customFields set to null when unsubscribing.  Once the
    upsert has resolved the call searches the contact again, and nothing
    else.  When both requests have resolved, the call fails with the message
    "Failed to update recipient fields" whenever some custom field does not
    hold the expected value (the given one when subscribing, none when
    unsubscribing), and it never ends otherwise than with that failure or
    with the body of the upsert response.  For a contact whose
    [custom_fields] is an object or is missing, it returns that body exactly
    if a contact is found, every field holds the expected value, and no
    verification read ends at a member inherited from [Object.prototype]. *)
Theorem C4_subscribe_upsert_and_verify (R : Remote) (email listId : string)
  (customFields : JsObj) (subscribe : bool) (c : Caches) (w : World R) :
  _isValidEmail email = true ->
  let put := PUT_contacts (upsert_payload email listId customFields subscribe) in
  let '((r, _), _, tr) :=
    run R (subscribeOrUnsubscribeRecipientFromSenderListByTag
             email listId (Some customFields) subscribe) c w in
  (upsert_requests tr = 1%nat /\
   ((exists err, tr = [EvRequest put (Rejected err)]) \/
    (exists res o2, tr = [EvRequest put (Resolved res);
                          EvRequest (POST_contact_search email) o2]))) /\
  (exists fields,
     upsert_payload email listId customFields subscribe =
       JObj [("contacts",
               JArr [JObj [("email", JStr email);
                           ("list_ids",
                             if subscribe then JArr [JStr listId] else JUndefined);
                           ("custom_fields", JObj fields)]])] /\
     if subscribe then fields = customFields
     else List.map fst fields = List.map fst customFields /\
          Forall (fun kv => snd kv = JNull) fields) /\
  (forall res checkRes,
     tr = [EvRequest put (Resolved res);
           EvRequest (POST_contact_search email) (Resolved checkRes)] ->
     ((exists field value,
         In (field, value) customFields /\
         holds_expected (found_contact checkRes) subscribe field value = false) ->
      r = Threw (Error "Failed to update recipient fields")) /\
     (r = Returned (body res) \/
      r = Threw (Error "Failed to update recipient fields")) /\
     (plain_fields (found_contact checkRes) = true ->
      (r = Returned (body res) <->
       truthy (found_contact checkRes) = true /\
       forall field value,
         In (field, value) customFields ->
         holds_expected (found_contact checkRes) subscribe field value = true /\
         reads_builtin (found_contact checkRes) field = false))).
Proof.
  intros Hvalid put.
  rewrite (run_subscribe R email listId customFields subscribe c w Hvalid).
  fold put. cbn zeta.
  assert (Hpayload : exists fields,
     upsert_payload email listId customFields subscribe =
       JObj [("contacts",
               JArr [JObj [("email", JStr email);
                           ("list_ids",
                             if subscribe then JArr [JStr listId] else JUndefined);
                           ("custom_fields", JObj fields)]])] /\
     if subscribe then fields = customFields
     else List.map fst fields = List.map fst customFields /\
          Forall (fun kv => snd kv = JNull) fields).
  { unfold upsert_payload. destruct subscribe.
    - exists customFields. split; reflexivity.
    - exists (cleared customFields). split; [reflexivity | apply cleared_keys]. }
  destruct (serve R w put) as [o1 w1]. destruct o1 as [res | err].
  2:{ split; [split; [reflexivity | left; eauto] |].
      split; [exact Hpayload |]. intros res checkRes Htr. discriminate Htr. }
  destruct (serve R w1 (POST_contact_search email)) as [o2 w2].
  split; [split; [reflexivity | right; eauto] |].
  split; [exact Hpayload |].
  intros res' checkRes Htr. injection Htr as <- ->.
  unfold verification_outcome.
  destruct (truthy (found_contact checkRes)) eqn:Hfound.
  - destruct (verify_fields (found_contact checkRes) subscribe customFields)
      as [[] | e] eqn:Hv.
    + pose proof (proj1 (verify_fields_ok _ _ _) Hv) as Hall.
      split; [| split; [left; reflexivity | intros _; split; auto]].
      intros (field & value & Hin & Hno).
      destruct (Hall _ _ Hin) as [Hyes _]. congruence.
    + split; [reflexivity |]. split; [right; reflexivity |].
      intros _. split; [discriminate |]. intros [_ Hall].
      apply verify_fields_ok in Hall. congruence.
  - split; [reflexivity |]. split; [right; reflexivity |].
    intros _. split; [discriminate |]. intros [Hno _]. discriminate Hno.
Qed.

(** The subscription of the test suite against a remote whose contact does
    not show the field afterwards. *)
Lemma C4_witness :
  _isValidEmail "test@example.com" = true /\
  (let put :=
     PUT_contacts (upsert_payload "test@example.com" "L1" weekly_newsletter_on true) in
   let '((r, _), _, tr) :=
     run scripted
       (subscribeOrUnsubscribeRecipientFromSenderListByTag
          "test@example.com" "L1" (Some weekly_newsletter_on) true)
       initial_caches [ok JNull; contact_with []] in
   r = Threw (Error "Failed to update recipient fields") /\
   tr = [EvRequest put (ok JNull);
         EvRequest (POST_contact_search "test@example.com") (contact_with [])]).
Proof.
  split; [reflexivity |].
  pose proof (C4_subscribe_upsert_and_verify scripted "test@example.com" "L1"
                weekly_newsletter_on true initial_caches
                [ok JNull; contact_with []] eq_refl) as H.
  cbn zeta in *.
  destruct (run scripted
              (subscribeOrUnsubscribeRecipientFromSenderListByTag
                 "test@example.com" "L1" (Some weekly_newsletter_on) true)
              initial_caches [ok JNull; contact_with []])
    as [[[r c'] w'] tr] eqn:Hrun.
  assert (Htr : tr = [EvRequest
                        (PUT_contacts (upsert_payload "test@example.com" "L1"
                                         weekly_newsletter_on true))
                        (ok JNull);
                      EvRequest (POST_contact_search "test@example.com")
                        (contact_with [])]).
  { vm_compute in Hrun. injection Hrun as _ _ _ <-. reflexivity. }
  destruct H as (_ & _ & Hverify).
  destruct (Hverify _ _ Htr) as (Hfail & _).
  split; [| exact Htr].
  apply Hfail. exists "weekly_newsletter", (JBool true).
  split; [left; reflexivity | reflexivity].
Defined.

Example subscribe_then_verified :
  let '((r, _), _, _) :=
    run scripted
      (subscribeOrUnsubscribeRecipientFromSenderListByTag
         "test@example.com" "L1" (Some weekly_newsletter_on) true)
      initial_caches [ok (JObj [("job_id", JStr "j-1")]);
                      contact_with weekly_newsletter_on] in
  r = Returned (JObj [("job_id", JStr "j-1")]).
Proof. vm_compute. reflexivity. Qed.

Example unsubscribe_then_verified :
  let '((r, _), _, tr) :=
    run scripted
      (subscribeOrUnsubscribeRecipientFromSenderListByTag
         "test@example.com" "L1" (Some weekly_newsletter_on) false)
      initial_caches [ok (JObj [("job_id", JStr "j-2")]);
                      contact_with [("weekly_newsletter", JNull)]] in
  r = Returned (JObj [("job_id", JStr "j-2")]) /\
  exists o rest,
    tr = EvRequest
           (PUT_contacts
              (JObj [("contacts",
                       JArr [JObj [("email", JStr "test@example.com");
                                   ("list_ids", JUndefined);
                                   ("custom_fields",
                                     JObj [("weekly_newsletter", JNull)])]])])) o
         :: rest.
Proof. vm_compute. split; [reflexivity | eexists; eexists; reflexivity]. Qed.

(** Unsubscribing a field named like a member of [Object.prototype]: the
    contact stores nothing under [constructor], yet the verification read
    finds the inherited member and the call fails. *)
Example unsubscribe_inherited_name :
  let '((r, _), _, _) :=
    run scripted
      (subscribeOrUnsubscribeRecipientFromSenderListByTag
         "test@example.com" "L1" (Some [("constructor", JBool true)]) false)
      initial_caches [ok (JObj [("job_id", JStr "j-3")]); contact_with []] in
  holds_expected
    (found_contact {| statusCode := 200;
                      body := JObj [("result",
                                     JArr [JObj [("id", JStr "c-1");
                                                 ("email", JStr "test@example.com");
                                                 ("custom_fields", JObj [])]])] |})
    false "constructor" (JBool true) = true /\
  r = Threw (Error "Failed to update recipient fields").
Proof. vm_compute. split; reflexivity. Qed.

(* ================================================================== *)
(** * The caches stay coherent *)
(* ================================================================== *)

Section CacheInvariant.

Variable REG : Registry.

Lemma leaves_mono {A : Type} (P Q : A -> Prop) (p : IO A) :
  (forall a, P a -> Q a) -> leaves P p -> leaves Q p.
Proof.
  intros HPQ. induction p as [a | r k IH | ms k IH | k IH]; simpl; auto.
Qed.

Lemma leaves_io_bind {A B : Type} (Q : B -> Prop) (p : IO A) (f : A -> IO B) :
  leaves (fun a => leaves Q (f a)) p -> leaves Q (io_bind p f).
Proof.
  induction p as [a | r k IH | ms k IH | k IH]; simpl; auto.
Qed.

Lemma leaves_exec {A : Type} (R : Remote) (P : A -> Prop) (p : IO A) :
  leaves P p -> forall w, P (exec R p w).1.1.
Proof.
  induction p as [a | r k IH | ms k IH | k IH]; simpl; intros H w.
  - exact H.
  - destruct (serve R w r) as [o w1]. specialize (IH o (H o) w1).
    destruct (exec R (k o) w1) as [[a w2] tr]. exact IH.
  - specialize (IH H (wait R ms w)).
    destruct (exec R k (wait R ms w)) as [[a w2] tr]. exact IH.
  - specialize (IH (clock R w) (H (clock R w)) w).
    destruct (exec R (k (clock R w)) w) as [[a w2] tr]. exact IH.
Qed.

Lemma coherent_listCache c l :
  coherent REG c ->
  coherent REG {| templateCache := templateCache c;
                  fieldMapCache := fieldMapCache c;
                  listCache := l |}.
Proof. intros [H1 H2]. split; assumption. Qed.

Lemma keeps_ret {A : Type} (a : A) : keeps_coherent REG (ret a).
Proof. intros c Hc. exact Hc. Qed.

Lemma keeps_throw {A : Type} (e : JsError) : keeps_coherent REG (@throw A e).
Proof. intros c Hc. exact Hc. Qed.

Lemma keeps_lift {A : Type} (r : Res A) : keeps_coherent REG (lift r).
Proof. intros c Hc. exact Hc. Qed.

Lemma keeps_request (r : Req) : keeps_coherent REG (request r).
Proof. intros c Hc o. destruct o; exact Hc. Qed.

Lemma keeps_sleep (ms : Z) : keeps_coherent REG (sleep ms).
Proof. intros c Hc. exact Hc. Qed.

Lemma keeps_now : keeps_coherent REG now.
Proof. intros c Hc t. exact Hc. Qed.

Lemma keeps_bind {A B : Type} (m : M A) (f : A -> M B) :
  keeps_coherent REG m -> (forall a, keeps_coherent REG (f a)) ->
  keeps_coherent REG (bind m f).
Proof.
  intros Hm Hf c Hc. unfold bind. apply leaves_io_bind.
  apply (leaves_mono (fun rc => coherent REG rc.2)); [| exact (Hm c Hc)].
  intros [[a | e] c'] Hc'; [exact (Hf a c' Hc') | exact Hc'].
Qed.

Lemma keeps_try_catch {A : Type} (m : M A) (h : JsError -> M A) :
  keeps_coherent REG m -> (forall e, keeps_coherent REG (h e)) ->
  keeps_coherent REG (try_catch m h).
Proof.
  intros Hm Hh c Hc. unfold try_catch. apply leaves_io_bind.
  apply (leaves_mono (fun rc => coherent REG rc.2)); [| exact (Hm c Hc)].
  intros [[a | e] c'] Hc'; [exact Hc' | exact (Hh e c' Hc')].
Qed.

Lemma keeps_get_member v k : keeps_coherent REG (get_member v k).
Proof.
  unfold get_member. destruct (is_nullish v); [apply keeps_throw | apply keeps_ret].
Qed.

Lemma keeps_loadEmailTemplateConfig :
  keeps_coherent REG (loadEmailTemplateConfig REG).
Proof.
  intros c Hc.
  destruct (loadEmailTemplateConfig_coherent REG c Hc) as (c' & -> & Hc' & _).
  exact Hc'.
Qed.

Lemma keeps_buildFieldType :
  keeps_coherent REG (buildFieldTypeFromEmailTemplateConfig REG).
Proof.
  intros c Hc. unfold buildFieldTypeFromEmailTemplateConfig.
  unfold bind at 1. unfold get_caches. simpl.
  destruct (fieldMapCache c) as [cached |] eqn:Hf; [exact Hc |].
  destruct (loadEmailTemplateConfig_coherent REG c Hc)
    as (c1 & Hload & [Ht1 Hf1] & _ & _).
  rewrite (bind_returned _ _ _ _ _ Hload), bind_lift.
  destruct (mergeTemplates ∅ (List.map snd REG)) as [m |] eqn:Hm.
  - unfold bind, get_caches, put_caches, ret. simpl.
    split; simpl; [exact Ht1 |].
    intros m' Hm'. injection Hm' as <-. exact Hm.
  - split; [exact Ht1 |]. intros m0 Hm0. rewrite Hm. exact (Hf1 m0 Hm0).
Qed.

Lemma keeps_retry_loop {A : Type} (fn : M A) (n d m : Z) :
  keeps_coherent REG fn ->
  forall fuel k, keeps_coherent REG (retry_loop fn n d m fuel k).
Proof.
  intros Hfn. induction fuel as [| fuel IH]; intros k; cbn [retry_loop].
  - apply keeps_ret.
  - destruct (k <=? n)%Z; [| apply keeps_ret].
    apply keeps_try_catch.
    + apply keeps_bind; [exact Hfn | intros x; apply keeps_ret].
    + intros e. destruct (negb (isRateLimit e) || (k =? n)%Z);
        [apply keeps_throw |].
      apply keeps_bind; [apply keeps_sleep | intros _; apply IH].
Qed.

Lemma keeps_withRetry {A : Type} (fn : M A) (n d m : option Z) :
  keeps_coherent REG fn -> keeps_coherent REG (_withRetry fn n d m).
Proof. intros Hfn. unfold _withRetry. apply keeps_retry_loop. exact Hfn. Qed.

Lemma keeps_fetchAllSenderLists force :
  keeps_coherent REG (fetchAllSenderLists force).
Proof.
  unfold fetchAllSenderLists. intros c Hc.
  unfold bind at 1. unfold get_caches. simpl.
  destruct (truthy (listCache c) && negb force); [exact Hc |].
  revert c Hc. apply keeps_bind; [apply keeps_withRetry, keeps_request |].
  intros r. apply keeps_bind.
  { destruct r; [apply keeps_ret | apply keeps_throw]. }
  intros res. apply keeps_bind; [apply keeps_get_member |].
  intros result c1 Hc1. unfold bind, get_caches, put_caches, ret. simpl.
  apply (coherent_listCache c1 result Hc1).
Qed.

Lemma keeps_ensureListExistsByName listName :
  keeps_coherent REG (ensureListExistsByName listName).
Proof.
  unfold ensureListExistsByName.
  apply keeps_bind; [apply keeps_fetchAllSenderLists |]. intros lists.
  apply keeps_bind; [apply keeps_lift |]. intros list.
  destruct (negb (truthy list)); [| apply keeps_ret].
  apply keeps_bind; [apply keeps_withRetry, keeps_request |]. intros _.
  apply keeps_bind; [apply keeps_sleep |]. intros _.
  apply keeps_bind; [apply keeps_fetchAllSenderLists |]. intros newLists.
  apply keeps_bind; [apply keeps_lift |]. intros list'.
  destruct (negb (truthy list')); [apply keeps_throw | apply keeps_ret].
Qed.

Lemma keeps_poll listName : keeps_coherent REG (poll listName).
Proof.
  unfold poll.
  apply keeps_bind; [apply keeps_fetchAllSenderLists |]. intros lists.
  apply keeps_bind; [apply keeps_lift |]. intros verified.
  destruct (negb (truthy verified)); [apply keeps_throw | apply keeps_ret].
Qed.

Lemma keeps_ensureSenderListExists senderId :
  keeps_coherent REG (ensureSenderListExists senderId).
Proof.
  unfold ensureSenderListExists. cbn zeta.
  apply keeps_bind; [apply keeps_ensureListExistsByName |]. intros _.
  apply keeps_try_catch; [| intros _; apply keeps_throw].
  apply keeps_bind; [apply keeps_withRetry, keeps_poll |].
  intros r. apply keeps_ret.
Qed.

Lemma keeps_sendSimpleEmail options :
  keeps_coherent REG (sendSimpleEmail REG options).
Proof.
  unfold sendSimpleEmail.
  destruct (negb (_isValidEmail (to options))); [apply keeps_throw |].
  destruct (negb (_isValidEmail (from options))); [apply keeps_throw |].
  destruct (invalid_recipients (cc options)); [apply keeps_throw |].
  destruct (invalid_recipients (bcc options)); [apply keeps_throw |].
  apply keeps_bind; [apply keeps_loadEmailTemplateConfig |]. intros config.
  destruct (lookup_prop (templateKey options) config) as [template |];
    [| destruct (inherited (templateKey options)); apply keeps_throw].
  cbn zeta. destruct (negb (length _ =? 0)%nat); [apply keeps_throw |].
  apply keeps_bind; [apply keeps_lift |]. intros _.
  apply keeps_try_catch; [apply keeps_request | intros e; apply keeps_throw].
Qed.

Lemma keeps_sendCampaignEmail sender options :
  keeps_coherent REG (sendCampaignEmail REG sender options).
Proof.
  unfold sendCampaignEmail. cbn zeta.
  apply keeps_bind; [apply keeps_buildFieldType |]. intros mapping.
  match goal with |- keeps_coherent _ (if ?b then _ else _) => destruct b end;
    [apply keeps_throw |].
  apply keeps_bind.
  { apply keeps_try_catch.
    - apply keeps_bind; [apply keeps_request |]. intros res.
      apply keeps_get_member.
    - intros e. apply keeps_bind; [apply keeps_lift |]. intros detail.
      apply keeps_throw. }
  intros segmentId. apply keeps_bind; [apply keeps_now |]. intros t.
  cbn zeta.
  apply keeps_bind; [apply keeps_loadEmailTemplateConfig |]. intros config.
  apply keeps_bind.
  { destruct (lookup_prop (campaignTemplateKey options) config) as [template |];
      [apply keeps_ret |].
    destruct (inherited (campaignTemplateKey options));
      [apply keeps_ret | apply keeps_throw]. }
  intros template_id.
  apply keeps_bind; [apply keeps_request |]. intros campaignRes.
  apply keeps_bind; [apply keeps_get_member |]. intros campaignId.
  apply keeps_bind; [apply keeps_request |]. intros _. apply keeps_ret.
Qed.

Lemma keeps_subscribe email listId customFields subscribe :
  keeps_coherent REG
    (subscribeOrUnsubscribeRecipientFromSenderListByTag
       email listId customFields subscribe).
Proof.
  unfold subscribeOrUnsubscribeRecipientFromSenderListByTag. cbn zeta.
  destruct (negb (_isValidEmail email)); [apply keeps_throw |].
  apply keeps_try_catch.
  - apply keeps_bind; [apply keeps_request |]. intros res.
    apply keeps_bind; [apply keeps_request |]. intros checkRes.
    apply keeps_bind; [apply keeps_get_member |]. intros result.
    destruct (negb (truthy (js_get_opt result "0"))); [apply keeps_throw |].
    apply keeps_bind; [apply keeps_lift |]. intros _. apply keeps_ret.
  - intros e. apply keeps_bind; [apply keeps_lift |]. intros detail.
    apply keeps_throw.
Qed.

Lemma keeps_resetInternalCache : keeps_coherent REG resetInternalCache.
Proof. intros c _. apply coherent_initial. Qed.

(** Against any remote, a call that starts from coherent caches leaves
    coherent caches, whether it returns or throws. *)
Lemma run_keeps_coherent {A : Type} (R : Remote) (m : M A) c w :
  keeps_coherent REG m -> coherent REG c ->
  coherent REG (run R m c w).1.1.2.
Proof.
  intros Hm Hc. unfold run.
  exact (leaves_exec R (fun rc => coherent REG rc.2) (m c) (Hm c Hc) w).
Qed.

End CacheInvariant.

(* ================================================================== *)
(** * Further properties of the service *)
(* ================================================================== *)

(** ** The validator and the list names *)

(** X1.  [_isValidEmail] accepts a string exactly when it has the form
    local@domain.tld: three non-empty parts without whitespace or [@],
    separated by one [@] and a dot (further dots may occur in the parts). *)
Theorem X1_validator_decides_the_form (s : string) :
  _isValidEmail s = true <-> email_form s.
Proof.
  split; intros H.
  - apply EmailFacts.isValidEmail_iff. exact H.
  - apply EmailFacts.isValidEmail_iff. exact H.
Qed.

Lemma string_app_inv_tail (a b t : string) : a +:+ t = b +:+ t -> a = b.
Proof.
  intros H.
  apply (f_equal list_ascii_of_string) in H.
  rewrite !EmailFacts.list_ascii_of_string_app in H.
  apply app_inv_tail in H.
  rewrite <- (string_of_list_ascii_of_string a),
          <- (string_of_list_ascii_of_string b).
  now rewrite H.
Qed.

(** X2.  Distinct senders have distinct list names: the name
    [sender_<senderId>_list] determines the sender id. *)
Theorem X2_list_name_determines_sender (a b : string) :
  _formatListNameForSender a = _formatListNameForSender b <-> a = b.
Proof.
  split; [| intros ->; reflexivity].
  unfold _formatListNameForSender. intros H.
  simpl in H. repeat (injection H as H).
  exact (string_app_inv_tail a b "_list" H).
Qed.

(** ** The field-type map *)

Lemma fold_insert_sound (f ty : string) (types : list (string * string)) :
  forall acc : gmap string string,
    fold_left (fun a kv => <[kv.1 := kv.2]> a) types acc !! f = Some ty ->
    acc !! f = Some ty \/ In (f, ty) types.
Proof.
  induction types as [| [k v] types IH]; intros acc H; simpl in *; [auto |].
  destruct (IH _ H) as [Hacc | Hin]; [| auto].
  destruct (decide (k = f)) as [-> | Hne].
  - rewrite lookup_insert_eq in Hacc. injection Hacc as ->. auto.
  - rewrite lookup_insert_ne in Hacc by exact Hne. auto.
Qed.

Lemma fold_insert_keeps (f : string) (types : list (string * string)) :
  forall acc : gmap string string,
    is_Some (acc !! f) ->
    is_Some (fold_left (fun a kv => <[kv.1 := kv.2]> a) types acc !! f).
Proof.
  induction types as [| [k v] types IH]; intros acc H; simpl; [exact H |].
  apply IH. destruct (decide (k = f)) as [-> | Hne].
  - rewrite lookup_insert_eq. eauto.
  - rewrite lookup_insert_ne by exact Hne. exact H.
Qed.

Lemma fold_insert_complete (f ty : string) (types : list (string * string)) :
  forall acc : gmap string string,
    In (f, ty) types ->
    is_Some (fold_left (fun a kv => <[kv.1 := kv.2]> a) types acc !! f).
Proof.
  induction types as [| [k v] types IH]; intros acc Hin; simpl; [destruct Hin |].
  destruct Hin as [Heq | Hin]; [| exact (IH _ Hin)].
  injection Heq as -> ->. apply fold_insert_keeps.
  rewrite lookup_insert_eq. eauto.
Qed.

Lemma lookup_prop_In {V : Type} (k : string) (v : V) (o : list (string * V)) :
  lookup_prop k o = Some v -> In (k, v) o.
Proof.
  induction o as [| [k' v'] o IH]; simpl; [discriminate |].
  destruct (String.eqb k k') eqn:E.
  - apply String.eqb_eq in E as ->. intros H. injection H as ->. auto.
  - auto.
Qed.

Lemma lookup_prop_not_key {V : Type} (k : string) (o : list (string * V)) :
  ~ In k (List.map fst o) -> lookup_prop k o = None.
Proof.
  intros H. apply lookup_prop_None_iff. intros v Hin. apply H.
  apply in_map_iff. exists (k, v). auto.
Qed.

Lemma fold_insert_unique (f ty : string) (types : list (string * string)) :
  NoDup (List.map fst types) ->
  lookup_prop f types = Some ty ->
  forall acc : gmap string string,
    fold_left (fun a kv => <[kv.1 := kv.2]> a) types acc !! f = Some ty.
Proof.
  induction types as [| [k v] types IH]; intros Hnd Hl acc; simpl in *;
    [discriminate |].
  apply NoDup_cons in Hnd as [Hk Hnd].
  destruct (String.eqb f k) eqn:E.
  - apply String.eqb_eq in E as ->. injection Hl as ->.
    rewrite fold_insert_lookup_other.
    + apply lookup_insert_eq.
    + apply lookup_prop_not_key. intros Hin. apply Hk.
      apply list_elem_of_In. exact Hin.
  - exact (IH Hnd Hl _).
Qed.

Lemma mergeTemplates_app (ts1 ts2 : list Template) :
  forall acc : gmap string string,
    mergeTemplates acc (ts1 ++ ts2) =
    match mergeTemplates acc ts1 with
    | Returned m => mergeTemplates m ts2
    | Threw e => Threw e
    end.
Proof.
  induction ts1 as [| t ts1 IH]; intros acc; simpl; [reflexivity |].
  destruct (mergeTemplate acc t); [apply IH | reflexivity].
Qed.

Lemma mergeTemplates_typed (ts : list Template) :
  (forall t, In t ts -> customFieldTypes t <> None) ->
  forall acc : gmap string string, exists m, mergeTemplates acc ts = Returned m.
Proof.
  induction ts as [| t ts IH]; intros H acc; simpl; [eauto |].
  unfold mergeTemplate.
  destruct (customFieldTypes t) eqn:Ht.
  - apply IH. intros t' Hin. apply H. right. exact Hin.
  - exfalso. exact (H t (or_introl eq_refl) Ht).
Qed.

Lemma mergeTemplates_sound (f ty : string) (ts : list Template) :
  forall acc m : gmap string string,
    mergeTemplates acc ts = Returned m ->
    m !! f = Some ty ->
    acc !! f = Some ty \/
    exists t types, In t ts /\ customFieldTypes t = Some types /\ In (f, ty) types.
Proof.
  induction ts as [| t ts IH]; intros acc m Hm Hl; simpl in Hm.
  - injection Hm as ->. auto.
  - unfold mergeTemplate in Hm.
    destruct (customFieldTypes t) as [types |] eqn:Ht; [| discriminate Hm].
    destruct (IH _ _ Hm Hl) as [Hacc | (t' & types' & Hin & Ht' & Hf)].
    + destruct (fold_insert_sound _ _ _ _ Hacc) as [H0 | Hin]; [auto |].
      right. exists t, types. split; [left; reflexivity | split; assumption].
    + right. exists t', types'. split; [right; exact Hin | split; assumption].
Qed.

Lemma mergeTemplates_keeps (f : string) (ts : list Template) :
  forall acc m : gmap string string,
    mergeTemplates acc ts = Returned m ->
    is_Some (acc !! f) -> is_Some (m !! f).
Proof.
  induction ts as [| t ts IH]; intros acc m Hm Hacc; simpl in Hm.
  - injection Hm as <-. exact Hacc.
  - unfold mergeTemplate in Hm.
    destruct (customFieldTypes t) as [types |]; [| discriminate Hm].
    apply (IH _ _ Hm). apply fold_insert_keeps. exact Hacc.
Qed.

Lemma mergeTemplates_complete (f ty : string) (ts : list Template) :
  forall (acc m : gmap string string) t types,
    mergeTemplates acc ts = Returned m ->
    In t ts -> customFieldTypes t = Some types -> In (f, ty) types ->
    is_Some (m !! f).
Proof.
  induction ts as [| t0 ts IH]; intros acc m t types Hm Hin Ht Hf;
    [destruct Hin |].
  simpl in Hm. unfold mergeTemplate in Hm.
  destruct (customFieldTypes t0) as [types0 |] eqn:Ht0; [| discriminate Hm].
  destruct Hin as [-> | Hin].
  - rewrite Ht in Ht0. injection Ht0 as <-.
    apply (mergeTemplates_keeps _ _ _ _ Hm).
    apply (fold_insert_complete f ty). exact Hf.
  - exact (IH _ _ _ _ Hm Hin Ht Hf).
Qed.

Lemma undeclared_templates REG f :
  undeclared_tag REG f ->
  forall t, In t (List.map snd REG) ->
            forall types, customFieldTypes t = Some types ->
                          lookup_prop f types = None.
Proof.
  intros Hun t Hin types Ht.
  apply in_map_iff in Hin as ([key t'] & <- & Hin). exact (Hun key t' types Hin Ht).
Qed.

Lemma mergeTemplates_untouched (f : string) (ts : list Template) :
  (forall t, In t ts -> forall types, customFieldTypes t = Some types ->
                                      lookup_prop f types = None) ->
  forall acc m : gmap string string,
    mergeTemplates acc ts = Returned m -> m !! f = acc !! f.
Proof.
  induction ts as [| t ts IH]; intros H acc m Hm; simpl in Hm.
  - injection Hm as <-. reflexivity.
  - unfold mergeTemplate in Hm.
    destruct (customFieldTypes t) as [types |] eqn:Ht; [| discriminate Hm].
    rewrite (IH (fun t' Hin => H t' (or_intror Hin)) _ _ Hm).
    apply fold_insert_lookup_other. exact (H t (or_introl eq_refl) types Ht).
Qed.

Lemma mergeTemplates_last_wins (f ty : string) (ts1 ts2 : list Template)
  (t : Template) (types : list (string * string)) :
  customFieldTypes t = Some types ->
  NoDup (List.map fst types) ->
  lookup_prop f types = Some ty ->
  (forall t', In t' ts2 -> forall types', customFieldTypes t' = Some types' ->
                                          lookup_prop f types' = None) ->
  forall acc m : gmap string string,
    mergeTemplates acc (ts1 ++ t :: ts2) = Returned m -> m !! f = Some ty.
Proof.
  intros Ht Hnd Hl Hlater acc m Hm.
  rewrite mergeTemplates_app in Hm.
  destruct (mergeTemplates acc ts1) as [m1 | e]; [| discriminate Hm].
  simpl in Hm. unfold mergeTemplate in Hm. rewrite Ht in Hm.
  rewrite (mergeTemplates_untouched f ts2 Hlater _ _ Hm).
  apply fold_insert_unique; assumption.
Qed.

Lemma buildFieldType_outcome REG c :
  coherent REG c ->
  exists c',
    buildFieldTypeFromEmailTemplateConfig REG c
      = Done (mergeTemplates ∅ (List.map snd REG), c') /\
    coherent REG c' /\
    match mergeTemplates ∅ (List.map snd REG) with
    | Returned m => fieldMapCache c' = Some m
    | Threw _ => fieldMapCache c' = None /\ templateCache c' = Some REG
    end.
Proof.
  intros Hc. unfold buildFieldTypeFromEmailTemplateConfig.
  unfold bind at 1. unfold get_caches. simpl.
  destruct (fieldMapCache c) as [cached |] eqn:Hf.
  - exists c. pose proof (proj2 Hc cached Hf) as Hm. rewrite Hm.
    split; [reflexivity |]. split; [exact Hc | exact Hf].
  - destruct (loadEmailTemplateConfig_coherent REG c Hc)
      as (c1 & Hload & Hc1 & Hf1 & _).
    rewrite (bind_returned _ _ _ _ _ Hload), bind_lift.
    destruct (mergeTemplates ∅ (List.map snd REG)) as [m | e] eqn:Hm.
    + unfold bind, get_caches, put_caches, ret. simpl.
      eexists. split; [reflexivity |]. split; [| reflexivity].
      split; simpl; [exact (proj1 Hc1) |].
      intros m' Hm'. injection Hm' as <-. exact Hm.
    + exists c1. split; [reflexivity |]. split; [exact Hc1 |].
      split; [congruence |].
      unfold loadEmailTemplateConfig, bind, get_caches in Hload. simpl in Hload.
      destruct (templateCache c) as [cached |] eqn:Ht.
      * destruct Hc as [[Hn | Hs] _]; [congruence |].
        injection Hload as _ <-. congruence.
      * injection Hload as <-. reflexivity.
Qed.

(** X3.  If some template of the registry has no [customFieldTypes],
    building the field-type map throws "Missing customFieldTypes in template
    config for <templateId>", naming the first such template; the field map
    cache stays empty, and every campaign call fails with that error before
    any request. *)
Theorem X3_template_without_types
  (REG r1 r2 : Registry) (key : string) (t : Template)
  (sender : Z) (options : CampaignOptions) (c : Caches) :
  coherent REG c ->
  REG = r1 ++ (key, t) :: r2 ->
  (forall k' t', In (k', t') r1 -> customFieldTypes t' <> None) ->
  customFieldTypes t = None ->
  exists c',
    buildFieldTypeFromEmailTemplateConfig REG c
      = Done (Threw (Error ("Missing customFieldTypes in template config for "
                            +:+ templateId t)), c') /\
    fieldMapCache c' = None /\
    sendCampaignEmail REG sender options c
      = Done (Threw (Error ("Missing customFieldTypes in template config for "
                            +:+ templateId t)), c').
Proof.
  intros Hc HREG Htyped Ht.
  assert (Hm : mergeTemplates ∅ (List.map snd REG)
               = Threw (Error ("Missing customFieldTypes in template config for "
                               +:+ templateId t))).
  { rewrite HREG, map_app. simpl. rewrite mergeTemplates_app.
    destruct (mergeTemplates_typed (List.map snd r1)) with (acc := (∅ : gmap string string))
      as [m1 Hm1].
    - intros t' Hin. apply in_map_iff in Hin as ([k' t''] & <- & Hin).
      exact (Htyped k' t'' Hin).
    - rewrite Hm1. simpl. unfold mergeTemplate. rewrite Ht. reflexivity. }
  destruct (buildFieldType_outcome REG c Hc) as (c' & Hbuild & _ & Hcache).
  rewrite Hm in Hbuild, Hcache.
  exists c'. split; [exact Hbuild |]. split; [exact (proj1 Hcache) |].
  unfold sendCampaignEmail. cbn zeta.
  exact (bind_threw _ _ _ _ _ Hbuild).
Qed.

Lemma X3_witness :
  coherent registry_with_gap initial_caches /\
  registry_with_gap
    = [("new-order-email", new_order_template)]
      ++ ("draft", {| templateId := "d-draft0001";
                      requiredFields := ["title"];
                      customFieldTypes := None |})
         :: [("password-reset", password_reset_template)] /\
  exists c',
    buildFieldTypeFromEmailTemplateConfig registry_with_gap initial_caches
      = Done (Threw (Error "Missing customFieldTypes in template config for d-draft0001"),
              c') /\
    fieldMapCache c' = None /\
    sendCampaignEmail registry_with_gap 42 campaign_unknown_template initial_caches
      = Done (Threw (Error "Missing customFieldTypes in template config for d-draft0001"),
              c').
Proof.
  split; [apply coherent_initial |]. split; [reflexivity |].
  apply (X3_template_without_types registry_with_gap
           [("new-order-email", new_order_template)]
           [("password-reset", password_reset_template)]
           "draft" _ 42 campaign_unknown_template initial_caches
           (coherent_initial _) eq_refl).
  - intros k' t' [H | []]. injection H as _ <-. discriminate.
  - reflexivity.
Defined.

(** X4.  With a registry whose templates all carry [customFieldTypes], the
    field-type map is built and cached, and it merges the templates without
    omission and without invention: a field is in the map exactly if some
    template declares it, and the type it has there is one of its declared
    types.  When several templates declare a field, the last of them in the
    registry decides. *)
Theorem X4_field_map_merges_all_templates (REG : Registry) (c : Caches) :
  coherent REG c ->
  (forall key t, In (key, t) REG -> customFieldTypes t <> None) ->
  exists (m : gmap string string) c',
    buildFieldTypeFromEmailTemplateConfig REG c = Done (Returned m, c') /\
    fieldMapCache c' = Some m /\
    (forall f ty,
       m !! f = Some ty ->
       exists key t types,
         In (key, t) REG /\ customFieldTypes t = Some types /\ In (f, ty) types) /\
    (forall key t types f ty,
       In (key, t) REG -> customFieldTypes t = Some types -> In (f, ty) types ->
       is_Some (m !! f)) /\
    (forall r1 key t r2 types f ty,
       REG = r1 ++ (key, t) :: r2 ->
       customFieldTypes t = Some types ->
       NoDup (List.map fst types) ->
       lookup_prop f types = Some ty ->
       undeclared_tag r2 f ->
       m !! f = Some ty).
Proof.
  intros Hc Htyped.
  destruct (mergeTemplates_typed (List.map snd REG)) with (acc := (∅ : gmap string string))
    as [m Hm].
  { intros t Hin. apply in_map_iff in Hin as ([k t'] & <- & Hin).
    exact (Htyped k t' Hin). }
  destruct (buildFieldType_outcome REG c Hc) as (c' & Hbuild & _ & Hcache).
  rewrite Hm in Hbuild, Hcache.
  exists m, c'. split; [exact Hbuild |]. split; [exact Hcache |].
  split; [| split].
  - intros f ty Hl.
    destruct (mergeTemplates_sound f ty _ _ _ Hm Hl)
      as [Hempty | (t & types & Hin & Ht & Hf)].
    + rewrite lookup_empty in Hempty. discriminate Hempty.
    + apply in_map_iff in Hin as ([key t'] & <- & Hin). eauto 6.
  - intros key t types f ty Hin Ht Hf.
    apply (mergeTemplates_complete f ty _ _ _ t types Hm); try assumption.
    apply in_map_iff. exists (key, t). auto.
  - intros r1 key t r2 types f ty HREG Ht Hnd Hl Hlater.
    rewrite HREG, map_app in Hm. simpl in Hm.
    apply (mergeTemplates_last_wins f ty _ _ t types Ht Hnd Hl) with (acc := ∅) in Hm;
      [exact Hm |].
    apply undeclared_templates. exact Hlater.
Qed.

Lemma X4_witness :
  coherent EmailTemplateMap initial_caches /\
  (forall key t, In (key, t) EmailTemplateMap -> customFieldTypes t <> None) /\
  exists (m : gmap string string) c',
    buildFieldTypeFromEmailTemplateConfig EmailTemplateMap initial_caches
      = Done (Returned m, c') /\
    fieldMapCache c' = Some m /\
    m !! "message_body" = Some "html".
Proof.
  split; [apply coherent_initial |]. split; [exact shipped_templates_typed |].
  destruct (X4_field_map_merges_all_templates EmailTemplateMap initial_caches
              (coherent_initial _) shipped_templates_typed)
    as (m & c' & Hbuild & Hcache & _ & _ & Hlast).
  exists m, c'. split; [exact Hbuild |]. split; [exact Hcache |].
  apply (Hlast [("new-order-email", new_order_template);
                ("password-reset", password_reset_template)]
           "creator-broadcast"
           {| templateId := "d-broadcast00001234567890abc";
              requiredFields := ["creator_name"; "message_body"];
              customFieldTypes :=
                Some [("creator_name", "string"); ("message_body", "html")] |}
           [] [("creator_name", "string"); ("message_body", "html")]).
  - reflexivity.
  - reflexivity.
  - simpl. apply NoDup_cons. split; [| apply NoDup_singleton].
    rewrite list_elem_of_In. simpl. intuition discriminate.
  - reflexivity.
  - intros key t types [].
Defined.

(** X5.  Both loaders are idempotent: once [loadEmailTemplateConfig] or
    [buildFieldTypeFromEmailTemplateConfig] has returned, calling it again
    returns the same registry, respectively the same map, and leaves all
    three caches as they are. *)
Theorem X5_loaders_are_idempotent (REG : Registry) (c : Caches) :
  coherent REG c ->
  (forall config c1,
     loadEmailTemplateConfig REG c = Done (Returned config, c1) ->
     loadEmailTemplateConfig REG c1 = Done (Returned config, c1)) /\
  (forall (m : gmap string string) c1,
     buildFieldTypeFromEmailTemplateConfig REG c = Done (Returned m, c1) ->
     buildFieldTypeFromEmailTemplateConfig REG c1 = Done (Returned m, c1)).
Proof.
  intros Hc. split.
  - intros config c1 H.
    destruct (loadEmailTemplateConfig_coherent REG c Hc) as (c' & Hload & _).
    rewrite Hload in H. injection H as <- <-.
    assert (Ht : templateCache c' = Some REG).
    { unfold loadEmailTemplateConfig, bind, get_caches in Hload. simpl in Hload.
      destruct (templateCache c) as [cached |] eqn:Ht.
      - destruct Hc as [[Hn | Hs] _]; [congruence |].
        injection Hload as _ <-. exact Hs.
      - injection Hload as <-. reflexivity. }
    unfold loadEmailTemplateConfig, bind, get_caches. simpl. rewrite Ht.
    reflexivity.
  - intros m c1 H.
    destruct (buildFieldType_outcome REG c Hc) as (c' & Hbuild & _ & Hcache).
    rewrite Hbuild in H. injection H as Hm <-. rewrite Hm in Hcache.
    unfold buildFieldTypeFromEmailTemplateConfig, bind, get_caches. simpl.
    rewrite Hcache. reflexivity.
Qed.

Lemma X5_witness :
  coherent EmailTemplateMap initial_caches /\
  exists c1,
    loadEmailTemplateConfig EmailTemplateMap initial_caches
      = Done (Returned EmailTemplateMap, c1) /\
    loadEmailTemplateConfig EmailTemplateMap c1
      = Done (Returned EmailTemplateMap, c1).
Proof.
  split; [apply coherent_initial |].
  eexists. split; [reflexivity |].
  apply (proj1 (X5_loaders_are_idempotent EmailTemplateMap initial_caches
                  (coherent_initial _))).
  reflexivity.
Defined.

(** ** The roster cache *)

Lemma bind_get_caches {A : Type} (f : Caches -> M A) c :
  bind get_caches f c = f c c.
Proof. reflexivity. Qed.

Lemma fetch_uncached (force : bool) c :
  truthy (listCache c) && negb force = false ->
  fetchAllSenderLists force c = fetchAllSenderLists true c.
Proof.
  intros H. unfold fetchAllSenderLists. rewrite !bind_get_caches.
  rewrite H, andb_false_r. reflexivity.
Qed.

Lemma fetch_cached c :
  truthy (listCache c) = true ->
  fetchAllSenderLists false c = Done (Returned (listCache c), c).
Proof.
  intros H. unfold fetchAllSenderLists. rewrite bind_get_caches, H. reflexivity.
Qed.

(** Whatever a roster read returns is what the cache holds afterwards. *)
Lemma fetch_result_is_cached (R : Remote) (force : bool) c w lists c1 w1 t1 :
  run R (fetchAllSenderLists force) c w = ((Returned lists, c1), w1, t1) ->
  listCache c1 = lists.
Proof.
  destruct (truthy (listCache c) && negb force) eqn:Hcached.
  - apply andb_true_iff in Hcached as [Ht Hf].
    destruct force; [discriminate Hf |].
    unfold run. rewrite (fetch_cached c Ht). simpl.
    intros H. injection H as <- <- _ _. reflexivity.
  - unfold run. rewrite (fetch_uncached force c Hcached).
    fold (run R (fetchAllSenderLists true) c w). rewrite run_fetch_force.
    destruct (run R (_withRetry (request GET_lists) None None None) c w)
      as [[[r c0] w0] t0].
    destruct r as [[res |] | e]; try (intros H; discriminate H).
    destruct (is_nullish (body res)); intros H; [discriminate H |].
    injection H as <- <- _ _. reflexivity.
Qed.

(** X6.  The roster is read through [listCache]: a call without [force]
    that finds a truthy cache answers from it without any request; so after
    any roster read that returned a truthy value (an array, even an empty
    one), the next unforced call returns the same roster whatever the remote
    holds by then.  After [resetInternalCache] an unforced call behaves as a
    forced call on empty caches. *)
Theorem X6_roster_is_served_from_cache (R : Remote) :
  (forall c w,
     truthy (listCache c) = true ->
     run R (fetchAllSenderLists false) c w = ((Returned (listCache c), c), w, [])) /\
  (forall force c w lists c1 w1 t1 w',
     run R (fetchAllSenderLists force) c w = ((Returned lists, c1), w1, t1) ->
     truthy lists = true ->
     run R (fetchAllSenderLists false) c1 w' = ((Returned lists, c1), w', [])) /\
  (forall c w,
     run R (let* _ := resetInternalCache in fetchAllSenderLists false) c w
     = run R (fetchAllSenderLists true) initial_caches w).
Proof.
  split; [| split].
  - intros c w Ht. unfold run. rewrite (fetch_cached c Ht). reflexivity.
  - intros force c w lists c1 w1 t1 w' Hrun Ht.
    pose proof (fetch_result_is_cached R force _ _ _ _ _ _ Hrun) as Hcache.
    unfold run. rewrite fetch_cached by (rewrite Hcache; exact Ht).
    rewrite Hcache. reflexivity.
  - intros c w. rewrite run_bind. unfold resetInternalCache.
    rewrite run_put_caches. cbn beta iota.
    unfold run at 1. rewrite (fetch_uncached false initial_caches eq_refl).
    fold (run R (fetchAllSenderLists true) initial_caches w).
    destruct (run R (fetchAllSenderLists true) initial_caches w) as [[rc w1] t1].
    reflexivity.
Qed.

Lemma X6_witness :
  run scripted (fetchAllSenderLists true) initial_caches [roster []; roster [list_123]]
    = ((Returned (JArr []),
        {| templateCache := None; fieldMapCache := None; listCache := JArr [] |}),
       [roster [list_123]], [EvRequest GET_lists (roster [])]) /\
  truthy (JArr []) = true /\
  run scripted (fetchAllSenderLists false)
    {| templateCache := None; fieldMapCache := None; listCache := JArr [] |}
    [roster [list_123]]
  = ((Returned (JArr []),
      {| templateCache := None; fieldMapCache := None; listCache := JArr [] |}),
     [roster [list_123]], []).
Proof.
  assert (H : run scripted (fetchAllSenderLists true) initial_caches
                [roster []; roster [list_123]]
              = ((Returned (JArr []),
                  {| templateCache := None; fieldMapCache := None;
                     listCache := JArr [] |}),
                 [roster [list_123]], [EvRequest GET_lists (roster [])]))
    by (vm_compute; reflexivity).
  split; [exact H |]. split; [reflexivity |].
  exact (proj1 (proj2 (X6_roster_is_served_from_cache scripted))
           true _ _ _ _ _ _ [roster [list_123]] H eq_refl).
Defined.

(** ** Bounds of a retried request *)

Section RetriedRequestShape.

Variable R : Remote.
Variable req : Req.
Variables n d m : Z.

Lemma retry_request_shape (fuel : nat) :
  forall k c w r c' w' tr,
    (n - k + 1 <= Z.of_nat fuel)%Z ->
    run R (retry_loop (request req) n d m fuel k) c w = ((r, c'), w', tr) ->
    waits_at_most m tr /\
    count_events is_sleep tr = (count_events is_request tr - 1)%nat /\
    match r with
    | Returned None => (n < k)%Z /\ tr = []
    | Returned (Some res) => exists pre, tr = pre ++ [EvRequest req (Resolved res)]
    | Threw e => exists pre, tr = pre ++ [EvRequest req (Rejected e)]
    end.
Proof.
  induction fuel as [| fuel IH]; intros k c w r c' w' tr Hfuel Hrun.
  - cbn [retry_loop] in Hrun. rewrite run_ret in Hrun.
    injection Hrun as <- <- <- <-.
    split; [constructor |]. split; [reflexivity |]. split; [lia | reflexivity].
  - cbn [retry_loop] in Hrun. destruct (k <=? n)%Z eqn:Hle.
    + apply Z.leb_le in Hle.
      rewrite run_try_catch, run_bind, run_request in Hrun.
      destruct (serve R w req) as [o w1]. destruct o as [res | err];
        cbn beta iota in Hrun.
      * rewrite run_ret in Hrun. injection Hrun as <- <- <- <-.
        split; [repeat constructor |]. split; [reflexivity |].
        exists []. reflexivity.
      * destruct (negb (isRateLimit err) || (k =? n)%Z) eqn:Hstop.
        -- rewrite run_throw in Hrun. injection Hrun as <- <- <- <-.
           split; [repeat constructor |]. split; [reflexivity |].
           exists []. reflexivity.
        -- apply orb_false_iff in Hstop as [_ Hne]. apply Z.eqb_neq in Hne.
           rewrite run_bind, run_sleep in Hrun. cbn beta iota in Hrun.
           destruct (run R (retry_loop (request req) n d m fuel (k + 1)) c
                       (wait R (Z.min (d * k) m) w1))
             as [[[r2 c2] w2] t2] eqn:Hrest.
           injection Hrun as <- <- <- <-.
           assert (Hfuel' : (n - (k + 1) + 1 <= Z.of_nat fuel)%Z) by lia.
           destruct (IH _ _ _ _ _ _ _ Hfuel' Hrest) as (Hw & Hs & Hlast).
           assert (Hone : (1 <= count_events is_request t2)%nat).
           { apply (retry_request_trace R req n d m fuel _ _ _ _ _ _ _ Hrest);
               lia. }
           split; [| split].
           ++ constructor; [exact I |]. constructor; [apply Z.le_min_r | exact Hw].
           ++ unfold count_events in *. cbn. lia.
           ++ destruct r2 as [[res |] | e].
              ** destruct Hlast as [pre ->]. eexists (_ :: _ :: pre). reflexivity.
              ** destruct Hlast as [Hlt _]. lia.
              ** destruct Hlast as [pre ->]. eexists (_ :: _ :: pre). reflexivity.
    + apply Z.leb_gt in Hle. rewrite run_ret in Hrun.
      injection Hrun as <- <- <- <-.
      split; [constructor |]. split; [reflexivity |]. split; [lia | reflexivity].
Qed.

(** The trace of the loop, attempt by attempt: a request, and before every
    further request the wait of the attempt before it, which the remote had
    rejected with status 429. *)
Lemma retry_request_attempts (fuel : nat) :
  forall k c w r c' w' tr,
    (n - k + 1 <= Z.of_nat fuel)%Z ->
    run R (retry_loop (request req) n d m fuel k) c w = ((r, c'), w', tr) ->
    exists outs,
      tr = attempts req d m k outs /\
      all_but_last_throttled outs = true /\
      match r with
      | Returned None => outs = []
      | Returned (Some res) => exists pre, outs = pre ++ [Resolved res]
      | Threw e => exists pre, outs = pre ++ [Rejected e]
      end.
Proof.
  induction fuel as [| fuel IH]; intros k c w r c' w' tr Hfuel Hrun.
  - cbn [retry_loop] in Hrun. rewrite run_ret in Hrun.
    injection Hrun as <- <- <- <-. exists []. repeat split.
  - cbn [retry_loop] in Hrun. destruct (k <=? n)%Z eqn:Hle.
    + apply Z.leb_le in Hle.
      rewrite run_try_catch, run_bind, run_request in Hrun.
      destruct (serve R w req) as [o w1]. destruct o as [res | err];
        cbn beta iota in Hrun.
      * rewrite run_ret in Hrun. injection Hrun as <- <- <- <-.
        exists [Resolved res]. repeat split. exists []. reflexivity.
      * destruct (negb (isRateLimit err) || (k =? n)%Z) eqn:Hstop.
        -- rewrite run_throw in Hrun. injection Hrun as <- <- <- <-.
           exists [Rejected err]. repeat split. exists []. reflexivity.
        -- apply orb_false_iff in Hstop as [Hlim Hne].
           apply negb_false_iff in Hlim. apply Z.eqb_neq in Hne.
           rewrite run_bind, run_sleep in Hrun. cbn beta iota in Hrun.
           destruct (run R (retry_loop (request req) n d m fuel (k + 1)) c
                       (wait R (Z.min (d * k) m) w1))
             as [[[r2 c2] w2] t2] eqn:Hrest.
           injection Hrun as <- <- <- <-.
           assert (Hfuel' : (n - (k + 1) + 1 <= Z.of_nat fuel)%Z) by lia.
           destruct (IH _ _ _ _ _ _ _ Hfuel' Hrest) as (outs & -> & Habl & Hlast).
           destruct (retry_request_shape _ _ _ _ _ _ _ _ Hfuel' Hrest)
             as (_ & _ & Hshape).
           destruct outs as [| o2 rest].
           { exfalso. destruct r2 as [[res |] | e].
             - destruct Hlast as [pre Hpre]. destruct pre; discriminate Hpre.
             - destruct Hshape as [Hlt _]. lia.
             - destruct Hlast as [pre Hpre]. destruct pre; discriminate Hpre. }
           exists (Rejected err :: o2 :: rest).
           split; [reflexivity |]. split.
           ++ cbn [all_but_last_throttled is_rate_limited]. rewrite Hlim.
              exact Habl.
           ++ destruct r2 as [[res |] | e].
              ** destruct Hlast as [pre Hpre].
                 exists (Rejected err :: pre). rewrite Hpre. reflexivity.
              ** discriminate Hlast.
              ** destruct Hlast as [pre Hpre].
                 exists (Rejected err :: pre). rewrite Hpre. reflexivity.
    + rewrite run_ret in Hrun. injection Hrun as <- <- <- <-.
      exists []. repeat split.
Qed.

End RetriedRequestShape.

Lemma attempts_requests (req : Req) (d m : Z) (outs : list Outcome) :
  forall k, count_events is_request (attempts req d m k outs) = length outs.
Proof.
  unfold count_events.
  induction outs as [| o rest IH]; intros k; [reflexivity |].
  cbn [attempts]. destruct rest as [| o2 rest2]; [reflexivity |].
  cbn [List.filter is_request length]. f_equal. exact (IH (k + 1)%Z).
Qed.

(** X7.  A request sent through [_withRetry] with retry count [n], delay [d]
    and maximum delay [m]: the trace is that request, sent at most [n]
    times, with exactly one wait between two consecutive requests and
    nothing else: the wait after attempt number [k] lasts [min (d * k) m],
    so none is longer than [m], and every request but the last was rejected
    with status 429; the caches are untouched.  The call returns the
    response of the last request if the remote resolved it and rethrows its
    rejection otherwise; it returns [undefined] without sending anything
    exactly when [n < 1]. *)
Theorem X7_retried_request_is_bounded (R : Remote) (req : Req) (n d m : Z)
  (c : Caches) (w : World R) :
  let '((r, c'), _, tr) :=
    run R (_withRetry (request req) (Some n) (Some d) (Some m)) c w in
  c' = c /\
  only_request req tr /\
  (count_events is_request tr <= Z.to_nat n)%nat /\
  count_events is_sleep tr = (count_events is_request tr - 1)%nat /\
  waits_at_most m tr /\
  (exists outs,
     tr = attempts req d m 1 outs /\
     (length outs <= Z.to_nat n)%nat /\
     all_but_last_throttled outs = true) /\
  match r with
  | Returned None => (n < 1)%Z /\ tr = []
  | Returned (Some res) =>
      (1 <= n)%Z /\ exists pre, tr = pre ++ [EvRequest req (Resolved res)]
  | Threw e =>
      (1 <= n)%Z /\ exists pre, tr = pre ++ [EvRequest req (Rejected e)]
  end.
Proof.
  unfold _withRetry. cbn [default from_option]. unfold id.
  destruct (run R (retry_loop (request req) n d m (Z.to_nat n) 1) c w)
    as [[[r c'] w'] tr] eqn:Hrun.
  destruct (retry_request_trace R req n d m _ _ _ _ _ _ _ _ Hrun)
    as (Hc & Hon & Hcnt & _ & _).
  assert (Hfuel : (n - 1 + 1 <= Z.of_nat (Z.to_nat n))%Z) by lia.
  destruct (retry_request_shape R req n d m _ _ _ _ _ _ _ _ Hfuel Hrun)
    as (Hw & Hs & Hlast).
  assert (Hatt : exists outs,
             tr = attempts req d m 1 outs /\
             (length outs <= Z.to_nat n)%nat /\
             all_but_last_throttled outs = true).
  { destruct (retry_request_attempts R req n d m _ _ _ _ _ _ _ _ Hfuel Hrun)
      as (outs & Htr & Habl & _).
    exists outs. split; [exact Htr |]. split; [| exact Habl].
    rewrite Htr, attempts_requests in Hcnt. exact Hcnt. }
  repeat (split; [assumption |]).
  assert (Hpos : forall pre ev, tr = pre ++ [ev] -> is_request ev = true ->
                                (1 <= n)%Z).
  { intros pre ev -> Hev. rewrite count_events_app in Hcnt.
    unfold count_events in Hcnt at 2. simpl in Hcnt. rewrite Hev in Hcnt.
    simpl in Hcnt. lia. }
  destruct r as [[res |] | e].
  - destruct Hlast as [pre Hpre]. split; [exact (Hpos _ _ Hpre eq_refl) | eauto].
  - exact Hlast.
  - destruct Hlast as [pre Hpre]. split; [exact (Hpos _ _ Hpre eq_refl) | eauto].
Qed.

(** ** What the list operations return *)

Lemma Retries_returned {A : Type} (R : Remote) (fn : M A) (n d m : Z)
  k c w rc w' tr :
  Retries R fn n d m k c w rc w' tr ->
  forall x c', rc = (Returned (Some x), c') ->
  exists c0 w0 t0, run R fn c0 w0 = ((Returned x, c'), w', t0).
Proof.
  induction 1 as [k c w Hk | k c w y c1 w1 t1 Hk Hrun | k c w e c1 w1 t1 Hk Hrun He
                  | k c w e c1 w1 t1 Hk Hrun He
                  | k c w e c1 w1 t1 rc w2 t2 Hk Hrun He Hrest IH];
    intros x c' Heq; try discriminate Heq.
  - injection Heq as <- <-. eauto.
  - exact (IH x c' Heq).
Qed.

Lemma Retries_undefined {A : Type} (R : Remote) (fn : M A) (n d m : Z)
  k c w rc w' tr :
  Retries R fn n d m k c w rc w' tr ->
  forall c', rc = (Returned None, c') -> (n < k)%Z.
Proof.
  induction 1 as [k c w Hk | k c w y c1 w1 t1 Hk Hrun | k c w e c1 w1 t1 Hk Hrun He
                  | k c w e c1 w1 t1 Hk Hrun He
                  | k c w e c1 w1 t1 rc w2 t2 Hk Hrun He Hrest IH];
    intros c' Heq; try discriminate Heq.
  - exact Hk.
  - specialize (IH c' Heq). lia.
Qed.

Lemma find_by_name_named (lists : JsVal) (listName : string) (l : JsVal) :
  find_by_name lists listName = Returned l -> truthy l = true ->
  named_list listName l.
Proof.
  intros H Ht. destruct (find_by_name_result _ _ _ H) as [-> | Hn];
    [discriminate Ht | exact Hn].
Qed.

Lemma poll_returned (R : Remote) (listName : string) c w x c1 w1 t :
  run R (poll listName) c w = ((Returned x, c1), w1, t) ->
  find_by_name (listCache c1) listName = Returned x /\ truthy x = true.
Proof.
  unfold poll. rewrite run_bind.
  destruct (run R (fetchAllSenderLists true) c w) as [[[r c0] w0] t0] eqn:Hf.
  destruct r as [lists | e]; [| discriminate].
  rewrite run_bind, run_lift.
  destruct (find_by_name lists listName) as [v | e] eqn:Hfind; cbn beta iota;
    [| discriminate].
  destruct (truthy v) eqn:Hv; cbn [negb];
    [rewrite run_ret | rewrite run_throw; discriminate].
  intros H. injection H as <- <- _ _.
  rewrite (fetch_result_is_cached R true _ _ _ _ _ _ Hf). auto.
Qed.

Lemma ensureListExistsByName_returned (R : Remote) (listName : string)
  c w l c1 w1 t :
  run R (ensureListExistsByName listName) c w = ((Returned l, c1), w1, t) ->
  find_by_name (listCache c1) listName = Returned l /\ truthy l = true.
Proof.
  rewrite run_ensureListExistsByName.
  destruct (run R (fetchAllSenderLists true) c w) as [[[r c0] w0] t0] eqn:Hf.
  destruct r as [lists | e]; [| discriminate].
  destruct (find_by_name lists listName) as [v | e] eqn:Hfind; [| discriminate].
  destruct (truthy v) eqn:Hv.
  { intros H. injection H as <- <- _ _.
    rewrite (fetch_result_is_cached R true _ _ _ _ _ _ Hf). auto. }
  destruct (run R (_withRetry (request (POST_list listName)) None None None) c0 w0)
    as [[[rc c2] w2] t2].
  destruct rc as [y | e]; [| discriminate].
  destruct (run R (fetchAllSenderLists true) c2 (wait R 1000 w2))
    as [[[rf c3] w3] t3] eqn:Hf3.
  destruct rf as [newLists | e]; [| discriminate].
  destruct (find_by_name newLists listName) as [v' | e] eqn:Hfind'; [| discriminate].
  destruct (truthy v') eqn:Hv'; [| discriminate].
  intros H. injection H as <- <- _ _.
  rewrite (fetch_result_is_cached R true _ _ _ _ _ _ Hf3). auto.
Qed.

Lemma ensureSenderListExists_returned (R : Remote) (senderId : string)
  c w l c1 w1 t :
  run R (ensureSenderListExists senderId) c w = ((Returned l, c1), w1, t) ->
  find_by_name (listCache c1) (_formatListNameForSender senderId) = Returned l /\
  truthy l = true.
Proof.
  unfold ensureSenderListExists. cbn zeta. rewrite run_bind.
  destruct (run R (ensureListExistsByName (_formatListNameForSender senderId)) c w)
    as [[[r0 c0] w0] t0].
  destruct r0 as [l0 | e]; [| discriminate].
  rewrite run_try_catch, run_bind.
  pose proof (retry_loop_policy R (poll (_formatListNameForSender senderId))
                5 500 1000 5 1 c0 w0 ltac:(lia)) as Hpolicy.
  unfold _withRetry. cbn [default from_option]. unfold id.
  change (Z.to_nat 5) with 5%nat.
  destruct (run R (retry_loop (poll (_formatListNameForSender senderId))
                     5 500 1000 5 1) c0 w0) as [[[r2 c2] w2] t2].
  destruct r2 as [[v |] | e]; cbn beta iota.
  - rewrite run_ret. intros H. injection H as <- <- _ _.
    destruct (Retries_returned R _ _ _ _ _ _ _ _ _ _ Hpolicy v c2 eq_refl)
      as (c' & w' & t' & Hpoll).
    exact (poll_returned R _ _ _ _ _ _ _ Hpoll).
  - pose proof (Retries_undefined R _ _ _ _ _ _ _ _ _ _ Hpolicy c2 eq_refl). lia.
  - rewrite run_throw. discriminate.
Qed.

(** X8.  Whatever the remote does, a list that [ensureListExistsByName] or
    [ensureSenderListExists] returns is an object of the roster whose [name]
    is the requested name ([sender_<senderId>_list] for a sender), and it is
    the entry of that name in the roster that the call leaves in
    [listCache]. *)
Theorem X8_ensured_list_has_the_name (R : Remote) :
  (forall listName c w l c1 w1 t,
     run R (ensureListExistsByName listName) c w = ((Returned l, c1), w1, t) ->
     named_list listName l /\
     find_by_name (listCache c1) listName = Returned l) /\
  (forall senderId c w l c1 w1 t,
     run R (ensureSenderListExists senderId) c w = ((Returned l, c1), w1, t) ->
     named_list ("sender_" +:+ senderId +:+ "_list") l /\
     find_by_name (listCache c1) ("sender_" +:+ senderId +:+ "_list") = Returned l).
Proof.
  split.
  - intros listName c w l c1 w1 t H.
    destruct (ensureListExistsByName_returned R _ _ _ _ _ _ _ H) as [Hfind Ht].
    split; [exact (find_by_name_named _ _ _ Hfind Ht) | exact Hfind].
  - intros senderId c w l c1 w1 t H.
    destruct (ensureSenderListExists_returned R _ _ _ _ _ _ _ H) as [Hfind Ht].
    split; [exact (find_by_name_named _ _ _ Hfind Ht) | exact Hfind].
Qed.

Lemma X8_witness :
  run scripted (ensureSenderListExists "123") initial_caches
    [roster [list_123]; roster [list_123]]
  = ((Returned list_123,
      {| templateCache := None; fieldMapCache := None;
         listCache := JArr [list_123] |}),
     [], [EvRequest GET_lists (roster [list_123]);
          EvRequest GET_lists (roster [list_123])]) /\
  named_list "sender_123_list" list_123.
Proof.
  assert (H : run scripted (ensureSenderListExists "123") initial_caches
                [roster [list_123]; roster [list_123]]
              = ((Returned list_123,
                  {| templateCache := None; fieldMapCache := None;
                     listCache := JArr [list_123] |}),
                 [], [EvRequest GET_lists (roster [list_123]);
                      EvRequest GET_lists (roster [list_123])]))
    by (vm_compute; reflexivity).
  split; [exact H |].
  exact (proj1 (proj2 (X8_ensured_list_has_the_name scripted) _ _ _ _ _ _ _ H)).
Defined.

(** ** Removing a recipient *)

Lemma run_removeRecipient (R : Remote) (email : string) c w :
  _isValidEmail email = true ->
  run R (removeRecipientFromAllSenderLists email) c w =
  let '(o1, w1) := serve R w (POST_contact_search email) in
  match o1 with
  | Rejected err =>
      ((Threw err, c), w1, [EvRequest (POST_contact_search email) o1])
  | Resolved res =>
      if is_nullish (body res)
      then ((Threw (TypeError
                      "Cannot read properties of undefined (reading 'result')"), c),
            w1, [EvRequest (POST_contact_search email) o1])
      else if truthy (found_contact res)
      then
        let put := PUT_remove_from_lists (js_get (found_contact res) "id") in
        let '(o2, w2) := serve R w1 put in
        ((match o2 with
          | Resolved _ => Returned (JObj [("removed", JBool true)])
          | Rejected err => Threw err
          end, c), w2,
         [EvRequest (POST_contact_search email) o1; EvRequest put o2])
      else ((Threw (Error ("Recipient not found for removal: " +:+ email)), c),
            w1, [EvRequest (POST_contact_search email) o1])
  end.
Proof.
  intros Hvalid. unfold removeRecipientFromAllSenderLists.
  rewrite Hvalid. cbn [negb]. rewrite run_bind, run_request.
  destruct (serve R w (POST_contact_search email)) as [o1 w1].
  destruct o1 as [res | err]; cbn beta iota; [| reflexivity].
  rewrite run_bind. unfold get_member.
  destruct (is_nullish (body res)) eqn:Hbody.
  { rewrite run_throw. reflexivity. }
  rewrite run_ret. cbn beta iota. rewrite (found_contact_body _ Hbody).
  destruct (truthy (js_get_opt (js_get (body res) "result") "0")); cbn [negb].
  - rewrite run_bind, run_request. cbn zeta.
    destruct (serve R w1 _) as [o2 w2]. destruct o2; cbn beta iota;
      [rewrite run_ret |]; reflexivity.
  - rewrite run_throw. reflexivity.
Qed.

(** X9.  [removeRecipientFromAllSenderLists] rejects an invalid email
    without any request.  For a valid one it searches the contact first and
    writes only if the search shows a contact: the update then carries that
    contact's id with an empty [list_ids], and the call returns
    [{removed: true}] exactly when both requests resolved; when the search
    shows no contact the call fails with "Recipient not found for removal:
    <email>" and nothing is written. *)
Theorem X9_removal_writes_only_a_found_contact (R : Remote) (email : string)
  (c : Caches) (w : World R) :
  (_isValidEmail email = false ->
   run R (removeRecipientFromAllSenderLists email) c w
   = ((Threw (Error ("Invalid email format: " +:+ email)), c), w, [])) /\
  (_isValidEmail email = true ->
   let '((r, c'), _, tr) := run R (removeRecipientFromAllSenderLists email) c w in
   c' = c /\
   ((requests_of tr = [POST_contact_search email] /\
     r <> Returned (JObj [("removed", JBool true)])) \/
    (exists res o2,
       truthy (found_contact res) = true /\
       tr = [EvRequest (POST_contact_search email) (Resolved res);
             EvRequest (PUT_remove_from_lists (js_get (found_contact res) "id")) o2] /\
       r = match o2 with
           | Resolved _ => Returned (JObj [("removed", JBool true)])
           | Rejected err => Threw err
           end)) /\
   (forall res,
      tr = [EvRequest (POST_contact_search email) (Resolved res)] ->
      is_nullish (body res) = false ->
      r = Threw (Error ("Recipient not found for removal: " +:+ email)))).
Proof.
  split.
  - intros H. unfold run, removeRecipientFromAllSenderLists. rewrite H. reflexivity.
  - intros Hvalid. rewrite (run_removeRecipient R email c w Hvalid).
    destruct (serve R w (POST_contact_search email)) as [o1 w1].
    destruct o1 as [res | err].
    2:{ split; [reflexivity |]. split; [left; split; [reflexivity | discriminate] |].
        intros res Htr. discriminate Htr. }
    destruct (is_nullish (body res)) eqn:Hbody.
    { split; [reflexivity |]. split; [left; split; [reflexivity | discriminate] |].
      intros res' Htr Hb. injection Htr as <-. congruence. }
    destruct (truthy (found_contact res)) eqn:Hfound.
    + cbn zeta.
      destruct (serve R w1 (PUT_remove_from_lists (js_get (found_contact res) "id")))
        as [o2 w2].
      split; [reflexivity |]. split; [right; exists res, o2; auto |].
      intros res' Htr. discriminate Htr.
    + split; [reflexivity |]. split; [left; split; [reflexivity | discriminate] |].
      intros res' Htr _. reflexivity.
Qed.

Lemma X9_witness :
  _isValidEmail "test@example.com" = true /\
  (let '((r, _), _, tr) :=
     run scripted (removeRecipientFromAllSenderLists "test@example.com")
       initial_caches [ok (JObj [("result", JArr [])]); ok JNull] in
   r = Threw (Error "Recipient not found for removal: test@example.com") /\
   tr = [EvRequest (POST_contact_search "test@example.com")
           (ok (JObj [("result", JArr [])]))]).
Proof.
  split; [reflexivity |].
  pose proof (proj2 (X9_removal_writes_only_a_found_contact scripted
                       "test@example.com" initial_caches
                       [ok (JObj [("result", JArr [])]); ok JNull]) eq_refl) as H.
  destruct (run scripted (removeRecipientFromAllSenderLists "test@example.com")
              initial_caches [ok (JObj [("result", JArr [])]); ok JNull])
    as [[[r c'] w'] tr] eqn:Hrun.
  assert (Htr : tr = [EvRequest (POST_contact_search "test@example.com")
                        (ok (JObj [("result", JArr [])]))]).
  { vm_compute in Hrun. injection Hrun as _ _ _ <-. reflexivity. }
  destruct H as (_ & _ & Hnot).
  split; [| exact Htr]. exact (Hnot _ Htr eq_refl).
Defined.

(** ** Recipients by tag *)

Lemma filter_tagged_spec (tag : string) (recipients : list JsVal) :
  match filter_tagged tag recipients with
  | Returned kept =>
      Forall (fun x => is_nullish x = false) recipients /\
      kept = List.filter (has_tag tag) recipients
  | Threw _ => Exists (fun x => is_nullish x = true) recipients
  end.
Proof.
  induction recipients as [| x rest IH]; simpl.
  - split; [constructor | reflexivity].
  - destruct (is_nullish x) eqn:Hx; [left; exact Hx |].
    destruct (filter_tagged tag rest) as [kept | e].
    + destruct IH as [Hall ->]. split; [constructor; assumption |].
      destruct (has_tag tag x); reflexivity.
    + right. exact IH.
Qed.

Lemma has_tag_iff (tag : string) (x : JsVal) :
  has_tag tag x = true <-> current_value x tag = JBool true.
Proof.
  unfold has_tag. destruct (current_value x tag) as [| | [] | | | |];
    simpl; split; congruence.
Qed.

Lemma filter_sublist {X : Type} (p : X -> bool) (l : list X) :
  sublist (List.filter p l) l.
Proof.
  induction l as [| x l IH]; simpl; [constructor |].
  destruct (p x); [apply sublist_skip | apply sublist_cons]; exact IH.
Qed.

(** The verdict of the tag filter on a roster of contacts. *)
Lemma filter_result_array (tag : string) (recipients : list JsVal) :
  (Forall (fun x => is_nullish x = false) recipients ->
   exists kept,
     filter_result (JArr recipients) tag = Returned (JArr kept) /\
     sublist kept recipients /\
     forall x, In x kept <-> In x recipients /\ current_value x tag = JBool true) /\
  (Exists (fun x => is_nullish x = true) recipients ->
   exists e, filter_result (JArr recipients) tag = Threw e).
Proof.
  pose proof (filter_tagged_spec tag recipients) as H. simpl.
  destruct (filter_tagged tag recipients) as [kept | e].
  - destruct H as [Hall ->]. split.
    + intros _. eexists. split; [reflexivity |].
      split; [apply filter_sublist |].
      intros x. rewrite filter_In, has_tag_iff. reflexivity.
    + intros Hex. exfalso. apply Exists_exists in Hex as (x & Hin & Hx).
      rewrite Forall_forall in Hall.
      rewrite (Hall x Hin) in Hx. discriminate Hx.
  - split; [| eauto].
    intros Hall. exfalso. apply Exists_exists in H as (x & Hin & Hx).
    rewrite Forall_forall in Hall.
    rewrite (Hall x Hin) in Hx. discriminate Hx.
Qed.

Lemma run_filterRecipientsByTag (R : Remote) (listId tag : string) c w :
  run R (filterRecipientsByTag listId tag) c w =
  let '(o, w1) := serve R w (GET_contacts listId) in
  ((match o with
    | Rejected err => Threw err
    | Resolved res =>
        if is_nullish (body res)
        then Threw (TypeError
                      "Cannot read properties of undefined (reading 'result')")
        else filter_result (js_get (body res) "result") tag
    end, c), w1, [EvRequest (GET_contacts listId) o]).
Proof.
  unfold filterRecipientsByTag. rewrite run_bind, run_request.
  destruct (serve R w (GET_contacts listId)) as [o w1].
  destruct o as [res | err]; cbn beta iota; [| reflexivity].
  rewrite run_bind. unfold get_member.
  destruct (is_nullish (body res)).
  - rewrite run_throw. reflexivity.
  - rewrite run_ret. cbn beta iota. rewrite run_lift. reflexivity.
Qed.

(** X10.  [filterRecipientsByTag] sends one request, for the contacts of the
    list, and leaves the caches alone.  From an array of contacts it returns,
    in the order of the response, exactly those whose custom field [tag] is
    the boolean [true] (a truthy value such as ["true"] or 1 does not
    count); a [null] entry in the array makes the whole call fail, and a
    rejection of the request is rethrown as it is. *)
Theorem X10_filter_keeps_the_flagged_contacts (R : Remote) (listId tag : string)
  (c : Caches) (w : World R) :
  let '(o, _) := serve R w (GET_contacts listId) in
  let '((r, c'), _, tr) := run R (filterRecipientsByTag listId tag) c w in
  c' = c /\
  tr = [EvRequest (GET_contacts listId) o] /\
  match o with
  | Rejected err => r = Threw err
  | Resolved res =>
      forall recipients,
        js_get (body res) "result" = JArr recipients ->
        (Forall (fun x => is_nullish x = false) recipients ->
         exists kept,
           r = Returned (JArr kept) /\
           sublist kept recipients /\
           forall x, In x kept <->
                     In x recipients /\ current_value x tag = JBool true) /\
        (Exists (fun x => is_nullish x = true) recipients ->
         exists e, r = Threw e)
  end.
Proof.
  rewrite run_filterRecipientsByTag.
  destruct (serve R w (GET_contacts listId)) as [o w1].
  split; [reflexivity |]. split; [reflexivity |].
  destruct o as [res | err]; [| reflexivity].
  intros recipients Hres.
  assert (Hbody : is_nullish (body res) = false).
  { destruct (body res); try reflexivity; discriminate Hres. }
  rewrite Hbody, Hres. apply filter_result_array.
Qed.

Lemma X10_witness :
  let recipients :=
    [JObj [("id", JStr "a");
           ("custom_fields", JObj [("weekly_newsletter", JBool true)])];
     JObj [("id", JStr "b");
           ("custom_fields", JObj [("weekly_newsletter", JStr "true")])]] in
  Forall (fun x => is_nullish x = false) recipients /\
  exists kept,
    (run scripted (filterRecipientsByTag "L1" "weekly_newsletter") initial_caches
       [ok (JObj [("result", JArr recipients)])]).1.1.1
    = Returned (JArr kept) /\
    sublist kept recipients.
Proof.
  cbn zeta. split; [repeat constructor |].
  pose proof (X10_filter_keeps_the_flagged_contacts scripted "L1" "weekly_newsletter"
                initial_caches
                [ok (JObj [("result",
                            JArr [JObj [("id", JStr "a");
                                        ("custom_fields",
                                          JObj [("weekly_newsletter", JBool true)])];
                                  JObj [("id", JStr "b");
                                        ("custom_fields",
                                          JObj [("weekly_newsletter", JStr "true")])]])])])
    as H.
  cbn [serve scripted] in H. unfold ok in H. cbn beta iota in H.
  destruct (run scripted (filterRecipientsByTag "L1" "weekly_newsletter") _ _)
    as [[[r c'] w'] tr].
  destruct H as (_ & _ & H).
  destruct (H _ eq_refl) as [Hkept _].
  destruct (Hkept ltac:(repeat constructor)) as (kept & Hr & Hsub & _).
  exists kept. split; assumption.
Defined.

Example filter_counts_only_true :
  let '((r, _), _, _) :=
    run scripted (filterRecipientsByTag "L1" "weekly_newsletter") initial_caches
      [ok (JObj [("result",
                  JArr [JObj [("id", JStr "a");
                              ("custom_fields", JObj [("weekly_newsletter", JBool true)])];
                        JObj [("id", JStr "b");
                              ("custom_fields", JObj [("weekly_newsletter", JStr "true")])];
                        JObj [("id", JStr "c")];
                        JObj [("id", JStr "d");
                              ("custom_fields", JObj [("weekly_newsletter", JNum 1)])]])])] in
  r = Returned
        (JArr [JObj [("id", JStr "a");
                     ("custom_fields", JObj [("weekly_newsletter", JBool true)])]]).
Proof. vm_compute. reflexivity. Qed.

Lemma run_getSenderList_cached (R : Remote) (senderId tag : string) c w target :
  truthy (listCache c) = true ->
  find_by_name (listCache c) (_formatListNameForSender senderId) = Returned target ->
  run R (getSenderListAndRecipientsByTag senderId tag) c w =
  if truthy target
  then
    let get := GET_contacts (js_toString (js_get target "id")) in
    let '(o, w1) := serve R w get in
    ((match o with
      | Rejected err => Threw err
      | Resolved res =>
          if is_nullish (body res)
          then Threw (TypeError
                        "Cannot read properties of undefined (reading 'result')")
          else match filter_result (js_get (body res) "result") tag with
               | Returned matching =>
                   Returned (JObj [("list", target); ("recipients", matching)])
               | Threw e => Threw e
               end
      end, c), w1, [EvRequest get o])
  else ((Returned (JObj [("list", JNull); ("recipients", JArr [])]), c), w, []).
Proof.
  intros Hcache Hfind. unfold getSenderListAndRecipientsByTag. cbn zeta.
  rewrite run_bind. unfold run at 1. rewrite (fetch_cached c Hcache).
  cbn [exec]. cbn beta iota.
  rewrite run_bind, run_lift, Hfind. cbn beta iota.
  destruct (truthy target); cbn [negb]; [| rewrite run_ret; reflexivity].
  rewrite run_bind, run_request.
  destruct (serve R w _) as [o w1].
  destruct o as [res | err]; cbn beta iota; [| reflexivity].
  rewrite run_bind. unfold get_member.
  destruct (is_nullish (body res)).
  { rewrite run_throw. reflexivity. }
  rewrite run_ret. cbn beta iota. rewrite run_bind, run_lift.
  destruct (filter_result (js_get (body res) "result") tag); cbn beta iota;
    [rewrite run_ret |]; reflexivity.
Qed.

Lemma find_by_name_array_truthy (lists : JsVal) (listName : string) (l : JsVal) :
  find_by_name lists listName = Returned l -> truthy lists = true.
Proof. destruct lists; simpl; try discriminate; reflexivity. Qed.

(** X11.  [getSenderListAndRecipientsByTag] reads the roster through the
    cache.  With a cached roster that has no list of the sender it answers
    [{list: null, recipients: []}] without any request.  And right after
    [ensureSenderListExists] has returned the sender's list, it sends a
    single request, for the contacts of that list, and answers with that
    very list and the contacts flagged [true], whatever the roster of the
    remote is by then. *)
Theorem X11_sender_recipients_use_the_cached_roster (R : Remote)
  (senderId tag : string) :
  (forall c w elems,
     listCache c = JArr elems ->
     find_named (_formatListNameForSender senderId) elems = Returned JUndefined ->
     run R (getSenderListAndRecipientsByTag senderId tag) c w
     = ((Returned (JObj [("list", JNull); ("recipients", JArr [])]), c), w, [])) /\
  (forall c w l c1 w1 t w',
     run R (ensureSenderListExists senderId) c w = ((Returned l, c1), w1, t) ->
     let get := GET_contacts (js_toString (js_get l "id")) in
     let '(o, _) := serve R w' get in
     let '((r, c2), _, tr) :=
       run R (getSenderListAndRecipientsByTag senderId tag) c1 w' in
     c2 = c1 /\
     tr = [EvRequest get o] /\
     forall res recipients,
       o = Resolved res ->
       js_get (body res) "result" = JArr recipients ->
       Forall (fun x => is_nullish x = false) recipients ->
       exists kept,
         r = Returned (JObj [("list", l); ("recipients", JArr kept)]) /\
         sublist kept recipients /\
         forall x, In x kept <->
                   In x recipients /\ current_value x tag = JBool true).
Proof.
  split.
  - intros c w elems Hcache Hfind.
    rewrite (run_getSenderList_cached R senderId tag c w JUndefined).
    + reflexivity.
    + rewrite Hcache. reflexivity.
    + rewrite Hcache. exact Hfind.
  - intros c w l c1 w1 t w' Hensure get.
    destruct (ensureSenderListExists_returned R _ _ _ _ _ _ _ Hensure)
      as [Hfind Ht].
    rewrite (run_getSenderList_cached R senderId tag c1 w' l
               (find_by_name_array_truthy _ _ _ Hfind) Hfind).
    rewrite Ht. cbn zeta. fold get.
    destruct (serve R w' get) as [o w2].
    split; [reflexivity |]. split; [reflexivity |].
    intros res recipients -> Hres Hall.
    assert (Hbody : is_nullish (body res) = false).
    { destruct (body res); try reflexivity; discriminate Hres. }
    rewrite Hbody, Hres.
    destruct (proj1 (filter_result_array tag recipients) Hall)
      as (kept & -> & Hsub & Hin).
    exists kept. auto.
Qed.

Lemma X11_witness :
  run scripted (ensureSenderListExists "123") initial_caches
    [roster [list_123]; roster [list_123]]
  = ((Returned list_123,
      {| templateCache := None; fieldMapCache := None;
         listCache := JArr [list_123] |}),
     [], [EvRequest GET_lists (roster [list_123]);
          EvRequest GET_lists (roster [list_123])]) /\
  (let '((r, _), _, tr) :=
     run scripted (getSenderListAndRecipientsByTag "123" "weekly_newsletter")
       {| templateCache := None; fieldMapCache := None;
          listCache := JArr [list_123] |}
       [contact_with weekly_newsletter_on] in
   tr = [EvRequest (GET_contacts "L1") (contact_with weekly_newsletter_on)]).
Proof.
  assert (H : run scripted (ensureSenderListExists "123") initial_caches
                [roster [list_123]; roster [list_123]]
              = ((Returned list_123,
                  {| templateCache := None; fieldMapCache := None;
                     listCache := JArr [list_123] |}),
                 [], [EvRequest GET_lists (roster [list_123]);
                      EvRequest GET_lists (roster [list_123])]))
    by (vm_compute; reflexivity).
  split; [exact H |].
  pose proof (proj2 (X11_sender_recipients_use_the_cached_roster scripted
                       "123" "weekly_newsletter")
                _ _ _ _ _ _ [contact_with weekly_newsletter_on] H) as Hget.
  cbn zeta in Hget.
  change (serve scripted [contact_with weekly_newsletter_on]
            (GET_contacts (js_toString (js_get list_123 "id"))))
    with (contact_with weekly_newsletter_on, @nil Outcome) in Hget.
  cbn beta iota in Hget.
  destruct (run scripted (getSenderListAndRecipientsByTag "123" "weekly_newsletter")
              {| templateCache := None; fieldMapCache := None;
                 listCache := JArr [list_123] |}
              [contact_with weekly_newsletter_on]) as [[[r c2] w2] tr].
  exact (proj1 (proj2 Hget)).
Defined.

(** X12.  [getRecipientsInSenderList] reads the contacts of the list through
    the retry helper with its defaults: between one and three requests, all
    of them that read, with exactly one wait between two consecutive
    requests and nothing else: 500 ms after the first attempt, 1000 ms after
    the second, every request but the last having been rejected with status
    429.  It returns the response of the last request unchanged when the
    remote resolved it, rethrows its rejection otherwise, and leaves the
    caches alone. *)
Theorem X12_recipients_read_is_retried (R : Remote) (listId : string)
  (c : Caches) (w : World R) :
  let '((r, c'), _, tr) := run R (getRecipientsInSenderList listId) c w in
  c' = c /\
  only_request (GET_contacts listId) tr /\
  (1 <= count_events is_request tr <= 3)%nat /\
  count_events is_sleep tr = (count_events is_request tr - 1)%nat /\
  waits_at_most 3000 tr /\
  (exists outs,
     tr = attempts (GET_contacts listId) 500 3000 1 outs /\
     all_but_last_throttled outs = true) /\
  exists pre,
    tr = pre ++ [EvRequest (GET_contacts listId)
                   (match r with Returned res => Resolved res | Threw e => Rejected e end)].
Proof.
  unfold getRecipientsInSenderList. rewrite run_bind.
  destruct (run R (_withRetry (request (GET_contacts listId)) None None None) c w)
    as [[[r0 c0] w0] t0] eqn:Hrun.
  destruct (withRetry_request_trace R _ _ _ _ _ _ _ Hrun) as (Hc & Hon & Hcnt & _).
  unfold _withRetry in Hrun. cbn [default from_option] in Hrun. unfold id in Hrun.
  change (Z.to_nat 3) with 3%nat in Hrun.
  assert (Hfuel : (3 - 1 + 1 <= Z.of_nat 3)%Z) by lia.
  destruct (retry_request_shape R _ 3 500 3000 3 1 _ _ _ _ _ _ Hfuel Hrun)
    as (Hw & Hs & Hlast).
  assert (Hatt : exists outs,
             t0 = attempts (GET_contacts listId) 500 3000 1 outs /\
             all_but_last_throttled outs = true).
  { destruct (retry_request_attempts R _ 3 500 3000 3 1 _ _ _ _ _ _ Hfuel Hrun)
      as (outs & Htr & Habl & _).
    exists outs. split; assumption. }
  destruct r0 as [[res |] | e]; cbn beta iota; unfold destructure_first.
  - rewrite run_ret, app_nil_r. repeat (split; [assumption |]). exact Hlast.
  - destruct Hlast as [Hlt _]. lia.
  - repeat (split; [assumption |]). exact Hlast.
Qed.

(** ** Custom field definitions *)

Lemma find_field_result (fields : JsVal) (name : string) (found : JsVal) :
  find_field fields name = Returned found ->
  truthy found = false -> found = JUndefined.
Proof.
  intros H Ht.
  assert (H' : find_by_name fields name = Returned found).
  { destruct fields; simpl in *; try discriminate H; exact H. }
  exact (find_by_name_truthy _ _ _ H' Ht).
Qed.

Lemma run_ensureCustomFieldExists (R : Remote) (name : string)
  (type : option string) c w :
  run R (ensureCustomFieldExists name type) c w =
  let '(o1, w1) := serve R w GET_field_definitions in
  match o1 with
  | Rejected err => ((Threw err, c), w1, [EvRequest GET_field_definitions o1])
  | Resolved existing =>
      if is_nullish (body existing)
      then ((Threw (TypeError
                      "Cannot read properties of undefined (reading 'custom_fields')"),
             c), w1, [EvRequest GET_field_definitions o1])
      else
        match find_field (js_get (body existing) "custom_fields") name with
        | Threw e => ((Threw e, c), w1, [EvRequest GET_field_definitions o1])
        | Returned found =>
            if truthy found
            then ((Returned found, c), w1, [EvRequest GET_field_definitions o1])
            else
              let post := POST_field_definition name (default "text" type) in
              let '(o2, w2) := serve R w1 post in
              ((match o2 with
                | Resolved createRes => Returned (body createRes)
                | Rejected err =>
                    match mentions_already_exists (first_error_message err) with
                    | Returned true => Returned JUndefined
                    | Returned false => Threw err
                    | Threw e => Threw e
                    end
                end, c), w2,
               [EvRequest GET_field_definitions o1; EvRequest post o2])
        end
  end.
Proof.
  unfold ensureCustomFieldExists. cbn zeta. rewrite run_bind, run_request.
  destruct (serve R w GET_field_definitions) as [o1 w1].
  destruct o1 as [existing | err]; cbn beta iota; [| reflexivity].
  rewrite run_bind. unfold get_member.
  destruct (is_nullish (body existing)).
  { rewrite run_throw. reflexivity. }
  rewrite run_ret. cbn beta iota. rewrite run_bind, run_lift.
  destruct (find_field (js_get (body existing) "custom_fields") name)
    as [found | e] eqn:Hfind; cbn beta iota; [| reflexivity].
  destruct (truthy found) eqn:Ht; [rewrite run_ret; reflexivity |].
  rewrite run_try_catch, run_bind, run_request.
  destruct (serve R w1 _) as [o2 w2].
  destruct o2 as [createRes | err]; cbn beta iota.
  - rewrite run_ret. reflexivity.
  - rewrite run_bind, run_lift.
    destruct (mentions_already_exists (first_error_message err)) as [[] | e];
      cbn beta iota.
    + rewrite run_lift, (find_field_result _ _ _ Hfind Ht). reflexivity.
    + rewrite run_throw. reflexivity.
    + reflexivity.
Qed.

(** X13.  [ensureCustomFieldExists] reads the field definitions and returns
    the definition of that name when there is one, without creating
    anything.  Otherwise it sends one create request and returns the body of
    its response; when the create is rejected and the first error message
    of the rejection contains "already exists" the call returns [undefined]
    (the definitions read before the create do not have the field), and any
    other rejection is rethrown as it is. *)
Theorem X13_custom_field_find_or_create (R : Remote) (name : string)
  (type : option string) (c : Caches) (w : World R) :
  let '(o1, _) := serve R w GET_field_definitions in
  let '((r, c'), _, tr) := run R (ensureCustomFieldExists name type) c w in
  c' = c /\
  forall existing fields,
    o1 = Resolved existing ->
    js_get (body existing) "custom_fields" = JArr fields ->
    (forall found,
       find_named name fields = Returned found -> found <> JUndefined ->
       r = Returned found /\ tr = [EvRequest GET_field_definitions o1]) /\
    (find_named name fields = Returned JUndefined ->
     exists o2,
       tr = [EvRequest GET_field_definitions o1;
             EvRequest (POST_field_definition name (default "text" type)) o2] /\
       match o2 with
       | Resolved createRes => r = Returned (body createRes)
       | Rejected err =>
           forall msg,
             first_error_message err = JStr msg ->
             r = if includes "already exists" msg
                 then Returned JUndefined else Threw err
       end).
Proof.
  rewrite run_ensureCustomFieldExists.
  destruct (serve R w GET_field_definitions) as [o1 w1].
  destruct o1 as [existing | err].
  2:{ split; [reflexivity |]. intros existing fields H. discriminate H. }
  destruct (is_nullish (body existing)) eqn:Hbody.
  { split; [reflexivity |]. intros ex fields H Hf. injection H as <-.
    destruct (body existing); try discriminate Hbody; discriminate Hf. }
  destruct (find_field (js_get (body existing) "custom_fields") name)
    as [found | e] eqn:Hfind.
  - destruct (truthy found) eqn:Ht.
    + split; [reflexivity |]. intros ex fields H Hf. injection H as <-.
      rewrite Hf in Hfind. simpl in Hfind. split.
      * intros found' Hfound' _. rewrite Hfind in Hfound'.
        injection Hfound' as <-. split; reflexivity.
      * intros Hun. rewrite Hfind in Hun. injection Hun as ->. discriminate Ht.
    + cbn zeta.
      destruct (serve R w1 (POST_field_definition name (default "text" type)))
        as [o2 w2].
      split; [reflexivity |]. intros ex fields H Hf. injection H as <-.
      rewrite Hf in Hfind. simpl in Hfind. split.
      * intros found' Hfound' Hne. rewrite Hfind in Hfound'.
        injection Hfound' as <-. exfalso. apply Hne.
        apply (find_field_result (JArr fields) name found); [exact Hfind | exact Ht].
      * intros _. exists o2. split; [reflexivity |].
        destruct o2 as [createRes | err]; [reflexivity |].
        intros msg Hmsg. rewrite Hmsg. simpl.
        destruct (includes "already exists" msg); reflexivity.
  - split; [reflexivity |]. intros ex fields H Hf. injection H as <-.
    rewrite Hf in Hfind. simpl in Hfind. split.
    + intros found Hfound. congruence.
    + intros Hun. congruence.
Qed.

Lemma X13_witness :
  find_named "test_field" [] = Returned JUndefined /\
  first_error_message (remote_error 400 ["Field test_field already exists"])
    = JStr "Field test_field already exists" /\
  (run scripted (ensureCustomFieldExists "test_field" None) initial_caches
     [ok (JObj [("custom_fields", JArr [])]);
      Rejected (remote_error 400 ["Field test_field already exists"])]).1.1.1
  = Returned JUndefined.
Proof.
  split; [reflexivity |]. split; [reflexivity |].
  pose proof (X13_custom_field_find_or_create scripted "test_field" None
                initial_caches
                [ok (JObj [("custom_fields", JArr [])]);
                 Rejected (remote_error 400 ["Field test_field already exists"])])
    as H.
  assert (Hrun : run scripted (ensureCustomFieldExists "test_field" None)
                   initial_caches
                   [ok (JObj [("custom_fields", JArr [])]);
                    Rejected (remote_error 400 ["Field test_field already exists"])]
                 = ((Returned JUndefined, initial_caches), [],
                    [EvRequest GET_field_definitions
                       (ok (JObj [("custom_fields", JArr [])]));
                     EvRequest (POST_field_definition "test_field" "text")
                       (Rejected (remote_error 400
                                    ["Field test_field already exists"]))]))
    by (vm_compute; reflexivity).
  rewrite Hrun in H. rewrite Hrun.
  cbn [serve scripted] in H. unfold ok in H. cbn beta iota in H.
  destruct H as (_ & H).
  destruct (H _ [] eq_refl eq_refl) as [_ Hcreate].
  destruct (Hcreate eq_refl) as (o2 & Htr & Hr).
  injection Htr as <-.
  exact (Hr _ eq_refl).
Defined.

Example custom_field_conflict_returns_undefined :
  let '((r, _), _, tr) :=
    run scripted (ensureCustomFieldExists "test_field" (Some "text")) initial_caches
      [ok (JObj [("custom_fields", JArr [])]);
       Rejected (remote_error 400 ["Field test_field already exists"])] in
  r = Returned JUndefined /\
  requests_of tr = [GET_field_definitions; POST_field_definition "test_field" "text"].
Proof. vm_compute. split; reflexivity. Qed.

(** ** Sending *)

(** X14.  From caches the class can reach, [sendSimpleEmail] sends at most
    one request: either it fails in validation with an empty trace, or the
    trace is the single [sgMail.send] of the message built from the options
    and the template, and then the call returns the response the remote
    resolved, or throws "Failed to send email: <message>" for a rejection,
    keeping the message of the rejection only. *)
Theorem X14_simple_email_sends_at_most_once (R : Remote) (REG : Registry)
  (options : SimpleEmailOptions) (c : Caches) (w : World R) :
  coherent REG c ->
  let '((r, _), _, tr) := run R (sendSimpleEmail REG options) c w in
  (tr = [] /\ exists e, r = Threw e) \/
  (exists template o,
     lookup_prop (templateKey options) REG = Some template /\
     tr = [EvRequest (MailSend (message_of options template)) o] /\
     r = send_outcome o).
Proof.
  intros Hc. destruct (addresses_pass options) eqn:Hpass.
  - destruct (loadEmailTemplateConfig_coherent REG c Hc) as (c' & Hload & _).
    unfold run.
    rewrite (sendSimpleEmail_good_address REG options c c' Hpass Hload).
    destruct (lookup_prop (templateKey options) REG) as [template |];
      [| left; simpl; eauto].
    cbn zeta.
    destruct (negb (length _ =? 0)%nat); [left; simpl; eauto |].
    destruct (check_field_types (customFieldTypes template)
                (dynamicTemplateData options)); [| left; simpl; eauto].
    fold (run R (try_catch
                   (request (MailSend
                      {| msg_to := to options; msg_from := from options;
                         msg_templateId := templateId template;
                         msg_dynamicTemplateData := dynamicTemplateData options;
                         msg_cc := cc options; msg_bcc := bcc options |}))
                   (fun err => throw (Error ("Failed to send email: "
                                             +:+ message err)))) c' w).
    rewrite run_try_catch, run_request.
    destruct (serve R w _) as [o w1].
    destruct o as [res | err]; cbn beta iota.
    + right. eexists template, _. repeat split; reflexivity.
    + rewrite run_throw. cbn beta iota.
      right. eexists template, _. repeat split; reflexivity.
  - destruct (sendSimpleEmail_bad_address REG options c Hpass) as [e He].
    unfold run. rewrite He. left. simpl. eauto.
Qed.

Lemma X14_witness :
  coherent EmailTemplateMap initial_caches /\
  (let '((r, _), _, tr) :=
     run scripted (sendSimpleEmail EmailTemplateMap laptop_order) initial_caches
       [Rejected (remote_error 401 ["The provided authorization grant is invalid"])] in
   (tr = [] /\ exists e, r = Threw e) \/
   (exists template o,
      lookup_prop (templateKey laptop_order) EmailTemplateMap = Some template /\
      tr = [EvRequest (MailSend (message_of laptop_order template)) o] /\
      r = send_outcome o)).
Proof.
  split; [apply coherent_initial |].
  exact (X14_simple_email_sends_at_most_once scripted EmailTemplateMap laptop_order
           initial_caches
           [Rejected (remote_error 401 ["The provided authorization grant is invalid"])]
           (coherent_initial _)).
Defined.

Example simple_email_rejection_is_wrapped :
  let '((r, _), _, _) :=
    run scripted (sendSimpleEmail EmailTemplateMap laptop_order) initial_caches
      [Rejected (remote_error 401 ["The provided authorization grant is invalid"])] in
  r = Threw (Error "Failed to send email: Bad Request").
Proof. vm_compute. reflexivity. Qed.

Lemma segment_failure_local (e : JsError) :
  response e = JUndefined ->
  segment_failure e = Threw (Error ("Failed to create segment: " +:+ message e)).
Proof.
  intros H. unfold segment_failure, remote_messages_or. rewrite H. reflexivity.
Qed.

Lemma run_sendCampaignEmail (R : Remote) (REG : Registry) (sender : Z)
  (options : CampaignOptions) c w (m : gmap string string) (ty : string) :
  coherent REG c ->
  mergeTemplates ∅ (List.map snd REG) = Returned m ->
  m !! tag options = Some ty ->
  ty <> "" ->
  exists c1 c2,
    run R (sendCampaignEmail REG sender options) c w =
    let seg := POST_segment (segment_name options) (listId options) (tag options) in
    let '(o1, w1) := serve R w seg in
    match o1 with
    | Rejected err => ((segment_failure err, c1), w1, [EvRequest seg o1])
    | Resolved segRes =>
        if is_nullish (body segRes)
        then ((Threw (Error ("Failed to create segment: "
                 +:+ "Cannot read properties of undefined (reading 'id')")), c1),
              w1, [EvRequest seg o1])
        else
          match template_id_read REG (campaignTemplateKey options) with
          | None =>
              ((Threw (TypeError
                         "Cannot read properties of undefined (reading 'templateId')"),
                c2), w1, [EvRequest seg o1; EvNow (clock R w1)])
          | Some template_id =>
              let single :=
                POST_singlesend_with sender
                  ("Campaign_" +:+ campaignTemplateKey options +:+ "_"
                   +:+ pretty (clock R w1))
                  (js_get (body segRes) "id") template_id in
              let '(o2, w2) := serve R w1 single in
              match o2 with
              | Rejected err =>
                  ((Threw err, c2), w2,
                   [EvRequest seg o1; EvNow (clock R w1); EvRequest single o2])
              | Resolved campRes =>
                  if is_nullish (body campRes)
                  then ((Threw (TypeError
                                  "Cannot read properties of undefined (reading 'id')"),
                         c2), w2,
                        [EvRequest seg o1; EvNow (clock R w1); EvRequest single o2])
                  else
                    let sched :=
                      POST_schedule (js_toString (js_get (body campRes) "id"))
                        (sendAt options) in
                    let '(o3, w3) := serve R w2 sched in
                    ((match o3 with
                      | Resolved _ =>
                          Returned (JObj [("campaignId", js_get (body campRes) "id");
                                          ("segmentId", js_get (body segRes) "id")])
                      | Rejected err => Threw err
                      end, c2), w3,
                     [EvRequest seg o1; EvNow (clock R w1); EvRequest single o2;
                      EvRequest sched o3])
              end
          end
    end.
Proof.
  intros Hc Hm Hl Hty.
  destruct (buildFieldType_coherent REG c m Hc Hm) as (c1 & Hbuild & Hc1).
  destruct (loadEmailTemplateConfig_coherent REG c1 Hc1) as (c2 & Hload & _).
  exists c1, c2.
  unfold sendCampaignEmail. cbn zeta. fold (segment_name options).
  rewrite run_bind. unfold run at 1. rewrite Hbuild. cbn [exec]. cbn beta iota.
  rewrite Hl. apply String.eqb_neq in Hty. rewrite Hty.
  rewrite run_bind, run_try_catch, run_bind, run_request.
  destruct (serve R w _) as [o1 w1].
  destruct o1 as [segRes | err]; cbn beta iota.
  2:{ rewrite run_bind, run_lift. unfold segment_failure.
      destruct (remote_messages_or err (message err)); cbn beta iota;
        [rewrite run_throw |]; reflexivity. }
  unfold get_member. destruct (is_nullish (body segRes)).
  { rewrite run_throw. cbn beta iota. rewrite run_bind, run_lift.
    change (remote_messages_or (TypeError ?m) ?f) with (Returned (A := string) f).
    cbn beta iota. rewrite run_throw. reflexivity. }
  rewrite run_ret. cbn beta iota.
  rewrite run_bind. unfold run at 1. unfold now. cbn [exec]. cbn beta iota.
  rewrite run_bind. unfold run at 1. rewrite Hload. cbn [exec]. cbn beta iota.
  rewrite run_bind.
  assert (Hread :
    run R (match lookup_prop (campaignTemplateKey options) REG with
           | Some template => ret (JStr (templateId template))
           | None =>
               if inherited (campaignTemplateKey options) then ret JUndefined
               else throw (TypeError
                      "Cannot read properties of undefined (reading 'templateId')")
           end) c2 w1
    = ((match template_id_read REG (campaignTemplateKey options) with
        | Some template_id => Returned template_id
        | None => Threw (TypeError
                      "Cannot read properties of undefined (reading 'templateId')")
        end, c2), w1, [])).
  { unfold template_id_read.
    destruct (lookup_prop (campaignTemplateKey options) REG) as [template |];
      [rewrite run_ret; reflexivity |].
    destruct (inherited (campaignTemplateKey options));
      [rewrite run_ret | rewrite run_throw]; reflexivity. }
  rewrite Hread.
  destruct (template_id_read REG (campaignTemplateKey options)) as [template_id |];
    cbn beta iota; [| reflexivity].
  rewrite run_bind, run_request.
  destruct (serve R w1 _) as [o2 w2].
  destruct o2 as [campRes | err]; cbn beta iota; [| reflexivity].
  rewrite run_bind. destruct (is_nullish (body campRes)).
  { rewrite run_throw. reflexivity. }
  rewrite run_ret. cbn beta iota. rewrite run_bind, run_request.
  destruct (serve R w2 _) as [o3 w3].
  destruct o3 as [res | err]; cbn beta iota; [rewrite run_ret |]; reflexivity.
Qed.

(** X15.  A campaign whose tag the field map declares (with a non-empty type)
    and whose template key is in the registry issues its requests in a fixed
    order, each one only after the previous one was resolved: the segment,
    then (after reading the clock for the campaign name) the single send that
    names the segment's id and the template's id, then the schedule of the
    single send's id.  It ends in one of three ways.  After the segment
    request alone, with an error, which for a rejection is
    "Failed to create segment: ..."; after the single-send request, with an
    error, a rejection being handed on as it is; or after the schedule
    request, returning [{campaignId, segmentId}] exactly when that request was
    resolved and handing on its rejection otherwise.  Nothing is sent to undo
    a segment or single send already created. *)
Theorem X15_campaign_steps_run_in_order (R : Remote) (REG : Registry) (sender : Z)
  (options : CampaignOptions) (c : Caches) (w : World R)
  (m : gmap string string) (ty : string) (template : Template) :
  coherent REG c ->
  mergeTemplates ∅ (List.map snd REG) = Returned m ->
  m !! tag options = Some ty ->
  ty <> "" ->
  lookup_prop (campaignTemplateKey options) REG = Some template ->
  let '((r, _), _, tr) := run R (sendCampaignEmail REG sender options) c w in
  campaign_stopped_at_segment options r tr \/
  campaign_stopped_at_singlesend sender options template r tr \/
  campaign_reached_schedule sender options template r tr.
Proof.
  intros Hc Hm Hl Hty Hk.
  destruct (run_sendCampaignEmail R REG sender options c w m ty Hc Hm Hl Hty)
    as (c1 & c2 & ->).
  cbn zeta. unfold template_id_read. rewrite Hk.
  destruct (serve R w _) as [o1 w1].
  destruct o1 as [segRes | err].
  2:{ left. exists (Rejected err). split; [reflexivity |]. split.
      - unfold segment_failure. destruct (remote_messages_or _ _); eauto.
      - intros err' H. injection H as <-. reflexivity. }
  destruct (is_nullish (body segRes)).
  { left. exists (Resolved segRes). split; [reflexivity |].
    split; [eauto | discriminate]. }
  destruct (serve R w1 _) as [o2 w2].
  destruct o2 as [campRes | err].
  2:{ right. left. exists segRes, (clock R w1), (Rejected err).
      split; [reflexivity |]. split; [eauto |].
      intros err' H. injection H as <-. reflexivity. }
  destruct (is_nullish (body campRes)).
  { right. left. exists segRes, (clock R w1), (Resolved campRes).
    split; [reflexivity |]. split; [eauto | discriminate]. }
  destruct (serve R w2 _) as [o3 w3].
  right. right. exists segRes, (clock R w1), campRes, o3.
  split; reflexivity.
Qed.

Lemma X15_witness :
  coherent EmailTemplateMap initial_caches /\
  (exists m : gmap string string,
     mergeTemplates ∅ (List.map snd EmailTemplateMap) = Returned m /\
     m !! tag campaign_order_id = Some "string") /\
  "string" <> "" /\
  lookup_prop (campaignTemplateKey campaign_order_id) EmailTemplateMap
    = Some creator_broadcast_template /\
  (let '((r, _), _, tr) :=
     run scripted (sendCampaignEmail EmailTemplateMap 42 campaign_order_id)
       initial_caches
       [ok (JObj [("id", JStr "seg-1")]); ok (JObj [("id", JStr "camp-1")]);
        ok JUndefined] in
   campaign_stopped_at_segment campaign_order_id r tr \/
   campaign_stopped_at_singlesend 42 campaign_order_id creator_broadcast_template r tr \/
   campaign_reached_schedule 42 campaign_order_id creator_broadcast_template r tr).
Proof.
  assert (Hm : exists m : gmap string string,
             mergeTemplates ∅ (List.map snd EmailTemplateMap) = Returned m /\
             m !! tag campaign_order_id = Some "string").
  { eexists. split; [reflexivity |]. vm_compute. reflexivity. }
  split; [apply coherent_initial |]. split; [exact Hm |].
  split; [discriminate |]. split; [reflexivity |].
  destruct Hm as (m & Hm & Hl).
  exact (X15_campaign_steps_run_in_order scripted EmailTemplateMap 42
           campaign_order_id initial_caches
           [ok (JObj [("id", JStr "seg-1")]); ok (JObj [("id", JStr "camp-1")]);
            ok JUndefined]
           m "string" creator_broadcast_template
           (coherent_initial _) Hm Hl ltac:(discriminate) eq_refl).
Defined.

Example campaign_returns_both_ids :
  let '((r, _), _, tr) :=
    run scripted (sendCampaignEmail EmailTemplateMap 42 campaign_order_id)
      initial_caches
      [ok (JObj [("id", JStr "seg-1")]); ok (JObj [("id", JStr "camp-1")]);
       ok JUndefined] in
  r = Returned (JObj [("campaignId", JStr "camp-1"); ("segmentId", JStr "seg-1")]) /\
  List.map (fun q => match q with
                     | ClientRequest _ url _ => url
                     | MailSend _ => ""
                     end) (requests_of tr)
    = ["/v3/marketing/segments"; "/v3/marketing/singlesends";
       "/v3/marketing/singlesends/camp-1/schedule"].
Proof. vm_compute. split; reflexivity. Qed.






(* ------------------------------------------------------------------ *)
(** ** The caches over a history of calls *)

Section CachesOverHistories.

Variable REG : Registry.

Lemma keeps_removeRecipient email :
  keeps_coherent REG (removeRecipientFromAllSenderLists email).
Proof.
  unfold removeRecipientFromAllSenderLists.
  destruct (negb (_isValidEmail email)); [apply keeps_throw |].
  apply keeps_bind; [apply keeps_request |]. intros contactRes.
  apply keeps_bind; [apply keeps_get_member |]. intros result. cbn zeta.
  destruct (negb (truthy (js_get_opt result "0"))); [apply keeps_throw |].
  apply keeps_bind; [apply keeps_request |]. intros _. apply keeps_ret.
Qed.

Lemma keeps_filterRecipientsByTag listId tag :
  keeps_coherent REG (filterRecipientsByTag listId tag).
Proof.
  unfold filterRecipientsByTag.
  apply keeps_bind; [apply keeps_request |]. intros res.
  apply keeps_bind; [apply keeps_get_member |]. intros result.
  apply keeps_lift.
Qed.

Lemma keeps_getSenderListAndRecipientsByTag senderId tag :
  keeps_coherent REG (getSenderListAndRecipientsByTag senderId tag).
Proof.
  unfold getSenderListAndRecipientsByTag. cbn zeta.
  apply keeps_bind; [apply keeps_fetchAllSenderLists |]. intros lists.
  apply keeps_bind; [apply keeps_lift |]. intros targetList.
  destruct (negb (truthy targetList)); [apply keeps_ret |].
  apply keeps_bind; [apply keeps_request |]. intros res.
  apply keeps_bind; [apply keeps_get_member |]. intros result.
  apply keeps_bind; [apply keeps_lift |]. intros matching. apply keeps_ret.
Qed.

Lemma keeps_getRecipientsInSenderList listId :
  keeps_coherent REG (getRecipientsInSenderList listId).
Proof.
  unfold getRecipientsInSenderList.
  apply keeps_bind; [apply keeps_withRetry, keeps_request |]. intros r.
  destruct r; [apply keeps_ret | apply keeps_throw].
Qed.

Lemma keeps_ensureCustomFieldExists name type :
  keeps_coherent REG (ensureCustomFieldExists name type).
Proof.
  unfold ensureCustomFieldExists. cbn zeta.
  apply keeps_bind; [apply keeps_request |]. intros existing.
  apply keeps_bind; [apply keeps_get_member |]. intros fields.
  apply keeps_bind; [apply keeps_lift |]. intros exists_.
  destruct (truthy exists_); [apply keeps_ret |].
  apply keeps_try_catch.
  - apply keeps_bind; [apply keeps_request |]. intros createRes. apply keeps_ret.
  - intros err. apply keeps_bind; [apply keeps_lift |]. intros conflict.
    destruct conflict; [apply keeps_lift | apply keeps_throw].
Qed.

Lemma after_call_coherent (R : Remote) (sender : Z) (call : Call)
  (s : Caches * World R) :
  coherent REG s.1 -> coherent REG (after_call R REG sender call s).1.
Proof.
  intros Hc.
  assert (H : forall (A : Type) (m : M A),
             keeps_coherent REG m -> coherent REG (state_after R m s).1).
  { intros A m Hm. unfold state_after. cbn [fst].
    exact (run_keeps_coherent REG R m s.1 s.2 Hm Hc). }
  destruct call; cbn [after_call]; apply H.
  - apply keeps_loadEmailTemplateConfig.
  - apply keeps_buildFieldType.
  - apply keeps_removeRecipient.
  - apply keeps_subscribe.
  - apply keeps_sendSimpleEmail.
  - apply keeps_sendCampaignEmail.
  - apply keeps_filterRecipientsByTag.
  - apply keeps_fetchAllSenderLists.
  - apply keeps_getSenderListAndRecipientsByTag.
  - apply keeps_getRecipientsInSenderList.
  - apply keeps_ensureSenderListExists.
  - apply keeps_ensureListExistsByName.
  - apply keeps_ensureCustomFieldExists.
  - apply keeps_resetInternalCache.
Qed.

Lemma after_calls_coherent (R : Remote) (sender : Z) (calls : list Call)
  (s : Caches * World R) :
  coherent REG s.1 ->
  coherent REG
    (fold_left (fun s call => after_call R REG sender call s) calls s).1.
Proof.
  revert s. induction calls as [| call rest IH]; intros s Hc; [exact Hc |].
  cbn [fold_left]. apply IH, after_call_coherent, Hc.
Qed.

End CachesOverHistories.

(** X17.  The template cache and the field map never go stale.  After any
    history of calls of the class's static methods, made one after the other
    from a freshly loaded class against any remote and whether they returned
    or threw, [templateCache] is empty or holds the registry, and
    [fieldMapCache] is empty or holds the merge of the registry's
    [customFieldTypes].  So the next [loadEmailTemplateConfig] returns the
    registry, and the next [buildFieldTypeFromEmailTemplateConfig] ends with
    what the merge of the registry gives, without any request. *)
Theorem X17_caches_never_go_stale (R : Remote) (REG : Registry) (sender : Z)
  (calls : list Call) (w : World R) :
  let c := (after_calls R REG sender calls w).1 in
  coherent REG c /\
  (exists c', loadEmailTemplateConfig REG c = Done (Returned REG, c')) /\
  (exists c',
     buildFieldTypeFromEmailTemplateConfig REG c
       = Done (mergeTemplates ∅ (List.map snd REG), c')).
Proof.
  cbn zeta.
  assert (Hc : coherent REG (after_calls R REG sender calls w).1).
  { unfold after_calls. apply after_calls_coherent. apply coherent_initial. }
  split; [exact Hc |]. split.
  - destruct (loadEmailTemplateConfig_coherent REG _ Hc) as (c' & H & _).
    exists c'. exact H.
  - destruct (buildFieldType_outcome REG _ Hc) as (c' & H & _).
    exists c'. exact H.
Qed.

(* ------------------------------------------------------------------ *)
(** ** The tag check of a campaign *)

(** X18.  With a registry whose templates all carry [customFieldTypes], a
    campaign on a tag that no template declares is refused with
    "Invalid tag: <tag>" before any interaction, against any remote,
    provided the tag is not the name of a member of [Object.prototype]; on a
    tag that is such a name the check passes and the first step of the call
    is the segment request. *)
Theorem X18_tag_check_on_undeclared_tags
  (REG : Registry) (sender : Z) (options : CampaignOptions) (c : Caches) :
  coherent REG c ->
  (forall key t, In (key, t) REG -> customFieldTypes t <> None) ->
  undeclared_tag REG (tag options) ->
  (inherited (tag options) = false ->
   exists c',
     sendCampaignEmail REG sender options c
       = Done (Threw (Error ("Invalid tag: " +:+ tag options)), c') /\
     forall (R : Remote) (w : World R),
       run R (sendCampaignEmail REG sender options) c w
       = ((Threw (Error ("Invalid tag: " +:+ tag options)), c'), w, [])) /\
  (inherited (tag options) = true ->
   exists k,
     sendCampaignEmail REG sender options c
     = Await (POST_segment (segment_name options) (listId options) (tag options)) k).
Proof.
  intros Hc Hall Hun.
  pose proof (undeclared_tag_check REG sender options c Hc Hall Hun) as H.
  split; intros Hinh; rewrite Hinh in H.
  - destruct H as [c' H]. exists c'. split; [exact H |].
    intros R w. apply immediate_run. exact H.
  - exact H.
Qed.

Lemma X18_witness :
  coherent EmailTemplateMap initial_caches /\
  (forall key t, In (key, t) EmailTemplateMap -> customFieldTypes t <> None) /\
  undeclared_tag EmailTemplateMap (tag campaign_weekly_newsletter) /\
  inherited (tag campaign_weekly_newsletter) = false /\
  exists c',
    sendCampaignEmail EmailTemplateMap 42 campaign_weekly_newsletter initial_caches
      = Done (Threw (Error ("Invalid tag: " +:+ tag campaign_weekly_newsletter)), c') /\
    forall (R : Remote) (w : World R),
      run R (sendCampaignEmail EmailTemplateMap 42 campaign_weekly_newsletter)
        initial_caches w
      = ((Threw (Error ("Invalid tag: " +:+ tag campaign_weekly_newsletter)), c'),
         w, []).
Proof.
  split; [apply coherent_initial |].
  split; [exact shipped_templates_typed |].
  split; [exact weekly_newsletter_undeclared |].
  split; [reflexivity |].
  exact (proj1 (X18_tag_check_on_undeclared_tags EmailTemplateMap 42
                  campaign_weekly_newsletter initial_caches (coherent_initial _)
                  shipped_templates_typed weekly_newsletter_undeclared) eq_refl).
Defined.
